(** * Pre-filter for architectural vector drawings

    A shallow embedding of [main.py]: the region-label classifier, the
    dimension parser and validator, the geometry predicates, the line
    deduplicator and the [filter_clean] pipeline, followed by the properties
    proved about them.

    Conventions of the embedding.
    - Python [float] values are modelled as exact rationals ([Q]); every
      constant of the source (1.5, 25, 100000, ...) is exactly representable,
      rounding of arithmetic is not modelled.
    - Python [str] values are modelled as [string] over ASCII characters.
    - [List[float]] fields stay lists: indexing and tuple unpacking raise
      as in Python, and the exceptions are threaded through [result].
    - [math.atan2]/[math.degrees] and Shapely's [LineString.intersects] are
      library code; they are taken as parameters ([Externals]). *)

From Stdlib Require Import ZArith QArith Qabs Qround List String Ascii Bool Lia Lqa.
Import ListNotations.

Local Open Scope string_scope.
Local Open Scope list_scope.

(** ** Exceptions and the error monad *)

Inductive exn : Type :=
| IndexError
| ValueError
| HTTPException (status_code : Z).

Inductive result (A : Type) : Type :=
| Ok (a : A)
| Raise (e : exn).

Arguments Ok {A} a.
Arguments Raise {A} e.

Definition bind {A B : Type} (m : result A) (k : A -> result B) : result B :=
  match m with
  | Ok a => k a
  | Raise e => Raise e
  end.

Notation "x <- m ;; k" := (bind m (fun x => k))
  (at level 61, m at next level, right associativity).
Notation "' p <- m ;; k" := (bind m (fun x => match x with p => k end))
  (at level 61, p pattern, m at next level, right associativity).

(** [try: m except Exception as e: h e] *)
Definition try_except {A : Type} (m : result A) (h : exn -> result A) : result A :=
  match m with
  | Ok a => Ok a
  | Raise e => h e
  end.

(** [l[i]] for a constant non-negative index. *)
Definition getitem (l : list Q) (i : nat) : result Q :=
  match nth_error l i with
  | Some x => Ok x
  | None => Raise IndexError
  end.

(** [a, b = l] *)
Definition unpack2 (l : list Q) : result (Q * Q) :=
  match l with
  | [a; b] => Ok (a, b)
  | _ => Raise ValueError
  end.

(** [a, b, c, d = l] *)
Definition unpack4 (l : list Q) : result (Q * Q * Q * Q) :=
  match l with
  | [a; b; c; d] => Ok (a, b, c, d)
  | _ => Raise ValueError
  end.

(** ** Numbers *)

Definition Qleb (x y : Q) : bool := Qle_bool x y.
Definition Qltb (x y : Q) : bool := negb (Qle_bool y x).

Infix "<=?" := Qleb : Q_scope.
Infix "<?" := Qltb : Q_scope.

Lemma Qleb_le (x y : Q) : (x <=? y)%Q = true <-> (x <= y)%Q.
Proof. apply Qle_bool_iff. Qed.

Lemma Qltb_lt (x y : Q) : (x <? y)%Q = true <-> (x < y)%Q.
Proof.
  unfold Qltb. rewrite negb_true_iff, <- not_true_iff_false, Qle_bool_iff.
  split; [apply Qnot_le_lt | apply Qlt_not_le].
Qed.

Lemma Qleb_gt (x y : Q) : (x <=? y)%Q = false <-> (y < x)%Q.
Proof.
  rewrite <- Qltb_lt. unfold Qltb, Qleb. destruct (Qle_bool x y); simpl; intuition congruence.
Qed.

Lemma Qltb_ge (x y : Q) : (x <? y)%Q = false <-> (y <= x)%Q.
Proof.
  rewrite <- Qleb_le. unfold Qltb, Qleb. destruct (Qle_bool y x); simpl; intuition congruence.
Qed.

(** ** Strings: the [str] methods the source uses *)

(** [c.isspace()] on ASCII: tab .. carriage return, the four separators
    0x1c .. 0x1f, and the space.  The regex class [\s] is the same set. *)
Definition is_space (c : ascii) : bool :=
  let n := nat_of_ascii c in
  (((9 <=? n)%nat && (n <=? 13)%nat) || ((28 <=? n)%nat && (n <=? 32)%nat))%bool.

Fixpoint lstrip (s : string) : string :=
  match s with
  | EmptyString => EmptyString
  | String c s' => if is_space c then lstrip s' else s
  end.

Fixpoint rstrip (s : string) : string :=
  match s with
  | EmptyString => EmptyString
  | String c s' =>
      match rstrip s' with
      | EmptyString => if is_space c then EmptyString else String c EmptyString
      | r => String c r
      end
  end.

(** [s.strip()] *)
Definition strip (s : string) : string := rstrip (lstrip s).

Definition lower_ascii (c : ascii) : ascii :=
  let n := nat_of_ascii c in
  if ((65 <=? n)%nat && (n <=? 90)%nat)%bool then ascii_of_nat (n + 32) else c.

(** [s.lower()] *)
Fixpoint lower (s : string) : string :=
  match s with
  | EmptyString => EmptyString
  | String c s' => String (lower_ascii c) (lower s')
  end.

(** [sub in s] *)
Fixpoint contains (sub s : string) : bool :=
  prefix sub s ||
  match s with
  | EmptyString => false
  | String _ s' => contains sub s'
  end.

(** [s.find(sub)]: the lowest index where [sub] starts, [-1] when absent. *)
Fixpoint find (sub s : string) : Z :=
  if prefix sub s then 0%Z
  else match s with
       | EmptyString => (-1)%Z
       | String _ s' =>
           let r := find sub s' in
           if (r <? 0)%Z then (-1)%Z else (r + 1)%Z
       end.

(** [s[start:stop]] with Python's clamping of both indices. *)
Definition slice (s : string) (start stop : Z) : string :=
  let len := Z.of_nat (String.length s) in
  let clamp i := Z.min len (Z.max 0 (if (i <? 0)%Z then i + len else i))%Z in
  let a := clamp start in
  let b := clamp stop in
  substring (Z.to_nat a) (Z.to_nat (b - a)) s.

(** [x in [s1, ..., sn]] for strings *)
Definition str_in (x : string) (l : list string) : bool :=
  existsb (String.eqb x) l.

(** ** DrawingTypeClassifier: [parse_bestektekening_region_type] *)

Definition valid_types : list string :=
  [ "plattegrond"; "doorsnede"; "gevelaanzicht";
    "detailtekening_kozijn"; "detailtekening_plattegrond";
    "detailtekening" ].

(** The keyword fallback, on the lower-cased label. *)
Definition keyword_region_type (label_lower : string) : string :=
  if contains "plattegrond" label_lower || contains "grond" label_lower
     || contains "verdieping" label_lower then "plattegrond"
  else if contains "gevel" label_lower || contains "aanzicht" label_lower
  then "gevelaanzicht"
  else if contains "doorsnede" label_lower then "doorsnede"
  else if contains "detail" label_lower then
    if contains "kozijn" label_lower || contains "raam" label_lower
       || contains "deur" label_lower
    then "detailtekening_kozijn"
    else "detailtekening"
  else "unknown".

(** The [try] block of the source cannot raise ([find] and slicing are
    total), so the function is pure. *)
Definition parse_bestektekening_region_type (region_label : string) : string :=
  let fallback := keyword_region_type (lower region_label) in
  if contains "(" region_label && contains ")" region_label then
    let start := (find "(" region_label + 1)%Z in
    let stop := find ")" region_label in
    let extracted_type := strip (slice region_label start stop) in
    if str_in extracted_type valid_types then extracted_type else fallback
  else fallback.

(** ** A backtracking matcher for the patterns of the dimension parser

    The seven patterns of [extract_dimension_value] only use character
    classes, literals, greedy repetition of a class, sequencing,
    alternation, capture groups and the end anchor.  [rmatch] is a
    continuation-passing backtracking matcher with Python's priorities:
    the left alternative first, the longest repetition first. *)

Inductive regex : Type :=
| Eps
| Chr (p : ascii -> bool)
| Lit (s : string)
| Star (p : ascii -> bool)
| Seq (r1 r2 : regex)
| Alt (r1 r2 : regex)
| Group (n : nat) (r : regex)
| Eol.

(** [r?] and [c+] *)
Definition Opt (r : regex) : regex := Alt r Eps.
Definition Plus (p : ascii -> bool) : regex := Seq (Chr p) (Star p).

(** The groups of a match object: [m.group(n)]. *)
Definition captures : Type := nat -> option string.

Definition no_captures : captures := fun _ => None.

Definition set_group (n : nat) (v : string) (caps : captures) : captures :=
  fun m => if Nat.eqb m n then Some v else caps m.

(** What was consumed between the input [s] and its suffix [s']. *)
Definition consumed (s s' : string) : string :=
  substring 0 (String.length s - String.length s') s.

Fixpoint match_star (p : ascii -> bool) (k : string -> option captures)
  (s : string) : option captures :=
  match s with
  | String c s' =>
      if p c then
        match match_star p k s' with
        | Some m => Some m
        | None => k s
        end
      else k s
  | EmptyString => k s
  end.

(** A literal, compared under [re.IGNORECASE]; returns the rest. *)
Fixpoint match_lit (lit s : string) : option string :=
  match lit, s with
  | EmptyString, _ => Some s
  | String a lit', String c s' =>
      if Ascii.eqb (lower_ascii a) (lower_ascii c) then match_lit lit' s' else None
  | String _ _, EmptyString => None
  end.

Definition newline : ascii := ascii_of_nat 10.

Fixpoint rmatch (r : regex) (s : string) (caps : captures)
  (k : string -> captures -> option captures) : option captures :=
  match r with
  | Eps => k s caps
  | Chr p =>
      match s with
      | String c s' => if p c then k s' caps else None
      | EmptyString => None
      end
  | Lit l =>
      match match_lit l s with
      | Some s' => k s' caps
      | None => None
      end
  | Star p => match_star p (fun s' => k s' caps) s
  | Seq r1 r2 => rmatch r1 s caps (fun s' caps' => rmatch r2 s' caps' k)
  | Alt r1 r2 =>
      match rmatch r1 s caps k with
      | Some m => Some m
      | None => rmatch r2 s caps k
      end
  | Group n r1 =>
      rmatch r1 s caps (fun s' caps' => k s' (set_group n (consumed s s') caps'))
  | Eol =>
      (* [$] without MULTILINE: at the end, or before a final newline *)
      match s with
      | EmptyString => k s caps
      | String c EmptyString => if Ascii.eqb c newline then k s caps else None
      | _ => None
      end
  end.

(** [re.match(pattern, s, re.IGNORECASE)] *)
Definition re_match (pattern : regex) (s : string) : option captures :=
  rmatch pattern s no_captures (fun _ caps => Some caps).

(** ** DimensionParser: [extract_dimension_value] *)

(** [\d] *)
Definition is_digit (c : ascii) : bool :=
  let n := nat_of_ascii c in ((48 <=? n)%nat && (n <=? 57)%nat)%bool.

(** [[,.]] *)
Definition is_sep (c : ascii) : bool :=
  (Ascii.eqb c "," || Ascii.eqb c ".")%bool.

(** A one-letter class under IGNORECASE: [[pP]], [[vV]], [[pPvV]]. *)
Definition is_p (c : ascii) : bool := Ascii.eqb (lower_ascii c) "p".
Definition is_v (c : ascii) : bool := Ascii.eqb (lower_ascii c) "v".
Definition is_pv (c : ascii) : bool := (is_p c || is_v c)%bool.
Definition is_plus (c : ascii) : bool := Ascii.eqb c "+".

(** [(\d+(?:[,.]\d+)?)] *)
Definition re_number : regex :=
  Group 1 (Seq (Plus is_digit) (Opt (Seq (Chr is_sep) (Plus is_digit)))).

(** [(mm|cm|m)?] and [(mm|cm|m|p|v)?] *)
Definition re_unit : regex :=
  Opt (Group 2 (Alt (Lit "mm") (Alt (Lit "cm") (Lit "m")))).
Definition re_unit_pv : regex :=
  Opt (Group 2 (Alt (Lit "mm") (Alt (Lit "cm") (Alt (Lit "m") (Alt (Lit "p") (Lit "v")))))).

Definition ws : regex := Star is_space.

Definition patterns : list regex :=
  [ (* ^(\d+(?:[,.]\d+)?)\s*(mm|cm|m)?$ *)
    Seq re_number (Seq ws (Seq re_unit Eol));
    (* ^\+(\d+(?:[,.]\d+)?)\s*(mm|cm|m|p|v)?$ *)
    Seq (Chr is_plus) (Seq re_number (Seq ws (Seq re_unit_pv Eol)));
    (* ^(\d+(?:[,.]\d+)?)\s*[pP]\s*(mm|cm|m)?$ *)
    Seq re_number (Seq ws (Seq (Chr is_p) (Seq ws (Seq re_unit Eol))));
    (* ^(\d+(?:[,.]\d+)?)\s*[vV]\s*(mm|cm|m)?$ *)
    Seq re_number (Seq ws (Seq (Chr is_v) (Seq ws (Seq re_unit Eol))));
    (* ^\+(\d+(?:[,.]\d+)?)\s*[pPvV]\s*(mm|cm|m)?$ *)
    Seq (Chr is_plus)
      (Seq re_number (Seq ws (Seq (Chr is_pv) (Seq ws (Seq re_unit Eol)))));
    (* ^(\d+(?:[,.]\d+)?)\s*\+\s*[pPvV]\s*(mm|cm|m)?$ *)
    Seq re_number
      (Seq ws (Seq (Chr is_plus) (Seq ws (Seq (Chr is_pv) (Seq ws (Seq re_unit Eol))))));
    (* ^(\d+(?:[,.]\d+)?)\s+\+\s*[pPvV]\s*(mm|cm|m)?$ *)
    Seq re_number
      (Seq (Plus is_space)
         (Seq (Chr is_plus) (Seq ws (Seq (Chr is_pv) (Seq ws (Seq re_unit Eol)))))) ].

(** [s.replace(',', '.')] *)
Fixpoint replace_comma (s : string) : string :=
  match s with
  | EmptyString => EmptyString
  | String c s' => String (if Ascii.eqb c "," then "."%char else c) (replace_comma s')
  end.

Definition digit_value (c : ascii) : Z := Z.of_nat (nat_of_ascii c - 48).

(** Reads [ddd] or [ddd.ddd]: the digits as one integer and the power of
    ten the fraction digits stand for. *)
Fixpoint scan_decimal (s : string) (after_dot : bool) (mant : Z) (scale : positive)
  : Z * positive :=
  match s with
  | EmptyString => (mant, scale)
  | String c s' =>
      if Ascii.eqb c "." then scan_decimal s' true mant scale
      else scan_decimal s' after_dot (10 * mant + digit_value c)%Z
             (if after_dot then (10 * scale)%positive else scale)
  end.

(** [float(s)] for [s] of the form [\d+(\.\d+)?], the only strings group 1
    can hold after the comma is replaced ([re_match_captures_numeral]
    below); [float] does not raise on them. *)
Definition float_of_str (s : string) : Q :=
  let '(mant, scale) := scan_decimal s false 0%Z 1%positive in mant # scale.

(** [m.group(n)], read as the empty string when the group took no part
    (group 1 takes part in every match of the patterns above, see
    [re_match_captures_numeral]). *)
Definition group (m : captures) (n : nat) : string :=
  match m n with
  | Some g => g
  | None => EmptyString
  end.

(** The body of the loop once a pattern matched. *)
Definition convert_match (m : captures) : Q :=
  let value_str := replace_comma (group m 1) in
  let value := float_of_str value_str in
  (* unit = match.group(2) if ... and match.group(2) else None *)
  let unit : option string :=
    match m 2%nat with
    | Some EmptyString => None
    | Some u => Some u
    | None => None
    end in
  match unit with
  | Some u =>
      if str_in (lower u) ["mm"; "cm"; "m"] then
        if String.eqb (lower u) "cm" then (value * 10)%Q
        else if String.eqb (lower u) "m" then (value * 1000)%Q
        else value
      else value
  | None => value
  end.

Fixpoint try_patterns (ps : list regex) (text_clean : string) : option Q :=
  match ps with
  | [] => None
  | pattern :: rest =>
      match re_match pattern text_clean with
      | Some m => Some (convert_match m)
      | None => try_patterns rest text_clean
      end
  end.

Definition extract_dimension_value (text : string) : option Q :=
  let text_clean := strip text in
  try_patterns patterns text_clean.

(** ** DimensionValidator: [is_valid_dimension] *)

Definition is_empty (s : string) : bool :=
  match s with
  | EmptyString => true
  | _ => false
  end.

Definition is_valid_dimension (text drawing_type : string) : bool :=
  if (is_empty text || is_empty (strip text))%bool then false
  else
    let text_clean := strip text in
    match extract_dimension_value text_clean with
    | None => false
    | Some extracted_value =>
        let too_small :=
          if String.eqb drawing_type "plattegrond"
          then (extracted_value <? 500)%Q
          else (extracted_value <? 100)%Q in
        if too_small then false
        else if (100000 <? extracted_value)%Q then false
        else true
    end.

(** ** Data model *)

(** Input models.  [image_metadata] of [VisionOutput] is never read and is
    left out. *)
Record VectorLine : Type := {
  p1 : list Q;
  p2 : list Q;
  stroke_width : Q;
  length : Q;
  color : list Z;
  is_dashed : bool;
  angle : option Q
}.

Record VectorText : Type := {
  text : string;
  position : list Q;
  font_size : option Q;
  bounding_box : list Q
}.

Record VectorPage : Type := {
  page_size : list (string * Q);
  lines : list VectorLine;
  texts : list VectorText
}.

Record VectorData : Type := {
  page_number : Z;
  pages : list VectorPage
}.

Record VisionRegion : Type := {
  label : string;
  coordinate_block : list Q
}.

Record VisionOutput : Type := {
  drawing_type : string;
  regions : list VisionRegion
}.

Record FilterInput : Type := {
  vector_data : VectorData;
  vision_output : VisionOutput
}.

(** Output models. *)
Module Out.

Record CleanPoint : Type := { x : Q; y : Q }.

Record FilteredLine : Type := {
  length : Q;
  orientation : string;
  midpoint : CleanPoint
}.

Record FilteredText : Type := {
  text : string;
  midpoint_xy : CleanPoint
}.

Record RegionData : Type := {
  label : string;
  lines : list FilteredLine;
  texts : list FilteredText;
  parsed_drawing_type : option string
}.

Record CleanOutput : Type := {
  drawing_type : string;
  regions : list RegionData
}.

End Out.

(** ** Library functions taken as parameters *)

Class Externals : Type := {
  (** [math.degrees(math.atan2(dy, dx))] *)
  atan2_degrees : Q -> Q -> Q;
  (** [LineString([p, q]).intersects(box(minx, miny, maxx, maxy))];
      [Raise] when Shapely raises. *)
  shapely_intersects : Q * Q -> Q * Q -> Q * Q * Q * Q -> result bool
}.

(** ** GeometryPredicates *)

(** [a % 180] on floats, read as the exact remainder, which has the sign
    of the divisor.  Python rounds the result (for a tiny negative angle it
    gives 180.0); the examples below use angles whose remainder is exact,
    and no general property rests on its value. *)
Definition mod180 (a : Q) : Q := (a - 180 * inject_Z (Qfloor (a / 180)))%Q.

Definition classify_angle (a : Q) : string :=
  if ((a <? 15)%Q || (165 <? a)%Q)%bool then "vertical"
  else if ((75 <? a)%Q && (a <? 105)%Q)%bool then "horizontal"
  else "diagonal".

(** [min(a, b)] and [max(a, b)] *)
Definition py_min (a b : Q) : Q := if (b <? a)%Q then b else a.
Definition py_max (a b : Q) : Q := if (a <? b)%Q then b else a.

(** [e0 <= x <= e2 and e1 <= y <= e3] *)
Definition in_rect (e : Q * Q * Q * Q) (x y : Q) : bool :=
  let '(e0, e1, e2, e3) := e in
  ((e0 <=? x)%Q && (x <=? e2)%Q && ((e1 <=? y)%Q && (y <=? e3)%Q))%bool.

(** [[x1 - 25, y1 - 25, x2 + 25, y2 + 25]] *)
Definition expand_region (x1 y1 x2 y2 : Q) : Q * Q * Q * Q :=
  (x1 - 25, y1 - 25, x2 + 25, y2 + 25)%Q.

Section Geometry.

Context {ext : Externals}.

Definition calculate_orientation (p1 p2 : list Q) (angle : option Q)
  : result string :=
  match angle with
  | Some angle =>
      let normalized_angle := Qabs (mod180 angle) in
      Ok (classify_angle normalized_angle)
  | None =>
      p2_0 <- getitem p2 0 ;;
      p1_0 <- getitem p1 0 ;;
      let dx := Qabs (p2_0 - p1_0) in
      p2_1 <- getitem p2 1 ;;
      p1_1 <- getitem p1 1 ;;
      let dy := Qabs (p2_1 - p1_1) in
      if (dx <? 1)%Q then Ok "horizontal"
      else if (dy <? 1)%Q then Ok "vertical"
      else
        let angle_deg := atan2_degrees dy dx in
        Ok (classify_angle angle_deg)
  end.

Definition calculate_midpoint (p1 p2 : list Q) : result Out.CleanPoint :=
  p1_0 <- getitem p1 0 ;;
  p2_0 <- getitem p2 0 ;;
  p1_1 <- getitem p1 1 ;;
  p2_1 <- getitem p2 1 ;;
  Ok {| Out.x := (p1_0 + p2_0) / 2; Out.y := (p1_1 + p2_1) / 2 |}.

Definition calculate_text_midpoint (bbox : list Q) : result Out.CleanPoint :=
  b0 <- getitem bbox 0 ;;
  b2 <- getitem bbox 2 ;;
  b1 <- getitem bbox 1 ;;
  b3 <- getitem bbox 3 ;;
  Ok {| Out.x := (b0 + b2) / 2; Out.y := (b1 + b3) / 2 |}.

Definition line_intersects_region (line_p1 line_p2 region : list Q) : result bool :=
  '(x1, y1, x2, y2) <- unpack4 region ;;
  let expanded_region := expand_region x1 y1 x2 y2 in
  let '(e0, e1, e2, e3) := expanded_region in
  (* for x, y in [line_p1, line_p2]: ... return True *)
  '(x, y) <- unpack2 line_p1 ;;
  if in_rect expanded_region x y then Ok true
  else
    '(x, y) <- unpack2 line_p2 ;;
    if in_rect expanded_region x y then Ok true
    else
      '(line_x1, line_y1) <- unpack2 line_p1 ;;
      '(line_x2, line_y2) <- unpack2 line_p2 ;;
      let line_min_x := py_min line_x1 line_x2 in
      let line_max_x := py_max line_x1 line_x2 in
      let line_min_y := py_min line_y1 line_y2 in
      let line_max_y := py_max line_y1 line_y2 in
      if ((line_max_x <? e0)%Q || (e2 <? line_min_x)%Q
          || (line_max_y <? e1)%Q || (e3 <? line_min_y)%Q)%bool
      then Ok false
      else
        try_except
          (shapely_intersects (line_x1, line_y1) (line_x2, line_y2) expanded_region)
          (fun _ => Ok false).

Definition text_overlaps_region (t : VectorText) (region : list Q) : result bool :=
  '(x1, y1, x2, y2) <- unpack4 region ;;
  let '(e0, e1, e2, e3) := expand_region x1 y1 x2 y2 in
  '(text_x1, text_y1, text_x2, text_y2) <- unpack4 (bounding_box t) ;;
  Ok (negb ((text_x2 <? e0)%Q || (e2 <? text_x1)%Q
            || (text_y2 <? e1)%Q || (e3 <? text_y1)%Q)).

End Geometry.

(** ** Inclusion rules *)

(** [(line.stroke_width <= s and line.length >= l) or line.is_dashed] *)
Definition passes (s l : Q) (line : VectorLine) : bool :=
  (((stroke_width line <=? s)%Q && (l <=? length line)%Q) || is_dashed line)%bool.

Definition should_include_line (line : VectorLine) (drawing_type region_label : string)
  : bool :=
  if String.eqb drawing_type "bestektekening" then
    let region_drawing_type := parse_bestektekening_region_type region_label in
    if String.eqb region_drawing_type "plattegrond" then passes 1.5 50 line
    else if String.eqb region_drawing_type "gevelaanzicht" then passes 1.5 40 line
    else if String.eqb region_drawing_type "doorsnede" then passes 1.5 40 line
    else if str_in region_drawing_type
              ["detailtekening_kozijn"; "detailtekening_plattegrond"; "detailtekening"]
    then passes 1.0 20 line
    else passes 1.5 30 line
  else if String.eqb drawing_type "plattegrond" then passes 1.5 50 line
  else if String.eqb drawing_type "gevelaanzicht" then passes 1.5 40 line
  else if String.eqb drawing_type "doorsnede" then passes 1.5 40 line
  else if str_in drawing_type
            ["detailtekening"; "detailtekening_kozijn"; "detailtekening_plattegrond"]
  then passes 1.0 20 line
  else if String.eqb drawing_type "installatietekening" then false
  else passes 1.5 30 line.

Definition should_include_text (t : VectorText) (drawing_type region_label : string)
  : bool :=
  let effective_drawing_type :=
    if String.eqb drawing_type "bestektekening"
    then parse_bestektekening_region_type region_label
    else drawing_type in
  if String.eqb effective_drawing_type "installatietekening" then false
  else is_valid_dimension (text t) effective_drawing_type.

(** ** LineDeduplicator: [remove_duplicate_lines] *)

Definition tolerance : Q := 1.0.

(** [abs(a[i] - b[i]) < tolerance] *)
Definition near (a b : list Q) (i : nat) : result bool :=
  u <- getitem a i ;;
  v <- getitem b i ;;
  Ok (Qabs (u - v) <? tolerance)%Q.

(** [near a b 0 and near a b 1], the second operand only when needed. *)
Definition point_match (a b : list Q) : result bool :=
  m0 <- near a b 0 ;;
  if m0 then near a b 1 else Ok false.

(** The body of the inner loop: the four tests and the condition of the
    [if]. *)
Definition lines_match (line existing_line : VectorLine) : result bool :=
  p1_match <- point_match (p1 line) (p1 existing_line) ;;
  p2_match <- point_match (p2 line) (p2 existing_line) ;;
  p1_reverse <- point_match (p1 line) (p2 existing_line) ;;
  p2_reverse <- point_match (p2 line) (p1 existing_line) ;;
  Ok ((p1_match && p2_match) || (p1_reverse && p2_reverse))%bool.

(** The inner loop with its [break]. *)
Fixpoint is_duplicate (line : VectorLine) (unique_lines : list VectorLine)
  : result bool :=
  match unique_lines with
  | [] => Ok false
  | existing_line :: rest =>
      m <- lines_match line existing_line ;;
      if m then Ok true else is_duplicate line rest
  end.

(** The outer loop; [unique_lines] is the accumulator. *)
Fixpoint dedupe_loop (lines unique_lines : list VectorLine)
  : result (list VectorLine) :=
  match lines with
  | [] => Ok unique_lines
  | line :: rest =>
      d <- is_duplicate line unique_lines ;;
      dedupe_loop rest (if d then unique_lines else unique_lines ++ [line])
  end.

Definition remove_duplicate_lines (lines : list VectorLine)
  : result (list VectorLine) :=
  dedupe_loop lines [].

(** ** FilterPipeline: [filter_clean] *)

Section Pipeline.

Context {ext : Externals}.

(** [FilteredLine(length=..., orientation=..., midpoint=...)] *)
Definition filtered_line (line : VectorLine) : result Out.FilteredLine :=
  o <- calculate_orientation (p1 line) (p2 line) (angle line) ;;
  m <- calculate_midpoint (p1 line) (p2 line) ;;
  Ok {| Out.length := length line; Out.orientation := o; Out.midpoint := m |}.

(** [FilteredText(text=..., midpoint=...)] *)
Definition filtered_text (t : VectorText) : result Out.FilteredText :=
  m <- calculate_text_midpoint (bounding_box t) ;;
  Ok {| Out.text := text t; Out.midpoint_xy := m |}.

(** [for line in unique_filtered_lines: ...], with [region_lines] as the
    accumulator. *)
Fixpoint region_lines_loop (drawing_type : string) (region : VisionRegion)
  (unique_filtered_lines : list VectorLine) (region_lines : list Out.FilteredLine)
  : result (list Out.FilteredLine) :=
  match unique_filtered_lines with
  | [] => Ok region_lines
  | line :: rest =>
      hit <- line_intersects_region (p1 line) (p2 line) (coordinate_block region) ;;
      if hit then
        if String.eqb drawing_type "bestektekening" then
          if should_include_line line drawing_type (label region) then
            fl <- filtered_line line ;;
            region_lines_loop drawing_type region rest (region_lines ++ [fl])
          else region_lines_loop drawing_type region rest region_lines
        else
          fl <- filtered_line line ;;
          region_lines_loop drawing_type region rest (region_lines ++ [fl])
      else region_lines_loop drawing_type region rest region_lines
  end.

(** [for text in vector_page.texts: ...] *)
Fixpoint region_texts_loop (drawing_type : string) (region : VisionRegion)
  (page_texts : list VectorText) (region_texts : list Out.FilteredText)
  : result (list Out.FilteredText) :=
  match page_texts with
  | [] => Ok region_texts
  | t :: rest =>
      hit <- text_overlaps_region t (coordinate_block region) ;;
      if hit then
        if should_include_text t drawing_type (label region) then
          ft <- filtered_text t ;;
          region_texts_loop drawing_type region rest (region_texts ++ [ft])
        else region_texts_loop drawing_type region rest region_texts
      else region_texts_loop drawing_type region rest region_texts
  end.

(** The body of [for region in regions]. *)
Definition process_region (drawing_type : string)
  (unique_filtered_lines : list VectorLine) (page_texts : list VectorText)
  (region : VisionRegion) : result Out.RegionData :=
  let parsed_drawing_type :=
    if String.eqb drawing_type "bestektekening"
    then Some (parse_bestektekening_region_type (label region))
    else None in
  region_lines <- region_lines_loop drawing_type region unique_filtered_lines [] ;;
  region_texts <- region_texts_loop drawing_type region page_texts [] ;;
  Ok {| Out.label := label region;
        Out.lines := region_lines;
        Out.texts := region_texts;
        Out.parsed_drawing_type := parsed_drawing_type |}.

(** [for region in regions: ... region_outputs.append(region_data)] *)
Fixpoint regions_loop (drawing_type : string)
  (unique_filtered_lines : list VectorLine) (page_texts : list VectorText)
  (regions : list VisionRegion) (region_outputs : list Out.RegionData)
  : result (list Out.RegionData) :=
  match regions with
  | [] => Ok region_outputs
  | region :: rest =>
      region_data <-
        process_region drawing_type unique_filtered_lines page_texts region ;;
      regions_loop drawing_type unique_filtered_lines page_texts rest
        (region_outputs ++ [region_data])
  end.

(** STEP 1: the global line filter. *)
Definition step1 (drawing_type : string) (page_lines : list VectorLine)
  : list VectorLine :=
  if String.eqb drawing_type "bestektekening"
  then filter (passes 1.5 20) page_lines
  else filter (fun line => should_include_line line drawing_type "") page_lines.

(** STEP 2: duplicates are removed when anything is left. *)
Definition step2 (filtered_lines : list VectorLine) : result (list VectorLine) :=
  match filtered_lines with
  | [] => Ok filtered_lines
  | _ :: _ => remove_duplicate_lines filtered_lines
  end.

(** The [try] block of [filter_clean]. *)
Definition filter_clean_body (input_data : FilterInput) : result Out.CleanOutput :=
  match pages (vector_data input_data) with
  | [] => Raise (HTTPException 400)
  | vector_page :: _ =>
      let drawing_type := drawing_type (vision_output input_data) in
      let regions := regions (vision_output input_data) in
      if String.eqb drawing_type "installatietekening" then
        Ok {| Out.drawing_type := drawing_type; Out.regions := [] |}
      else
        let filtered_lines := step1 drawing_type (lines vector_page) in
        unique_filtered_lines <- step2 filtered_lines ;;
        region_outputs <-
          regions_loop drawing_type unique_filtered_lines (texts vector_page)
            regions [] ;;
        Ok {| Out.drawing_type := drawing_type; Out.regions := region_outputs |}
  end.

(** [except Exception as e: raise HTTPException(status_code=500, ...)];
    the handler also catches the [HTTPException] raised for no pages. *)
Definition filter_clean (input_data : FilterInput) : result Out.CleanOutput :=
  try_except (filter_clean_body input_data)
    (fun _ => Raise (HTTPException 500)).

End Pipeline.

(** ** A concrete instance of the library functions

    Used to run the pipeline on examples.  The theorems below hold for every
    instance of [Externals]. *)

(** One axis of a parametric clip: the values of [t] in [[t0, t1]] with
    [lo <= p + t * d <= hi]. *)
Definition clip_axis (p d lo hi : Q) (t : Q * Q) : option (Q * Q) :=
  let '(t0, t1) := t in
  if Qeq_bool d 0 then
    if ((lo <=? p)%Q && (p <=? hi)%Q)%bool then Some t else None
  else
    let a := ((lo - p) / d)%Q in
    let b := ((hi - p) / d)%Q in
    let ta := if (0 <? d)%Q then a else b in
    let tb := if (0 <? d)%Q then b else a in
    let t0' := py_max t0 ta in
    let t1' := py_min t1 tb in
    if (t0' <=? t1')%Q then Some (t0', t1') else None.

(** Does the closed segment from [p] to [q] meet the closed box? *)
Definition segment_meets_box (p q : Q * Q) (b : Q * Q * Q * Q) : bool :=
  let '(px, py) := p in
  let '(qx, qy) := q in
  let '(minx, miny, maxx, maxy) := b in
  match clip_axis px (qx - px) minx maxx (0, 1)%Q with
  | None => false
  | Some t =>
      match clip_axis py (qy - py) miny maxy t with
      | None => false
      | Some _ => true
      end
  end.

(** A rational approximation of the angle, in degrees, of a vector in the
    open first quadrant (the only place [calculate_orientation] asks). *)
Definition approx_atan_degrees (r : Q) : Q :=
  ((5729578 # 100000) * r / (1 + (28 # 100) * r * r))%Q.

Definition approx_atan2_degrees (dy dx : Q) : Q :=
  if (dx <? dy)%Q then (90 - approx_atan_degrees (dx / dy))%Q
  else approx_atan_degrees (dy / dx).

#[local] Instance reference_externals : Externals := {|
  atan2_degrees := approx_atan2_degrees;
  shapely_intersects := fun p q b => Ok (segment_meets_box p q b)
|}.

(** ** Vocabulary of the statements *)

(** *** Results and shapes *)

(** The value of a computation that did not raise. *)
Definition value_or {A : Type} (d : A) (m : result A) : A :=
  match m with
  | Ok a => a
  | Raise _ => d
  end.

(** Shapes the data model promises: two coordinates per endpoint, four per
    box. *)
Definition well_shaped_line (l : VectorLine) : Prop :=
  List.length (p1 l) = 2%nat /\ List.length (p2 l) = 2%nat.

Definition well_shaped_text (t : VectorText) : Prop :=
  List.length (bounding_box t) = 4%nat.

Definition well_shaped_region (r : VisionRegion) : Prop :=
  List.length (coordinate_block r) = 4%nat.

Definition well_shaped_page (p : VectorPage) : Prop :=
  Forall well_shaped_line (lines p) /\ Forall well_shaped_text (texts p).

(** [u] is a subsequence of [l]: same order, some elements dropped. *)
Inductive subsequence {A : Type} : list A -> list A -> Prop :=
| subseq_nil : subsequence [] []
| subseq_skip (a : A) (u l : list A) : subsequence u l -> subsequence u (a :: l)
| subseq_keep (a : A) (u l : list A) : subsequence u l -> subsequence (a :: u) (a :: l).

(** *** Labels *)

(** [sub] occurs in [s]. *)
Definition Occurs (sub s : string) : Prop :=
  exists pre post, s = (pre ++ sub ++ post)%string.












(** *** Numerals, units and markers *)

(** Numerals: what [\d+(?:[,.]\d+)?] matches. *)
Fixpoint all_digits (s : string) : bool :=
  match s with
  | EmptyString => true
  | String c s' => (is_digit c && all_digits s')%bool
  end.

Definition digits1 (s : string) : Prop := s <> EmptyString /\ all_digits s = true.

Inductive numeral : string -> Prop :=
| numeral_int (ds : string) : digits1 ds -> numeral ds
| numeral_frac (ds fs : string) (c : ascii) :
    digits1 ds -> is_sep c = true -> digits1 fs ->
    numeral (ds ++ String c fs)%string.

(** The millimetre value the parser gives a numeral. *)
Definition numeral_value (n : string) : Q := float_of_str (replace_comma n).

(** [extract_dimension_value] succeeds with a value equal to [v]. *)
Definition parses_to (s : string) (v : Q) : Prop :=
  exists q, extract_dimension_value s = Some q /\ (q == v)%Q.

(** The unit conversion of the specification. *)
Definition to_mm (unit : string) (value : Q) : Q :=
  if String.eqb unit "cm" then (value * 10)%Q
  else if String.eqb unit "m" then (value * 1000)%Q
  else value.

Definition unit_names : list string := [""; "mm"; "cm"; "m"].

(** Marker suffixes: a [p] or [v] in either case, with or without the
    [+] and the blanks the patterns allow. *)
Definition marker_suffixes : list string :=
  [ "p"; "P"; "v"; "V"; " p"; " V"; "+p"; "+P"; "+v"; "+V";
    " +p"; "+ p"; " + p"; " + V" ].

Definition marker_letters : list string := ["p"; "P"; "v"; "V"].

(** The lower bound of the specification: 500 mm for plattegrond, 100 mm
    for every other type. *)
Definition min_dimension (drawing_type : string) : Q :=
  if String.eqb drawing_type "plattegrond" then 500 else 100.

Definition max_dimension : Q := 100000.

(** *** Matches of a pattern *)

(** Every character of [w] is in the class [p]. *)
Fixpoint all_class (p : ascii -> bool) (w : string) : bool :=
  match w with
  | EmptyString => true
  | String c w' => (p c && all_class p w')%bool
  end.

(** The capture groups a pattern can set. *)
Fixpoint groups (r : regex) : list nat :=
  match r with
  | Seq r1 r2 | Alt r1 r2 => groups r1 ++ groups r2
  | Group n r1 => n :: groups r1
  | _ => []
  end.

(** What a successful match of [r] does: it takes [s] to its suffix [s']
    and the groups [caps] to [caps']. *)
Fixpoint sem (r : regex) (s s' : string) (caps caps' : captures) : Prop :=
  match r with
  | Eps => s' = s /\ caps' = caps
  | Chr p => (exists c, s = String c s' /\ p c = true) /\ caps' = caps
  | Lit _ => (exists w, s = (w ++ s')%string) /\ caps' = caps
  | Star p => (exists w, s = (w ++ s')%string /\ all_class p w = true) /\ caps' = caps
  | Seq r1 r2 => exists s1 caps1, sem r1 s s1 caps caps1 /\ sem r2 s1 s' caps1 caps'
  | Alt r1 r2 => sem r1 s s' caps caps' \/ sem r2 s s' caps caps'
  | Group n r1 =>
      exists caps1, sem r1 s s' caps caps1 /\ caps' = set_group n (consumed s s') caps1
  | Eol => s' = s /\ caps' = caps
  end.

(** A continuation that fails on every input starting with a digit or a
    decimal separator: what follows the number in each pattern. *)
Definition rejects_numeric (k : string -> captures -> option captures) : Prop :=
  forall c s caps, (is_digit c || is_sep c)%bool = true -> k (String c s) caps = None.

(** A string that does not go on with a digit or a separator. *)
Definition clean_start (s : string) : bool :=
  match s with
  | EmptyString => true
  | String c _ => negb (is_digit c || is_sep c)
  end.

(** Strings without blanks are not touched by [strip]. *)
Fixpoint no_space (s : string) : bool :=
  match s with
  | EmptyString => true
  | String c s' => (negb (is_space c) && no_space s')%bool
  end.

(** What follows the number in the seven patterns. *)
Definition tail_unit : regex := Seq ws (Seq re_unit Eol).
Definition tail_unit_pv : regex := Seq ws (Seq re_unit_pv Eol).
Definition tail_marker (p : ascii -> bool) : regex :=
  Seq ws (Seq (Chr p) (Seq ws (Seq re_unit Eol))).
Definition tail_plus_marker : regex :=
  Seq ws (Seq (Chr is_plus) (Seq ws (Seq (Chr is_pv) (Seq ws (Seq re_unit Eol))))).
Definition tail_space_plus_marker : regex :=
  Seq (Plus is_space)
    (Seq (Chr is_plus) (Seq ws (Seq (Chr is_pv) (Seq ws (Seq re_unit Eol))))).

Definition finish : string -> captures -> option captures := fun _ caps => Some caps.

Definition after (tail : regex) : string -> captures -> option captures :=
  fun s caps => rmatch tail s caps finish.

(** *** Segments and rectangles *)

(** The point of the segment from [(x1, y1)] to [(x2, y2)] at parameter [t]. *)
Definition segment_point (x1 y1 x2 y2 t : Q) : Q * Q :=
  (x1 + t * (x2 - x1), y1 + t * (y2 - y1))%Q.

(** No point of the segment lies in the rectangle [e]. *)
Definition segment_misses (e : Q * Q * Q * Q) (x1 y1 x2 y2 : Q) : Prop :=
  forall t : Q, (0 <= t)%Q -> (t <= 1)%Q ->
    in_rect e (fst (segment_point x1 y1 x2 y2 t)) (snd (segment_point x1 y1 x2 y2 t))
    = false.

(** Two points agree within the tolerance: each coordinate differs by
    less than one unit. *)
Definition close_points (a b : Q * Q) : Prop :=
  (Qabs (fst a - fst b) < 1)%Q /\ (Qabs (snd a - snd b) < 1)%Q.

(** The two coordinates of a well-shaped endpoint. *)
Definition endpoint (p : list Q) : Q * Q := (nth 0 p 0%Q, nth 1 p 0%Q).

(** Two lines have the same endpoints within the tolerance, in the same
    or in the opposite direction. *)
Definition same_segment (a b : VectorLine) : Prop :=
  (close_points (endpoint (p1 a)) (endpoint (p1 b)) /\
   close_points (endpoint (p2 a)) (endpoint (p2 b)))
  \/
  (close_points (endpoint (p1 a)) (endpoint (p2 b)) /\
   close_points (endpoint (p2 a)) (endpoint (p1 b))).

(** Lines none of which duplicates an earlier one: what the accumulator of
    [dedupe_loop] always is. *)
Inductive fresh : list VectorLine -> Prop :=
| fresh_nil : fresh []
| fresh_snoc (u : list VectorLine) (l : VectorLine) :
    fresh u -> is_duplicate l u = Ok false -> fresh (u ++ [l]).

(** *** Thresholds *)

(** The thresholds table of the specification: effective type to
    (maximal stroke width, minimal length). *)
Definition spec_thresholds (effective_type : string) : Q * Q :=
  if String.eqb effective_type "plattegrond" then (1.5, 50)%Q
  else if String.eqb effective_type "gevelaanzicht" then (1.5, 40)%Q
  else if String.eqb effective_type "doorsnede" then (1.5, 40)%Q
  else if String.eqb effective_type "detailtekening" then (1.0, 20)%Q
  else if String.eqb effective_type "detailtekening_kozijn" then (1.0, 20)%Q
  else if String.eqb effective_type "detailtekening_plattegrond" then (1.0, 20)%Q
  else (1.5, 30)%Q.

(** A line passes the table row of a type: stroke width at most S and
    length at least L, or dashed. *)
Definition spec_passes (effective_type : string) (l : VectorLine) : bool :=
  let '(s, len) := spec_thresholds effective_type in
  (((stroke_width l <=? s)%Q && (len <=? length l)%Q) || is_dashed l)%bool.

(** *** The region test and the projection, as the statements use them *)

Section PipelineVocabulary.

Context {ext : Externals}.

(** The region test of a line, as a truth value. *)
Definition segment_in_region (l : VectorLine) (r : VisionRegion) : bool :=
  value_or false (line_intersects_region (p1 l) (p2 l) (coordinate_block r)).

(** The output lines are the projections of the given lines, in order. *)
Definition projects (ls : list VectorLine) (fls : list Out.FilteredLine) : Prop :=
  Forall2 (fun l fl => filtered_line l = Ok fl) ls fls.

(** The test of STEP 3 on a line that lies in the region. *)
Definition step3_rule (drawing_type : string) (r : VisionRegion) (l : VectorLine) : bool :=
  if String.eqb drawing_type "bestektekening"
  then should_include_line l drawing_type (label r)
  else true.

End PipelineVocabulary.

(** *** Example inputs *)

(** One line from (0,0) to (100,0), stroke 1.0, length 100, not dashed. *)
Definition scenario_line : VectorLine :=
  {| p1 := [0; 0]; p2 := [100; 0]; stroke_width := 1.0; length := 100;
     color := [0; 0; 0]%Z; is_dashed := false; angle := None |}.

(** A plattegrond page with that line and one region (0,0)-(200,50). *)
Definition scenario_input (region_label : string) : FilterInput :=
  {| vector_data :=
       {| page_number := 1;
          pages := [ {| page_size := [("width", 595); ("height", 842)];
                        lines := [scenario_line];
                        texts := [] |} ] |};
     vision_output :=
       {| drawing_type := "plattegrond";
          regions := [ {| label := region_label; coordinate_block := [0; 0; 200; 50] |} ] |}
  |}.


(** Three lines in a chain: [chain_b] duplicates [chain_a], [chain_c]
    duplicates [chain_b] but not [chain_a]. *)
Definition chain_line (x : Q) : VectorLine :=
  {| p1 := [x; 0]; p2 := [10; 0]; stroke_width := 1; length := 10 - x;
     color := [0; 0; 0]%Z; is_dashed := false; angle := None |}.

Definition chain_a : VectorLine := chain_line 0.
Definition chain_b : VectorLine := chain_line 0.6.
Definition chain_c : VectorLine := chain_line 1.2.

(** A bestektekening page: the scenario line, a short thin line, a thick
    line, and a near-copy of the first; two labelled regions. *)
Definition bestek_page : VectorPage :=
  {| page_size := [("width", 595); ("height", 842)];
     lines :=
       [ scenario_line;
         {| p1 := [10; 10]; p2 := [10; 35]; stroke_width := 1.0; length := 25;
            color := [0; 0; 0]%Z; is_dashed := false; angle := Some 90 |};
         {| p1 := [0; 20]; p2 := [150; 20]; stroke_width := 2.0; length := 150;
            color := [0; 0; 0]%Z; is_dashed := false; angle := None |};
         {| p1 := [100; 0.5]; p2 := [0.5; 0]; stroke_width := 0.5; length := 99.5;
            color := [0; 0; 0]%Z; is_dashed := false; angle := None |} ];
     texts :=
       [ {| text := "+7555P"; position := [0; 0]; font_size := Some 12;
            bounding_box := [0; 0; 50; 20] |} ] |}.

Definition bestek_input : FilterInput :=
  {| vector_data := {| page_number := 1; pages := [bestek_page] |};
     vision_output :=
       {| drawing_type := "bestektekening";
          regions :=
            [ {| label := "Begane grond (plattegrond)";
                 coordinate_block := [0; 0; 200; 50] |};
              {| label := "Detail kozijn A";
                 coordinate_block := [0; 0; 20; 40] |} ] |} |}.

(** The scenario with a region whose coordinate block has three numbers. *)
Definition short_block_input : FilterInput :=
  {| vector_data := vector_data (scenario_input "A");
     vision_output :=
       {| drawing_type := "plattegrond";
          regions := [ {| label := "A"; coordinate_block := [0; 0; 200] |} ] |} |}.

(** The bestek example sent as an installatietekening, and the same
    request without any page. *)
Definition installatie_input : FilterInput :=
  {| vector_data := vector_data bestek_input;
     vision_output :=
       {| drawing_type := "installatietekening";
          regions := regions (vision_output bestek_input) |} |}.

Definition installatie_no_page_input : FilterInput :=
  {| vector_data := {| page_number := 1; pages := [] |};
     vision_output := vision_output installatie_input |}.

(** The scenario without any page. *)
Definition no_page_input : FilterInput :=
  {| vector_data := {| page_number := 1; pages := [] |};
     vision_output := vision_output (scenario_input "A") |}.

(** A page whose only text has a box of three numbers, with the region of
    the scenario. *)
Definition short_box_input : FilterInput :=
  {| vector_data :=
       {| page_number := 1;
          pages :=
            [ {| page_size := []; lines := [];
                 texts := [ {| text := "2400"; position := [10; 10];
                               font_size := None; bounding_box := [0; 0; 100] |} ] |} ] |};
     vision_output := vision_output (scenario_input "A") |}.

(** ** Vocabulary of the further properties *)

(** The same line, drawn from its other end. *)
Definition reverse_line (l : VectorLine) : VectorLine :=
  {| p1 := p2 l; p2 := p1 l; stroke_width := stroke_width l; length := length l;
     color := color l; is_dashed := is_dashed l; angle := angle l |}.

(** Two projections agree: same length and orientation, equal midpoints. *)
Definition same_projection (a b : Out.FilteredLine) : Prop :=
  Out.length a = Out.length b /\ Out.orientation a = Out.orientation b /\
  (Out.x (Out.midpoint a) == Out.x (Out.midpoint b))%Q /\
  (Out.y (Out.midpoint a) == Out.y (Out.midpoint b))%Q.

(** The groups of one match are the lower-cased groups of another. *)
Definition lowered (c1 c2 : captures) : Prop :=
  forall g, c1 g = option_map lower (c2 g).

(** Two runs of the matcher end alike, with [lowered] groups. *)
Definition alike (o1 o2 : option captures) : Prop :=
  match o1, o2 with
  | Some m1, Some m2 => lowered m1 m2
  | None, None => True
  | _, _ => False
  end.

(** Every character class of a pattern ignores case. *)
Fixpoint ignores_case (r : regex) : Prop :=
  match r with
  | Chr p | Star p => forall c, p (lower_ascii c) = p c
  | Seq r1 r2 | Alt r1 r2 => ignores_case r1 /\ ignores_case r2
  | Group _ r1 => ignores_case r1
  | _ => True
  end.

(** The seven types the classifier can return. *)
Definition region_types : list string := valid_types ++ ["unknown"].

(** The type whose rules a region follows: the page's type, or for a
    bestektekening page the sub-type read from the region's label. *)
Definition effective_type (drawing_type region_label : string) : string :=
  if String.eqb drawing_type "bestektekening"
  then parse_bestektekening_region_type region_label
  else drawing_type.

(** The same request with other regions. *)
Definition with_regions (input_data : FilterInput) (rs : list VisionRegion) : FilterInput :=
  {| vector_data := vector_data input_data;
     vision_output :=
       {| drawing_type := drawing_type (vision_output input_data); regions := rs |} |}.

(** The entry of a region in which nothing was found. *)
Definition empty_entry (drawing_type : string) (r : VisionRegion) : Out.RegionData :=
  {| Out.label := label r; Out.lines := []; Out.texts := [];
     Out.parsed_drawing_type :=
       if String.eqb drawing_type "bestektekening"
       then Some (parse_bestektekening_region_type (label r))
       else None |}.

(** The overlap test of a text, as a truth value. *)
Definition text_in_region (t : VectorText) (r : VisionRegion) : bool :=
  value_or false (text_overlaps_region t (coordinate_block r)).

(** The output texts are the projections of the given texts, in order. *)
Definition text_projects (ts : list VectorText) (fts : list Out.FilteredText) : Prop :=
  Forall2 (fun t ft => filtered_text t = Ok ft) ts fts.

(** The text parses to a value between 100 and 100000. *)
Definition plausible_dimension (t : VectorText) : Prop :=
  exists v, extract_dimension_value (text t) = Some v /\ (100 <= v)%Q /\ (v <= 100000)%Q.

(** What the pipeline returns for [bestek_input]. *)
Definition bestek_output : Out.CleanOutput :=
  Eval vm_compute in
    value_or {| Out.drawing_type := ""; Out.regions := [] |}
      (filter_clean (ext := reference_externals) bestek_input).

(** A page whose only line is too thick and misses coordinates, and a
    region whose block has two numbers. *)
Definition unread_page : VectorPage :=
  {| page_size := [];
     lines := [ {| p1 := [0]; p2 := []; stroke_width := 3; length := 10;
                   color := []; is_dashed := false; angle := None |} ];
     texts := [] |}.

Definition unread_input : FilterInput :=
  {| vector_data := {| page_number := 1; pages := [unread_page] |};
     vision_output :=
       {| drawing_type := "doorsnede";
          regions := [ {| label := "A"; coordinate_block := [1; 2] |} ] |} |}.

(** ** The ingestion endpoint: [convert_vector_drawing_api_format] and
    [filter_from_vector_api]

    The raw request bodies are JSON values.  A dict is an association
    list in which the first binding of a key counts.  Whatever is raised
    inside [convert_vector_drawing_api_format] is caught by its handler and
    raised again as [ValueError], so its [try] block is modelled in
    [option]: [None] stands for any exception. *)

#[warnings="-register-all"] Inductive json : Type :=
| JNull
| JBool (b : bool)
| JInt (z : Z)
| JFloat (q : Q)
| JStr (s : string)
| JList (items : list json)
| JDict (fields : list (string * json)).

(** Library code the converter calls: [float] on a [str], [math.sqrt],
    and the field validators of the pydantic models ([None]: the value is
    refused). *)
Class PyLibrary : Type := {
  float_of_string : string -> option Q;
  math_sqrt : Q -> Q;
  validate_str : json -> option string;
  validate_float : json -> option Q;
  validate_int_list : json -> option (list Z);
  validate_bool : json -> option bool;
  validate_page_size : json -> option (list (string * Q));
  (** The [VisionOutput] model built from the [vision_output] dict. *)
  validate_vision_output : list (string * json) -> option VisionOutput
}.

Definition obind {A B : Type} (m : option A) (k : A -> option B) : option B :=
  match m with
  | Some a => k a
  | None => None
  end.

Notation "x <~ m ;; k" := (obind m (fun x => k))
  (at level 61, m at next level, right associativity).

Fixpoint lookup (k : string) (fields : list (string * json)) : option json :=
  match fields with
  | [] => None
  | (k', v) :: rest => if String.eqb k k' then Some v else lookup k rest
  end.

(** [d.get(k, default)]; only a dict has [get]. *)
Definition dict_get (d : json) (k : string) (default : json) : option json :=
  match d with
  | JDict fields =>
      Some (match lookup k fields with Some v => v | None => default end)
  | _ => None
  end.

(** [bool(v)] *)
Definition truthy (v : json) : bool :=
  match v with
  | JNull => false
  | JBool b => b
  | JInt z => negb (Z.eqb z 0)
  | JFloat q => negb (Qeq_bool q 0)
  | JStr s => negb (is_empty s)
  | JList items => match items with [] => false | _ => true end
  | JDict fields => match fields with [] => false | _ => true end
  end.

(** The characters of a string, as one-character strings. *)
Fixpoint chars (s : string) : list json :=
  match s with
  | EmptyString => []
  | String c s' => JStr (String c EmptyString) :: chars s'
  end.

(** [iter(v)]: a list gives its items, a string its characters, a dict
    its keys. *)
Definition py_iter (v : json) : option (list json) :=
  match v with
  | JList items => Some items
  | JStr s => Some (chars s)
  | JDict fields => Some (map (fun kv => JStr (fst kv)) fields)
  | _ => None
  end.

(** [len(v)], defined on what can be iterated. *)
Definition py_len (v : json) : option nat :=
  items <~ py_iter v ;; Some (List.length items).

(** [v[i]] for [i] 0 or 1: an item of a list or a character of a string;
    a dict has no integer key. *)
Definition py_index (v : json) (i : nat) : option json :=
  match v with
  | JList items => nth_error items i
  | JStr s => nth_error (chars s) i
  | _ => None
  end.

Definition is_dict (v : json) : bool :=
  match v with JDict _ => true | _ => false end.

Definition is_list (v : json) : bool :=
  match v with JList _ => true | _ => false end.

Section Ingestion.

Context {lib : PyLibrary}.

(** [float(v)] *)
Definition py_float (v : json) : option Q :=
  match v with
  | JBool b => Some (if b then 1 else 0)
  | JInt z => Some (inject_Z z)
  | JFloat q => Some q
  | JStr s => float_of_string s
  | _ => None
  end.

(** A field of type [Optional[float]]. *)
Definition validate_optional_float (v : json) : option (option Q) :=
  match v with
  | JNull => Some None
  | _ => q <~ validate_float v ;; Some (Some q)
  end.

(** The two coordinates of [position], [p1] and [p2]:
    [[float(p.get("x", 0)), float(p.get("y", 0))]] for a dict,
    [[float(p[0]), float(p[1])]] otherwise. *)
Definition point_list (p : json) : option (list Q) :=
  if is_dict p then
    x <~ dict_get p "x" (JInt 0) ;;
    fx <~ py_float x ;;
    y <~ dict_get p "y" (JInt 0) ;;
    fy <~ py_float y ;;
    Some [fx; fy]
  else
    a <~ py_index p 0 ;;
    fa <~ py_float a ;;
    b <~ py_index p 1 ;;
    fb <~ py_float b ;;
    Some [fa; fb].

(** [[float(x) for x in items]] *)
Fixpoint floats (items : list json) : option (list Q) :=
  match items with
  | [] => Some []
  | x :: rest => fx <~ py_float x ;; fr <~ floats rest ;; Some (fx :: fr)
  end.

Definition bbox_list (bbox : json) : option (list Q) :=
  if is_dict bbox then
    x0 <~ dict_get bbox "x0" (JInt 0) ;;
    f0 <~ py_float x0 ;;
    y0 <~ dict_get bbox "y0" (JInt 0) ;;
    f1 <~ py_float y0 ;;
    x1 <~ dict_get bbox "x1" (JInt 100) ;;
    f2 <~ py_float x1 ;;
    y1 <~ dict_get bbox "y1" (JInt 20) ;;
    f3 <~ py_float y1 ;;
    Some [f0; f1; f2; f3]
  else
    n <~ py_len bbox ;;
    if (4 <=? n)%nat then
      items <~ py_iter bbox ;;
      floats (firstn 4 items)
    else Some [0; 0; 100; 20]%Q.

(** The body of [for text_data in raw_texts]. *)
Definition convert_text (text_data : json) : option VectorText :=
  position <~ dict_get text_data "position" (JDict [("x", JInt 0); ("y", JInt 0)]) ;;
  bbox <~ dict_get text_data "bbox" (JDict []) ;;
  pos_list <~ point_list position ;;
  bbox_list <~ bbox_list bbox ;;
  raw_text <~ dict_get text_data "text" (JStr "") ;;
  raw_font <~ dict_get text_data "font_size" (JFloat 12) ;;
  text_field <~ validate_str raw_text ;;
  font_field <~ validate_optional_float raw_font ;;
  Some {| text := text_field; position := pos_list;
          font_size := font_field; bounding_box := bbox_list |}.

Fixpoint texts_loop (items : list json) (texts : list VectorText)
  : option (list VectorText) :=
  match items with
  | [] => Some texts
  | text_data :: rest =>
      t <~ convert_text text_data ;;
      texts_loop rest (texts ++ [t])
  end.

(** [isinstance(line_data, dict) and
     (line_data.get("type") == "line" or "p1" in line_data)] *)
Definition is_line_entry (line_data : json) : bool :=
  match line_data with
  | JDict fields =>
      match lookup "type" fields with
      | Some (JStr s) => String.eqb s "line"
      | _ => false
      end
      || match lookup "p1" fields with Some _ => true | None => false end
  | _ => false
  end.

(** The body of the [if] in [for line_data in line_list]. *)
Definition convert_line (line_data : json) : option VectorLine :=
  p1 <~ dict_get line_data "p1" (JDict [("x", JInt 0); ("y", JInt 0)]) ;;
  p2 <~ dict_get line_data "p2" (JDict [("x", JInt 0); ("y", JInt 0)]) ;;
  p1_list <~ point_list p1 ;;
  p2_list <~ point_list p2 ;;
  raw_length <~ dict_get line_data "length" (JInt 0) ;;
  length0 <~ py_float raw_length ;;
  let length1 :=
    if Qeq_bool length0 0 then
      let dx := (nth 0 p2_list 0 - nth 0 p1_list 0)%Q in
      let dy := (nth 1 p2_list 0 - nth 1 p1_list 0)%Q in
      math_sqrt (dx * dx + dy * dy)
    else length0 in
  inner <~ dict_get line_data "stroke_width" (JFloat 1) ;;
  raw_width <~ dict_get line_data "width" inner ;;
  width <~ py_float raw_width ;;
  raw_color <~ dict_get line_data "color" (JList [JInt 0; JInt 0; JInt 0]) ;;
  raw_dashed <~ dict_get line_data "is_dashed" (JBool false) ;;
  raw_angle <~ dict_get line_data "angle" JNull ;;
  color_field <~ validate_int_list raw_color ;;
  dashed_field <~ validate_bool raw_dashed ;;
  angle_field <~ validate_optional_float raw_angle ;;
  Some {| p1 := p1_list; p2 := p2_list; stroke_width := width; length := length1;
          color := color_field; is_dashed := dashed_field; angle := angle_field |}.

Fixpoint lines_loop (items : list json) (lines : list VectorLine)
  : option (list VectorLine) :=
  match items with
  | [] => Some lines
  | line_data :: rest =>
      if is_line_entry line_data then
        l <~ convert_line line_data ;;
        lines_loop rest (lines ++ [l])
      else lines_loop rest lines
  end.

(** [for location_idx, line_list in enumerate(possible_line_locations)],
    with its [break] after the first location that is not empty. *)
Fixpoint locations_loop (locations : list json) (lines : list VectorLine)
  : option (list VectorLine) :=
  match locations with
  | [] => Some lines
  | line_list :: rest =>
      if truthy line_list then
        _ <~ py_len line_list ;;
        items <~ py_iter line_list ;;
        lines_loop items lines
      else locations_loop rest lines
  end.

(** The body of [for page_idx, page_data in enumerate(pages)]. *)
Definition convert_page (page_data : json) : option VectorPage :=
  page_size <~ dict_get page_data "page_size"
                 (JDict [("width", JFloat 595); ("height", JFloat 842)]) ;;
  raw_texts <~ dict_get page_data "texts" (JList []) ;;
  _ <~ py_len raw_texts ;;
  text_items <~ py_iter raw_texts ;;
  texts <~ texts_loop text_items [] ;;
  drawings0 <~ dict_get page_data "drawings" (JDict []) ;;
  loc0 <~ dict_get drawings0 "lines" (JList []) ;;
  loc1 <~ dict_get page_data "lines" (JList []) ;;
  loc2 <~ dict_get page_data "paths" (JList []) ;;
  loc3 <~ dict_get page_data "elements" (JList []) ;;
  drawings <~ dict_get page_data "drawings" (JDict []) ;;
  let possible_line_locations :=
    [loc0; loc1; loc2; loc3] ++ (if is_list drawings then [drawings] else []) in
  lines <~ locations_loop possible_line_locations [] ;;
  size_field <~ validate_page_size page_size ;;
  Some {| page_size := size_field; lines := lines; texts := texts |}.

Fixpoint pages_loop (items : list json) (converted_pages : list VectorPage)
  : option (list VectorPage) :=
  match items with
  | [] => Some converted_pages
  | page_data :: rest =>
      page <~ convert_page page_data ;;
      pages_loop rest (converted_pages ++ [page])
  end.

(** The [try] block of [convert_vector_drawing_api_format]. *)
Definition convert_body (raw_vector_data : list (string * json)) : option VectorData :=
  pages <~ dict_get (JDict raw_vector_data) "pages" (JList []) ;;
  if negb (truthy pages) then None
  else
    _ <~ py_len pages ;;
    items <~ py_iter pages ;;
    converted_pages <~ pages_loop items [] ;;
    Some {| page_number := 1; pages := converted_pages |}.

Definition convert_vector_drawing_api_format (raw_vector_data : list (string * json))
  : result VectorData :=
  match convert_body raw_vector_data with
  | Some v => Ok v
  | None => Raise ValueError
  end.

Context {ext : Externals}.

(** [filter_from_vector_api]: convert, build the models, run
    [filter_clean]; whatever is raised becomes [HTTPException(500)]. *)
Definition filter_from_vector_api (vector_data vision_output : list (string * json))
  : result Out.CleanOutput :=
  try_except
    (converted_vector_data <- convert_vector_drawing_api_format vector_data ;;
     match validate_vision_output vision_output with
     | None => Raise ValueError
     | Some vision_obj =>
         filter_clean {| vector_data := converted_vector_data;
                         vision_output := vision_obj |}
     end)
    (fun _ => Raise (HTTPException 500)).

End Ingestion.


(** ** A concrete instance of the library functions of the converter

    Used to run the converter on examples.  The theorems below hold for
    every instance of [PyLibrary]. *)

Definition sample_float (v : json) : option Q :=
  match v with
  | JInt z => Some (inject_Z z)
  | JFloat q => Some q
  | _ => None
  end.

Definition sample_int (v : json) : option Z :=
  match v with
  | JInt z => Some z
  | _ => None
  end.

Fixpoint traverse {A B : Type} (f : A -> option B) (l : list A) : option (list B) :=
  match l with
  | [] => Some []
  | a :: rest => b <~ f a ;; bs <~ traverse f rest ;; Some (b :: bs)
  end.

Definition sample_list {B : Type} (f : json -> option B) (v : json) : option (list B) :=
  match v with
  | JList items => traverse f items
  | _ => None
  end.

Definition sample_str (v : json) : option string :=
  match v with
  | JStr s => Some s
  | _ => None
  end.

Definition sample_region (v : json) : option VisionRegion :=
  match v with
  | JDict fields =>
      l <~ lookup "label" fields ;;
      label_field <~ sample_str l ;;
      c <~ lookup "coordinate_block" fields ;;
      block_field <~ sample_list sample_float c ;;
      Some {| label := label_field; coordinate_block := block_field |}
  | _ => None
  end.

Definition sample_vision_output (fields : list (string * json)) : option VisionOutput :=
  d <~ lookup "drawing_type" fields ;;
  type_field <~ sample_str d ;;
  r <~ lookup "regions" fields ;;
  regions_field <~ sample_list sample_region r ;;
  Some {| drawing_type := type_field; regions := regions_field |}.

#[local] Instance sample_library : PyLibrary := {
  float_of_string := fun _ => None;
  (* the integer square root, enough for the examples *)
  math_sqrt := fun q => inject_Z (Z.sqrt (Qfloor q));
  validate_str := sample_str;
  validate_float := sample_float;
  validate_int_list := sample_list sample_int;
  validate_bool := fun v => match v with JBool b => Some b | _ => None end;
  validate_page_size := fun v =>
    match v with
    | JDict fields =>
        traverse (fun kv => q <~ sample_float (snd kv) ;; Some (fst kv, q)) fields
    | _ => None
    end;
  validate_vision_output := sample_vision_output
}.

(** *** Example requests *)

Definition sample_text_entry : list (string * json) :=
  [("text", JStr "2400"); ("position", JList [JInt 10; JInt 10]);
   ("bbox", JList [JStr "?"; JInt 2])].

Definition sample_line_entry : list (string * json) :=
  [("type", JStr "line"); ("p1", JDict [("x", JInt 0); ("y", JInt 0)]);
   ("p2", JList [JInt 30; JInt 40])].

Definition sample_page : list (string * json) :=
  [("drawings", JDict [("lines", JList [JDict sample_line_entry; JStr "note"])]);
   ("lines", JList [JInt 7]);
   ("texts", JList [JDict sample_text_entry])].

Definition sample_vector_data : list (string * json) :=
  [("pages", JList [JDict sample_page])].

Definition sample_vision : list (string * json) :=
  [("drawing_type", JStr "plattegrond");
   ("regions",
    JList [JDict [("label", JStr "A");
                  ("coordinate_block", JList [JInt 0; JInt 0; JInt 100; JInt 100])]])].

(** A page whose [drawings] value is a list of line entries. *)
Definition listed_page : list (string * json) :=
  [("drawings", JList [JDict sample_line_entry])].

Definition listed_vector_data : list (string * json) :=
  [("pages", JList [JDict listed_page])].

(** What the sample library makes of the example request. *)
Definition sample_converted_page : VectorPage :=
  Eval vm_compute in
    match convert_page (lib := sample_library) (JDict sample_page) with
    | Some page => page
    | None => {| page_size := []; lines := []; texts := [] |}
    end.

Definition sample_converted : VectorData :=
  {| page_number := 1; pages := [sample_converted_page] |}.

Definition sample_vision_obj : VisionOutput :=
  {| drawing_type := "plattegrond";
     regions := [{| label := "A"; coordinate_block := [0; 0; 100; 100]%Q |}] |}.

(** * Properties *)

(** ** Strings *)

Lemma append_nil_r (s : string) : (s ++ "")%string = s.
Proof. induction s; simpl; congruence. Qed.

Lemma append_assoc (a b c : string) : ((a ++ b) ++ c)%string = (a ++ (b ++ c))%string.
Proof. induction a; simpl; congruence. Qed.

Lemma length_append (a b : string) :
  String.length (a ++ b) = (String.length a + String.length b)%nat.
Proof. induction a; simpl; congruence. Qed.

Lemma prefix_spec (a s : string) :
  prefix a s = true <-> exists post, s = (a ++ post)%string.
Proof.
  revert s; induction a as [|c a IH]; intros s.
  - split; [intros _; now exists s | intros _; now destruct s].
  - destruct s as [|d s]; simpl.
    + split; [discriminate | intros [post H]; discriminate].
    + destruct (ascii_dec c d) as [->|ne].
      * rewrite IH. split; intros [post H]; exists post; congruence.
      * split; [discriminate | intros [post H]; congruence].
Qed.


Lemma contains_nil (sub : string) : contains sub "" = prefix sub "".
Proof. unfold contains. apply orb_false_r. Qed.

Lemma contains_cons (sub : string) (c : ascii) (s : string) :
  contains sub (String c s) = (prefix sub (String c s) || contains sub s)%bool.
Proof. reflexivity. Qed.

Lemma contains_spec (sub s : string) : contains sub s = true <-> Occurs sub s.
Proof.
  unfold Occurs. induction s as [|c s IH]; [rewrite contains_nil | rewrite contains_cons].
  - rewrite prefix_spec. split.
    + intros [post H]. now exists "", post.
    + intros [pre [post H]]. destruct pre; simpl in H.
      * now exists post.
      * discriminate.
  - rewrite orb_true_iff, prefix_spec, IH. split.
    + intros [[post H] | [pre [post H]]].
      * now exists "", post.
      * exists (String c pre), post. simpl. congruence.
    + intros [pre [post H]]. destruct pre as [|d pre]; simpl in H.
      * left. now exists post.
      * right. exists pre, post. congruence.
Qed.

Lemma contains_false (sub s : string) : contains sub s = false <-> ~ Occurs sub s.
Proof. rewrite <- contains_spec. destruct (contains sub s); intuition congruence. Qed.




Lemma substring_append_mid (a b c : string) :
  substring (String.length a) (String.length b) (a ++ b ++ c) = b.
Proof.
  induction a as [|x a IH]; simpl.
  - induction b as [|y b IHb]; simpl.
    + now destruct c.
    + now rewrite IHb.
  - exact IH.
Qed.





Lemma str_in_spec (x : string) (l : list string) : str_in x l = true <-> In x l.
Proof.
  unfold str_in. rewrite existsb_exists. split.
  - intros [y [I E]]. apply String.eqb_eq in E. congruence.
  - intros I. exists x. split; [assumption | apply String.eqb_refl].
Qed.

(** ** The region-label classifier *)




(** ** The matcher on numerals *)

Lemma rmatch_seq r1 r2 s caps k :
  rmatch (Seq r1 r2) s caps k = rmatch r1 s caps (fun s' caps' => rmatch r2 s' caps' k).
Proof. reflexivity. Qed.

Lemma digit_not_sep (c : ascii) : is_digit c = true -> is_sep c = false.
Proof.
  destruct c as [[] [] [] [] [] [] [] []]; vm_compute; congruence.
Qed.

Lemma digit_not_plus (c : ascii) : is_digit c = true -> is_plus c = false.
Proof.
  destruct c as [[] [] [] [] [] [] [] []]; vm_compute; congruence.
Qed.

Lemma digit_not_space (c : ascii) : is_digit c = true -> is_space c = false.
Proof.
  destruct c as [[] [] [] [] [] [] [] []]; vm_compute; congruence.
Qed.

Lemma sep_not_space (c : ascii) : is_sep c = true -> is_space c = false.
Proof.
  destruct c as [[] [] [] [] [] [] [] []]; vm_compute; congruence.
Qed.

Lemma match_star_digits (ds rest : string) (k : string -> option captures) :
  all_digits ds = true ->
  match rest with EmptyString => True | String c _ => is_digit c = false end ->
  (forall c s, is_digit c = true -> k (String c s) = None) ->
  match_star is_digit k (ds ++ rest) = k rest.
Proof.
  intros D R K. induction ds as [|d ds IH]; simpl.
  - destruct rest as [|c rest]; simpl; [reflexivity | now rewrite R].
  - simpl in D. apply andb_true_iff in D as [D1 D2].
    rewrite D1, (IH D2). destruct (k rest); [reflexivity | now apply K].
Qed.

Lemma consumed_append (a b : string) : consumed (a ++ b) b = a.
Proof.
  unfold consumed. rewrite length_append.
  replace (String.length a + String.length b - String.length b)%nat
    with (String.length a) by lia.
  pose proof (substring_append_mid "" a b) as H. exact H.
Qed.

(** [\d+] followed by a continuation that rejects digits. *)
Lemma rmatch_plus_digits (ds rest : string) caps k :
  digits1 ds ->
  match rest with EmptyString => True | String c _ => is_digit c = false end ->
  (forall c s caps', is_digit c = true -> k (String c s) caps' = None) ->
  rmatch (Plus is_digit) (ds ++ rest) caps k = k rest caps.
Proof.
  intros [NE D] R K. destruct ds as [|d ds]; [congruence|].
  simpl in D. apply andb_true_iff in D as [D1 D2].
  unfold Plus. rewrite rmatch_seq. cbn [rmatch append]. rewrite D1.
  apply (match_star_digits ds rest (fun s' => k s' caps)); auto.
Qed.

(** The number group takes the whole numeral. *)
Lemma rmatch_number (n rest : string) caps k :
  numeral n -> clean_start rest = true -> rejects_numeric k ->
  rmatch re_number (n ++ rest) caps k = k rest (set_group 1 n caps).
Proof.
  intros N R K. unfold re_number. cbn [rmatch].
  set (K' := fun s' caps' => k s' (set_group 1 (consumed (n ++ rest) s') caps')).
  assert (KD : forall c s caps', is_digit c = true -> K' (String c s) caps' = None).
  { intros c s caps' H. unfold K'. apply K. now rewrite H. }
  assert (KS : forall c s caps', is_sep c = true -> K' (String c s) caps' = None).
  { intros c s caps' H. unfold K'. apply K. rewrite H. apply orb_true_r. }
  assert (KR : K' rest caps = k rest (set_group 1 n caps)).
  { unfold K'. now rewrite consumed_append. }
  assert (RD : match rest with EmptyString => True | String c _ => is_digit c = false end).
  { destruct rest as [|c rest]; [exact I|]. simpl in R.
    apply negb_true_iff, orb_false_iff in R. tauto. }
  destruct N as [ds D | ds fs c D S F].
  - rewrite (rmatch_plus_digits ds rest caps); auto.
    + unfold Opt. cbn [rmatch]. rewrite <- KR.
      destruct rest as [|c rest]; [reflexivity|].
      simpl in R. apply negb_true_iff, orb_false_iff in R. destruct R as [_ R].
      now rewrite R.
    + intros c s caps' H. unfold Opt. cbn [rmatch].
      rewrite (digit_not_sep c H). now apply KD.
  - rewrite append_assoc. cbn [append].
    rewrite (rmatch_plus_digits ds (String c (fs ++ rest)) caps); auto.
    + unfold Opt. cbn [rmatch]. rewrite S.
      rewrite (rmatch_plus_digits fs rest caps K' F RD KD), KR.
      destruct (k rest (set_group 1 _ caps)) eqn:E; [reflexivity|].
      now apply KS.
    + destruct (is_digit c) eqn:E; [|reflexivity].
      apply digit_not_sep in E. congruence.
    + intros c' s caps' H. unfold Opt. cbn [rmatch].
      rewrite (digit_not_sep c' H). now apply KD.
Qed.

Lemma numeral_head (n : string) :
  numeral n -> exists d n', n = String d n' /\ is_digit d = true.
Proof.
  intros [ds [NE D] | ds fs c [NE D] _ _]; (destruct ds as [|d ds]; [congruence|]);
    simpl in D; apply andb_true_iff in D as [D _]; simpl; eauto.
Qed.

Lemma no_space_append (a b : string) :
  no_space (a ++ b) = (no_space a && no_space b)%bool.
Proof. induction a as [|c a IH]; simpl; [reflexivity | now rewrite IH, andb_assoc]. Qed.

Lemma digits_no_space (ds : string) : all_digits ds = true -> no_space ds = true.
Proof.
  induction ds as [|d ds IH]; simpl; [reflexivity|].
  intros H. apply andb_true_iff in H as [H1 H2].
  now rewrite (digit_not_space d H1), IH.
Qed.

Lemma numeral_no_space (n : string) : numeral n -> no_space n = true.
Proof.
  intros [ds [_ D] | ds fs c [_ D] S [_ F]].
  - now apply digits_no_space.
  - rewrite no_space_append. simpl.
    now rewrite (digits_no_space ds D), (digits_no_space fs F), (sep_not_space c S).
Qed.

Lemma rstrip_append (a b : string) :
  no_space a = true -> rstrip b = b -> rstrip (a ++ b) = (a ++ b)%string.
Proof.
  intros A B. induction a as [|c a IH]; simpl; [exact B|].
  simpl in A. apply andb_true_iff in A as [A1 A2]. apply negb_true_iff in A1.
  rewrite (IH A2), A1. now destruct (a ++ b)%string.
Qed.

Lemma strip_fixed (s : string) :
  match s with EmptyString => True | String c _ => is_space c = false end ->
  rstrip s = s -> strip s = s.
Proof.
  intros H R. unfold strip. destruct s as [|c s]; [reflexivity|].
  simpl lstrip. now rewrite H.
Qed.

Lemma strip_numeral (n suffix : string) :
  numeral n -> rstrip suffix = suffix -> strip (n ++ suffix) = (n ++ suffix)%string.
Proof.
  intros N R. apply strip_fixed.
  - destruct (numeral_head n N) as (d & n' & -> & D). simpl.
    now apply digit_not_space.
  - apply rstrip_append; [now apply numeral_no_space | exact R].
Qed.

Lemma strip_plus_numeral (n suffix : string) :
  numeral n -> rstrip suffix = suffix ->
  strip (String "+" (n ++ suffix)) = String "+" (n ++ suffix).
Proof.
  intros N R. apply strip_fixed; [reflexivity|].
  change (String "+" (n ++ suffix)) with (("+" ++ n) ++ suffix)%string.
  apply rstrip_append; [|exact R].
  simpl. now apply numeral_no_space.
Qed.

Ltac solve_rejects :=
  let c := fresh "c" in
  let s := fresh "s" in
  let caps := fresh "caps" in
  let H := fresh "H" in
  intros c s caps H;
  destruct c as [[] [] [] [] [] [] [] []];
  vm_compute in H; try discriminate H;
  destruct s; reflexivity.

Lemma rejects_tail_unit : rejects_numeric (after tail_unit).
Proof. solve_rejects. Qed.

Lemma rejects_tail_unit_pv : rejects_numeric (after tail_unit_pv).
Proof. solve_rejects. Qed.

Lemma rejects_tail_p : rejects_numeric (after (tail_marker is_p)).
Proof. solve_rejects. Qed.

Lemma rejects_tail_v : rejects_numeric (after (tail_marker is_v)).
Proof. solve_rejects. Qed.

Lemma rejects_tail_pv : rejects_numeric (after (tail_marker is_pv)).
Proof. solve_rejects. Qed.

Lemma rejects_tail_plus_marker : rejects_numeric (after tail_plus_marker).
Proof. solve_rejects. Qed.

Lemma rejects_tail_space_plus_marker : rejects_numeric (after tail_space_plus_marker).
Proof. solve_rejects. Qed.

Create HintDb tails.
#[local] Hint Resolve rejects_tail_unit rejects_tail_unit_pv rejects_tail_p
  rejects_tail_v rejects_tail_pv rejects_tail_plus_marker
  rejects_tail_space_plus_marker : tails.

(** A pattern that starts with the number, on a numeral and what follows. *)
Lemma re_match_number (tail : regex) (n suffix : string) :
  numeral n -> clean_start suffix = true -> rejects_numeric (after tail) ->
  re_match (Seq re_number tail) (n ++ suffix)
  = after tail suffix (set_group 1 n no_captures).
Proof.
  intros N C R. unfold re_match. rewrite rmatch_seq.
  apply (rmatch_number n suffix no_captures (after tail) N C R).
Qed.

(** A pattern that starts with [\+] and the number. *)
Lemma re_match_plus_number (tail : regex) (n suffix : string) :
  numeral n -> clean_start suffix = true -> rejects_numeric (after tail) ->
  re_match (Seq (Chr is_plus) (Seq re_number tail)) (String "+" (n ++ suffix))
  = after tail suffix (set_group 1 n no_captures).
Proof.
  intros N C R. unfold re_match. rewrite rmatch_seq. cbn [rmatch].
  change (is_plus "+") with true. cbv iota.
  apply (rmatch_number n suffix no_captures (after tail) N C R).
Qed.

(** A pattern that starts with [\+] fails on a numeral; one that starts
    with the number fails on a [+]. *)
Lemma re_match_plus_on_numeral (tail : regex) (n suffix : string) :
  numeral n -> re_match (Seq (Chr is_plus) tail) (n ++ suffix) = None.
Proof.
  intros N. destruct (numeral_head n N) as (d & n' & -> & D).
  unfold re_match. rewrite rmatch_seq. cbn [rmatch append].
  now rewrite (digit_not_plus d D).
Qed.

Lemma re_match_number_on_plus (tail : regex) (s : string) :
  re_match (Seq re_number tail) (String "+" s) = None.
Proof. reflexivity. Qed.

Ltac run_patterns N :=
  unfold extract_dimension_value;
  first [ rewrite (strip_numeral _ _ N) by reflexivity
        | rewrite (strip_plus_numeral _ _ N) by reflexivity ];
  unfold patterns; cbn [try_patterns];
  fold tail_unit tail_unit_pv (tail_marker is_p) (tail_marker is_v)
    (tail_marker is_pv) tail_plus_marker tail_space_plus_marker;
  repeat first
    [ rewrite (re_match_number _ _ _ N) by (reflexivity || auto with tails)
    | rewrite (re_match_plus_number _ _ _ N) by (reflexivity || auto with tails)
    | rewrite (re_match_plus_on_numeral _ _ _ N)
    | rewrite re_match_number_on_plus ];
  reflexivity.

Lemma extract_plain (n : string) (N : numeral n) :
  extract_dimension_value n = Some (numeral_value n).
Proof.
  rewrite <- (append_nil_r n) at 1. run_patterns N.
Qed.

Ltac each_member :=
  repeat match goal with
         | H : In _ (_ :: _) |- _ => destruct H as [H | H]; [subst |]
         | H : In _ [] |- _ => destruct H
         end.

Lemma extract_unit (n u : string) (N : numeral n) :
  In u unit_names ->
  extract_dimension_value (n ++ u) = Some (to_mm u (numeral_value n)).
Proof.
  unfold unit_names. intros U. each_member.
  - rewrite append_nil_r. now apply extract_plain.
  - run_patterns N.
  - run_patterns N.
  - run_patterns N.
Qed.

Lemma extract_plus_unit (n u : string) (N : numeral n) :
  In u unit_names ->
  extract_dimension_value ("+" ++ n ++ u) = Some (to_mm u (numeral_value n)).
Proof.
  unfold unit_names. intros U. each_member; cbn [append]; run_patterns N.
Qed.

Lemma extract_marker_unit (n mk u : string) (N : numeral n) :
  In mk marker_suffixes -> In u unit_names ->
  extract_dimension_value (n ++ mk ++ u) = Some (to_mm u (numeral_value n)).
Proof.
  unfold unit_names, marker_suffixes. intros M U.
  each_member; cbn [append]; run_patterns N.
Qed.

Lemma extract_plus_marker_unit (n mk u : string) (N : numeral n) :
  In mk marker_letters -> In u unit_names ->
  extract_dimension_value ("+" ++ n ++ mk ++ u) = Some (to_mm u (numeral_value n)).
Proof.
  unfold unit_names, marker_letters. intros M U.
  each_member; cbn [append]; run_patterns N.
Qed.

(** *** Every match captures a numeral *)

Lemma match_star_inv (p : ascii -> bool) (k : string -> option captures)
  (s : string) (m : captures) :
  match_star p k s = Some m ->
  exists w s', s = (w ++ s')%string /\ all_class p w = true /\ k s' = Some m.
Proof.
  induction s as [|c s IH]; cbn [match_star]; intros H.
  - now exists "", "".
  - destruct (p c) eqn:P; [|now exists "", (String c s)].
    destruct (match_star p k s) as [m'|] eqn:E.
    + injection H as ->. destruct (IH eq_refl) as (w & s' & -> & A & K).
      exists (String c w), s'. cbn. now rewrite P, A.
    + now exists "", (String c s).
Qed.

Lemma match_lit_inv (l s s' : string) :
  match_lit l s = Some s' -> exists w, s = (w ++ s')%string.
Proof.
  revert s; induction l as [|a l IH]; intros s; cbn [match_lit].
  - intros [= ->]. now exists "".
  - destruct s as [|c s]; [discriminate|].
    destruct (Ascii.eqb _ _); [|discriminate].
    intros H. destruct (IH _ H) as (w & ->). now exists (String c w).
Qed.

(** The matcher only succeeds along a match. *)
Lemma rmatch_sound (r : regex) :
  forall s caps k m,
    rmatch r s caps k = Some m ->
    exists s' caps', sem r s s' caps caps' /\ k s' caps' = Some m.
Proof.
  induction r as [| p | l | p | r1 IH1 r2 IH2 | r1 IH1 r2 IH2 | n r1 IH1 |];
    intros s caps k m H; cbn [rmatch] in H.
  - exists s, caps. cbn. auto.
  - destruct s as [|c s]; [discriminate|]. destruct (p c) eqn:P; [|discriminate].
    exists s, caps. cbn. eauto.
  - destruct (match_lit l s) as [s'|] eqn:E; [|discriminate].
    exists s', caps. cbn. split; [|exact H]. split; [|reflexivity].
    exact (match_lit_inv _ _ _ E).
  - destruct (match_star_inv _ _ _ _ H) as (w & s' & -> & A & K).
    exists s', caps. cbn. eauto.
  - destruct (IH1 _ _ _ _ H) as (s1 & c1 & S1 & H2).
    destruct (IH2 _ _ _ _ H2) as (s' & c' & S2 & K).
    exists s', c'. cbn. eauto.
  - destruct (rmatch r1 s caps k) as [m'|] eqn:E.
    + injection H as ->. destruct (IH1 _ _ _ _ E) as (s' & c' & S & K).
      exists s', c'. cbn. auto.
    + destruct (IH2 _ _ _ _ H) as (s' & c' & S & K).
      exists s', c'. cbn. auto.
  - destruct (IH1 _ _ _ _ H) as (s' & c1 & S & K).
    exists s', (set_group n (consumed s s') c1). cbn. eauto.
  - exists s, caps. cbn. split; [auto|].
    destruct s as [|c [|? ?]]; [exact H | | discriminate].
    now destruct (Ascii.eqb c newline).
Qed.

(** A match leaves the groups it does not name as they were. *)
Lemma sem_groups (r : regex) :
  forall s s' caps caps' g,
    sem r s s' caps caps' -> ~ In g (groups r) -> caps' g = caps g.
Proof.
  induction r as [| p | l | p | r1 IH1 r2 IH2 | r1 IH1 r2 IH2 | n r1 IH1 |];
    intros s s' caps caps' g S NI; cbn [sem groups] in *.
  - now destruct S as [_ ->].
  - now destruct S as [_ ->].
  - now destruct S as [_ ->].
  - now destruct S as [_ ->].
  - destruct S as (s1 & c1 & S1 & S2).
    assert (N1 : ~ In g (groups r1)) by (intros I; apply NI, in_app_iff; now left).
    assert (N2 : ~ In g (groups r2)) by (intros I; apply NI, in_app_iff; now right).
    now rewrite (IH2 _ _ _ _ g S2 N2), (IH1 _ _ _ _ g S1 N1).
  - assert (N1 : ~ In g (groups r1)) by (intros I; apply NI, in_app_iff; now left).
    assert (N2 : ~ In g (groups r2)) by (intros I; apply NI, in_app_iff; now right).
    destruct S as [S | S]; eauto.
  - destruct S as (c1 & S & ->). unfold set_group.
    destruct (Nat.eqb_spec g n) as [->|ne]; [exfalso; apply NI; now left|].
    apply (IH1 _ _ _ _ g S). intros I. apply NI. now right.
  - now destruct S as [_ ->].
Qed.

Lemma all_class_digits (w : string) : all_class is_digit w = all_digits w.
Proof. induction w as [|c w IH]; cbn; [reflexivity | now rewrite IH]. Qed.

Lemma sem_plus_digits (s s' : string) (caps caps' : captures) :
  sem (Plus is_digit) s s' caps caps' ->
  exists ds, digits1 ds /\ s = (ds ++ s')%string /\ caps' = caps.
Proof.
  cbn. intros (s1 & c1 & [(c & -> & D) ->] & [(w & -> & A) ->]).
  exists (String c w). rewrite all_class_digits in A.
  repeat split; [discriminate | cbn; now rewrite D, A].
Qed.

Lemma sem_seq (r1 r2 : regex) (s s' : string) (caps caps' : captures) :
  sem (Seq r1 r2) s s' caps caps' <->
  exists s1 caps1, sem r1 s s1 caps caps1 /\ sem r2 s1 s' caps1 caps'.
Proof. reflexivity. Qed.

(** The number group holds a numeral, the one the input starts with. *)
Lemma sem_number (s s' : string) (caps caps' : captures) :
  sem re_number s s' caps caps' ->
  exists n, numeral n /\ s = (n ++ s')%string /\ caps' = set_group 1 n caps.
Proof.
  unfold re_number. cbn [sem]. intros (c1 & (s1 & c2 & P & O) & ->).
  apply sem_plus_digits in P as (ds & D & -> & ->).
  unfold Opt in O. cbn [sem] in O.
  destruct O as [(s2 & c3 & [(c & -> & Sp) ->] & P) | [-> ->]].
  - apply sem_plus_digits in P as (fs & F & -> & ->).
    exists (ds ++ String c fs)%string.
    split; [now constructor|].
    replace (ds ++ String c (fs ++ s'))%string with ((ds ++ String c fs) ++ s')%string
      by (rewrite append_assoc; reflexivity).
    now rewrite consumed_append.
  - exists ds. split; [now constructor|]. now rewrite consumed_append.
Qed.

(** Whatever pattern matches, group 1 is a numeral. *)
Lemma re_match_captures_numeral (pattern : regex) (s : string) (m : captures) :
  In pattern patterns -> re_match pattern s = Some m ->
  exists n, numeral n /\ m 1%nat = Some n.
Proof.
  unfold patterns, re_match. intros I H.
  destruct (rmatch_sound _ _ _ _ _ H) as (s' & m' & S & [= ->]). clear H.
  each_member;
    repeat match goal with
           | S : sem (Seq re_number _) _ _ _ _ |- _ =>
               apply sem_seq in S; destruct S as (? & ? & S & ?)
           | S : sem (Seq (Chr is_plus) _) _ _ _ _ |- _ =>
               apply sem_seq in S; destruct S as (? & ? & [_ ->] & S)
           | S : sem re_number _ _ _ _ |- _ =>
               apply sem_number in S; destruct S as (? & ? & _ & ->)
           end;
    match goal with
    | N : numeral ?n, T : sem ?tail _ _ (set_group 1 ?n _) _ |- _ =>
        exists n; split; [exact N|];
        rewrite (sem_groups tail _ _ _ _ 1%nat T); [reflexivity|];
        cbn; intuition discriminate
    end.
Qed.

Lemma convert_match_value (m : captures) (n : string) :
  m 1%nat = Some n ->
  convert_match m = numeral_value n \/
  convert_match m = (numeral_value n * 10)%Q \/
  convert_match m = (numeral_value n * 1000)%Q.
Proof.
  intros G. unfold convert_match, group, numeral_value. rewrite G.
  destruct (m 2%nat) as [[|c u]|]; auto.
  destruct (str_in _ _); auto.
  destruct (String.eqb _ "cm"); auto.
  destruct (String.eqb _ "m"); auto.
Qed.

Lemma try_patterns_value (ps : list regex) (s : string) (v : Q) :
  (forall p, In p ps -> In p patterns) ->
  try_patterns ps s = Some v ->
  exists n, numeral n /\
    (v = numeral_value n \/ v = (numeral_value n * 10)%Q \/
     v = (numeral_value n * 1000)%Q).
Proof.
  induction ps as [|p ps IH]; intros Sub H; cbn [try_patterns] in H; [discriminate|].
  destruct (re_match p s) as [m|] eqn:E.
  - injection H as <-.
    destruct (re_match_captures_numeral p s m (Sub p (or_introl eq_refl)) E)
      as (n & N & G).
    exists n. split; [exact N | now apply convert_match_value].
  - apply IH; [|exact H]. intros q I. apply Sub. now right.
Qed.

(** C3.  The dimension parser gives 2400 for "2400mm", 3500 for "3.5m",
    2500 for "250cm", 7555 for "+7555P", 6032 for "6032+p", 3749 for
    "3749 + p" and no value for "abc".  In general, for every numeral
    (digits, optionally a comma or dot and more digits) the value is the
    numeral's value times 10 with the unit cm, times 1000 with the unit m,
    and unchanged with mm or without unit; a leading [+] and a p/v marker
    after the number (with or without [+] and blanks) leave that value
    unchanged.  Conversely, whatever the text, a value the parser gives is
    the value of a numeral, or 10 or 1000 times it. *)
Theorem extract_dimension_value_spec :
  (parses_to "2400mm" 2400 /\ parses_to "3.5m" 3500 /\ parses_to "250cm" 2500 /\
   parses_to "+7555P" 7555 /\ parses_to "6032+p" 6032 /\ parses_to "3749 + p" 3749 /\
   extract_dimension_value "abc" = None)
  /\
  (forall n u : string,
      numeral n -> In u unit_names ->
      extract_dimension_value (n ++ u) = Some (to_mm u (numeral_value n)) /\
      extract_dimension_value ("+" ++ n ++ u) = Some (to_mm u (numeral_value n)) /\
      (forall mk, In mk marker_suffixes ->
         extract_dimension_value (n ++ mk ++ u) = Some (to_mm u (numeral_value n))) /\
      (forall mk, In mk marker_letters ->
         extract_dimension_value ("+" ++ n ++ mk ++ u) = Some (to_mm u (numeral_value n))))
  /\
  (forall (t : string) (v : Q),
      extract_dimension_value t = Some v ->
      exists n, numeral n /\
        (v = numeral_value n \/ v = (numeral_value n * 10)%Q \/
         v = (numeral_value n * 1000)%Q)).
Proof.
  split; [|split].
  - repeat split;
      try (eexists; split; [vm_compute; reflexivity | reflexivity]).
  - intros n u N U. repeat split.
    + now apply extract_unit.
    + now apply extract_plus_unit.
    + intros mk M. now apply extract_marker_unit.
    + intros mk M. now apply extract_plus_marker_unit.
  - intros t v H. apply (try_patterns_value patterns (strip t) v); auto.
Qed.

Lemma extract_dimension_value_spec_witness :
  extract_dimension_value ("12,5" ++ "cm") = Some (to_mm "cm" (numeral_value "12,5"))
  /\ (numeral_value "12,5" == 12.5)%Q.
Proof.
  split; [|reflexivity].
  refine (proj1 (proj1 (proj2 extract_dimension_value_spec) "12,5" "cm" _ _)).
  - apply (numeral_frac "12" "5" ","); repeat split; (discriminate || reflexivity).
  - simpl; tauto.
Defined.

(** ** The dimension validator *)

Lemma rstrip_cons (c : ascii) (s : string) :
  rstrip (String c s) =
  match rstrip s with
  | EmptyString => if is_space c then EmptyString else String c EmptyString
  | r => String c r
  end.
Proof. reflexivity. Qed.

Lemma rstrip_idempotent (s : string) : rstrip (rstrip s) = rstrip s.
Proof.
  induction s as [|c s IH]; [reflexivity|].
  rewrite rstrip_cons. destruct (rstrip s) as [|d r] eqn:E.
  - destruct (is_space c) eqn:Sp; [reflexivity|]. simpl. now rewrite Sp.
  - rewrite rstrip_cons, IH. reflexivity.
Qed.

Lemma lstrip_head (s : string) :
  match lstrip s with EmptyString => True | String c _ => is_space c = false end.
Proof.
  induction s as [|c s IH]; simpl; [exact I|].
  destruct (is_space c) eqn:Sp; [exact IH | exact Sp].
Qed.

Lemma strip_idempotent (s : string) : strip (strip s) = strip s.
Proof.
  unfold strip. pose proof (lstrip_head s) as H.
  destruct (lstrip s) as [|c r]; [reflexivity|].
  assert (E : lstrip (rstrip (String c r)) = rstrip (String c r)).
  { rewrite rstrip_cons. destruct (rstrip r); rewrite ?H; simpl; now rewrite H. }
  rewrite E. apply rstrip_idempotent.
Qed.

Lemma extract_strip (s : string) :
  extract_dimension_value (strip s) = extract_dimension_value s.
Proof. unfold extract_dimension_value. now rewrite strip_idempotent. Qed.

Lemma extract_blank (s : string) :
  strip s = "" -> extract_dimension_value s = None.
Proof. unfold extract_dimension_value. now intros ->. Qed.

(** C4.  When the parser gives a value v for a text, the text is a valid
    dimension for a drawing type exactly when min <= v <= 100000, with
    min = 500 for plattegrond and 100 for every other type; when the parser
    gives no value the text is not valid.  So 499 is invalid and 500 valid
    for plattegrond, 99 invalid and 100 valid for another type, 100001
    invalid and 100000 valid for both. *)
Theorem is_valid_dimension_bounds :
  (forall (t drawing_type : string) (v : Q),
      extract_dimension_value t = Some v ->
      (is_valid_dimension t drawing_type = true <->
       (min_dimension drawing_type <= v)%Q /\ (v <= max_dimension)%Q))
  /\
  (forall t drawing_type : string,
      extract_dimension_value t = None -> is_valid_dimension t drawing_type = false)
  /\
  (is_valid_dimension "499" "plattegrond" = false /\
   is_valid_dimension "500" "plattegrond" = true /\
   is_valid_dimension "99" "doorsnede" = false /\
   is_valid_dimension "100" "doorsnede" = true /\
   is_valid_dimension "100" "unknown" = true /\
   is_valid_dimension "100001" "plattegrond" = false /\
   is_valid_dimension "100001" "gevelaanzicht" = false /\
   is_valid_dimension "100000" "plattegrond" = true /\
   is_valid_dimension "100000" "gevelaanzicht" = true).
Proof.
  split; [|split].
  - intros t dt v E. unfold is_valid_dimension.
    destruct (is_empty t) eqn:E1.
    { destruct t; [|discriminate]. discriminate E. }
    destruct (is_empty (strip t)) eqn:E2.
    { destruct (strip t) eqn:S; [|discriminate].
      rewrite (extract_blank t S) in E. discriminate. }
    cbn [orb]. rewrite extract_strip, E. cbv zeta.
    unfold min_dimension, max_dimension.
    destruct (String.eqb dt "plattegrond").
    + destruct (v <? 500)%Q eqn:A.
      * apply Qltb_lt in A. split; [discriminate|]. intros [B _]. lra.
      * apply Qltb_ge in A. destruct (100000 <? v)%Q eqn:B.
        -- apply Qltb_lt in B. split; [discriminate|]. intros [_ C]. lra.
        -- apply Qltb_ge in B. tauto.
    + destruct (v <? 100)%Q eqn:A.
      * apply Qltb_lt in A. split; [discriminate|]. intros [B _]. lra.
      * apply Qltb_ge in A. destruct (100000 <? v)%Q eqn:B.
        -- apply Qltb_lt in B. split; [discriminate|]. intros [_ C]. lra.
        -- apply Qltb_ge in B. tauto.
  - intros t dt E. unfold is_valid_dimension.
    destruct (is_empty t || is_empty (strip t))%bool; [reflexivity|].
    now rewrite extract_strip, E.
  - repeat split; vm_compute; reflexivity.
Qed.

Lemma is_valid_dimension_bounds_witness :
  extract_dimension_value "+7555P" = Some 7555%Q /\
  (is_valid_dimension "+7555P" "gevelaanzicht" = true <->
   (min_dimension "gevelaanzicht" <= 7555)%Q /\ (7555 <= max_dimension)%Q).
Proof.
  split; [vm_compute; reflexivity|].
  apply (proj1 is_valid_dimension_bounds "+7555P" "gevelaanzicht" 7555%Q).
  vm_compute; reflexivity.
Defined.

(** ** Geometry *)

Lemma getitem_raises (l : list Q) (i : nat) (e : exn) :
  getitem l i = Raise e -> e = IndexError.
Proof. unfold getitem. destruct (nth_error l i); congruence. Qed.

Lemma Qabs_minus_swap (a b : Q) : Qabs (a - b) = Qabs (b - a).
Proof.
  destruct a as [an ad], b as [bn bd].
  unfold Qabs, Qminus, Qplus, Qopp. cbn [Qnum Qden].
  f_equal; [lia | apply Pos.mul_comm].
Qed.

(** C9.  Orientation is undirected: for every pair of coordinate lists and
    every optional explicit angle, swapping the endpoints changes neither
    the orientation nor, when an endpoint lacks a coordinate, the error. *)
Theorem calculate_orientation_symmetric
  (ext : Externals) (p1 p2 : list Q) (angle : option Q) :
  calculate_orientation p1 p2 angle = calculate_orientation p2 p1 angle.
Proof.
  destruct angle as [a|]; [reflexivity|].
  unfold calculate_orientation.
  destruct (getitem p2 0) as [p2_0|e20] eqn:E20;
    destruct (getitem p1 0) as [p1_0|e10] eqn:E10;
    destruct (getitem p2 1) as [p2_1|e21] eqn:E21;
    destruct (getitem p1 1) as [p1_1|e11] eqn:E11;
    cbn [bind];
    repeat match goal with
           | H : getitem _ _ = Raise _ |- _ => apply getitem_raises in H; subst
           end;
    try reflexivity.
  now rewrite (Qabs_minus_swap p2_0 p1_0), (Qabs_minus_swap p2_1 p1_1).
Qed.

Lemma Qleb_compat (a b c d : Q) : (a == c)%Q -> (b == d)%Q -> (a <=? b)%Q = (c <=? d)%Q.
Proof.
  intros E1 E2. destruct (c <=? d)%Q eqn:H.
  - apply Qleb_le. apply Qleb_le in H. now rewrite E1, E2.
  - apply Qleb_gt. apply Qleb_gt in H. now rewrite E1, E2.
Qed.

Lemma in_rect_compat (e : Q * Q * Q * Q) (x y x' y' : Q) :
  (x == x')%Q -> (y == y')%Q -> in_rect e x y = in_rect e x' y'.
Proof.
  intros Ex Ey. destruct e as [[[e0 e1] e2] e3]. unfold in_rect.
  rewrite (Qleb_compat e0 x e0 x'), (Qleb_compat x e2 x' e2),
    (Qleb_compat e1 y e1 y'), (Qleb_compat y e3 y' e3);
    auto; reflexivity.
Qed.

Lemma in_rect_spec (e0 e1 e2 e3 x y : Q) :
  in_rect (e0, e1, e2, e3) x y = true <->
  (e0 <= x)%Q /\ (x <= e2)%Q /\ (e1 <= y)%Q /\ (y <= e3)%Q.
Proof.
  unfold in_rect. rewrite !andb_true_iff, !Qleb_le. tauto.
Qed.

Lemma in_rect_outside (e0 e1 e2 e3 x y : Q) :
  (x < e0)%Q \/ (e2 < x)%Q \/ (y < e1)%Q \/ (e3 < y)%Q ->
  in_rect (e0, e1, e2, e3) x y = false.
Proof.
  intros H. apply not_true_iff_false. rewrite in_rect_spec. lra.
Qed.

Lemma py_max_below (a b c : Q) :
  (a < c)%Q -> (b < c)%Q -> (py_max a b <? c)%Q = true.
Proof. intros A B. unfold py_max. destruct (a <? b)%Q; now apply Qltb_lt. Qed.

Lemma py_min_above (a b c : Q) :
  (c < a)%Q -> (c < b)%Q -> (c <? py_min a b)%Q = true.
Proof. intros A B. unfold py_min. destruct (b <? a)%Q; now apply Qltb_lt. Qed.

(** C7.  The region test uses the rectangle expanded by exactly 25 units
    on each side, with inclusive bounds.  A segment with an endpoint in
    the expanded rectangle is included, in particular a segment whose
    endpoints lie outside the region but inside the expanded rectangle.
    A segment that lies beyond one side of the expanded rectangle (more
    than 25 units from the region along an axis) is excluded.  More
    generally a segment none of whose points lies in the expanded
    rectangle is excluded, provided Shapely does not report an
    intersection where there is none. *)
Theorem line_intersects_region_buffer
  (ext : Externals) (x1 y1 x2 y2 ax ay bx byy : Q) :
  let region := [x1; y1; x2; y2] in
  let e := expand_region x1 y1 x2 y2 in
  (forall x y, in_rect e x y = true <->
     (x1 - 25 <= x)%Q /\ (x <= x2 + 25)%Q /\ (y1 - 25 <= y)%Q /\ (y <= y2 + 25)%Q)
  /\
  (in_rect e ax ay = true \/ in_rect e bx byy = true ->
   line_intersects_region [ax; ay] [bx; byy] region = Ok true)
  /\
  (in_rect (x1, y1, x2, y2) ax ay = false ->
   in_rect (x1, y1, x2, y2) bx byy = false ->
   in_rect e ax ay = true -> in_rect e bx byy = true ->
   line_intersects_region [ax; ay] [bx; byy] region = Ok true)
  /\
  (((ax < x1 - 25)%Q /\ (bx < x1 - 25)%Q) \/
   ((x2 + 25 < ax)%Q /\ (x2 + 25 < bx)%Q) \/
   ((ay < y1 - 25)%Q /\ (byy < y1 - 25)%Q) \/
   ((y2 + 25 < ay)%Q /\ (y2 + 25 < byy)%Q) ->
   line_intersects_region [ax; ay] [bx; byy] region = Ok false)
  /\
  (segment_misses e ax ay bx byy ->
   (shapely_intersects (ax, ay) (bx, byy) e = Ok true ->
    ~ segment_misses e ax ay bx byy) ->
   line_intersects_region [ax; ay] [bx; byy] region = Ok false).
Proof.
  intros region e.
  assert (Hit : in_rect e ax ay = true \/ in_rect e bx byy = true ->
                line_intersects_region [ax; ay] [bx; byy] region = Ok true).
  { intros H. unfold line_intersects_region, region. cbn [unpack4 unpack2 bind].
    unfold expand_region at 1. cbv beta iota zeta. fold e.
    destruct H as [H | H]; rewrite H; [reflexivity|].
    now destruct (in_rect e ax ay). }
  split; [|split; [|split; [|split]]].
  - intros x y. unfold e, expand_region. apply in_rect_spec.
  - exact Hit.
  - intros _ _ A _. apply Hit. now left.
  - intros H. unfold line_intersects_region, region. cbn [unpack4 unpack2 bind].
    unfold expand_region. cbv beta iota zeta.
    rewrite (in_rect_outside _ _ _ _ ax ay) by lra.
    rewrite (in_rect_outside _ _ _ _ bx byy) by lra.
    destruct H as [[A B] | [[A B] | [[A B] | [A B]]]].
    + now rewrite (py_max_below ax bx _ A B).
    + rewrite (py_min_above ax bx _ A B). now rewrite orb_true_r.
    + rewrite (py_max_below ay byy _ A B). now rewrite orb_true_r.
    + rewrite (py_min_above ay byy _ A B). now rewrite orb_true_r.
  - intros Miss Sound.
    assert (A : in_rect e ax ay = false).
    { rewrite <- (Miss 0%Q) by lra. apply in_rect_compat; unfold segment_point; simpl; ring. }
    assert (B : in_rect e bx byy = false).
    { rewrite <- (Miss 1%Q) by lra. apply in_rect_compat; unfold segment_point; simpl; ring. }
    unfold line_intersects_region, region. cbn [unpack4 unpack2 bind].
    unfold expand_region at 1. cbv beta iota zeta. fold e. rewrite A, B.
    match goal with |- (if ?c then _ else _) = _ => destruct c end; [reflexivity|].
    destruct (shapely_intersects _ _ _) as [[|]|err] eqn:S; cbn [try_except];
      try reflexivity.
    exfalso. now apply Sound.
Qed.

Lemma line_intersects_region_buffer_witness :
  line_intersects_region [110; 50] [300; 50] [0; 0; 100; 100] = Ok true /\
  line_intersects_region [126; 50] [300; 200] [0; 0; 100; 100] = Ok false /\
  line_intersects_region [160; 100] [100; 160] [0; 0; 100; 100] = Ok false.
Proof.
  split; [|split].
  - apply (proj1 (proj2
      (line_intersects_region_buffer reference_externals 0 0 100 100 110 50 300 50))).
    left. vm_compute. reflexivity.
  - apply (proj1 (proj2 (proj2 (proj2
      (line_intersects_region_buffer reference_externals 0 0 100 100 126 50 300 200))))).
    right. left. split; reflexivity.
  - apply (proj2 (proj2 (proj2 (proj2
      (line_intersects_region_buffer reference_externals 0 0 100 100 160 100 100 160))))).
    + intros t H0 H1. unfold segment_point, expand_region. cbn [fst snd].
      apply not_true_iff_false. rewrite in_rect_spec. lra.
    + intros S. vm_compute in S. discriminate S.
Defined.

(** ** The end-to-end scenario *)



(** ** The line deduplicator *)

Lemma fresh_prefix (a b : list VectorLine) : fresh (a ++ b) -> fresh a.
Proof.
  induction b as [|x b IH] using rev_ind; intros H.
  - now rewrite app_nil_r in H.
  - rewrite app_assoc in H. inversion H as [E | u l F D E].
    + symmetry in E. apply app_eq_nil in E as [_ E]. discriminate.
    + apply app_inj_tail in E as [-> ->]. auto.
Qed.

Lemma fresh_last (a : list VectorLine) (l : VectorLine) :
  fresh (a ++ [l]) -> is_duplicate l a = Ok false.
Proof.
  intros H. inversion H as [E | u x F D E].
  - symmetry in E. apply app_eq_nil in E as [_ E]. discriminate.
  - apply app_inj_tail in E as [-> ->]. exact D.
Qed.

Lemma dedupe_loop_fresh (ls acc u : list VectorLine) :
  dedupe_loop ls acc = Ok u -> fresh acc ->
  fresh u /\ exists kept, u = acc ++ kept /\ subsequence kept ls.
Proof.
  revert acc; induction ls as [|l ls IH]; intros acc E F; cbn [dedupe_loop] in E.
  - injection E as <-. split; [exact F|]. exists []. rewrite app_nil_r.
    split; [reflexivity | constructor].
  - destruct (is_duplicate l acc) as [[|]|err] eqn:D; cbn [bind] in E; [| |discriminate].
    + destruct (IH acc E F) as (Fu & kept & -> & S).
      split; [exact Fu|]. exists kept. split; [reflexivity | now constructor].
    + destruct (IH (acc ++ [l]) E (fresh_snoc acc l F D)) as (Fu & kept & -> & S).
      split; [exact Fu|]. exists (l :: kept). rewrite <- app_assoc.
      split; [reflexivity | now constructor].
Qed.

Lemma dedupe_loop_on_fresh (ls acc : list VectorLine) :
  fresh (acc ++ ls) -> dedupe_loop ls acc = Ok (acc ++ ls).
Proof.
  revert acc; induction ls as [|l ls IH]; intros acc F; cbn [dedupe_loop].
  - now rewrite app_nil_r.
  - replace (acc ++ l :: ls) with ((acc ++ [l]) ++ ls) in * by (now rewrite <- app_assoc).
    rewrite (fresh_last acc l (fresh_prefix _ _ F)). cbn [bind].
    now apply IH.
Qed.

Lemma dedupe_loop_app (a b acc : list VectorLine) :
  dedupe_loop (a ++ b) acc = bind (dedupe_loop a acc) (dedupe_loop b).
Proof.
  revert acc; induction a as [|l a IH]; intros acc; cbn [dedupe_loop app].
  - reflexivity.
  - destruct (is_duplicate l acc) as [d|err]; cbn [bind]; [apply IH | reflexivity].
Qed.

Lemma point_match_spec (a b : list Q) :
  List.length a = 2%nat -> List.length b = 2%nat ->
  exists m, point_match a b = Ok m /\
            (m = true <-> close_points (endpoint a) (endpoint b)).
Proof.
  intros La Lb.
  destruct a as [|ax [|ay [|? ?]]]; try discriminate La.
  destruct b as [|bx [|bz [|? ?]]]; try discriminate Lb.
  unfold point_match, near, close_points, endpoint, tolerance.
  cbn [getitem nth_error bind nth fst snd].
  assert (T : (1.0 == 1)%Q) by reflexivity.
  destruct (Qabs (ax - bx) <? 1.0)%Q eqn:A.
  - eexists. split; [reflexivity|]. rewrite Qltb_lt. apply Qltb_lt in A.
    rewrite T in *. tauto.
  - exists false. split; [reflexivity|]. apply Qltb_ge in A. rewrite T in A.
    split; [discriminate|]. intros [B _]. exfalso.
    apply (Qlt_not_le _ _ B). exact A.
Qed.

Lemma lines_match_spec (a b : VectorLine) :
  well_shaped_line a -> well_shaped_line b ->
  exists m, lines_match a b = Ok m /\ (m = true <-> same_segment a b).
Proof.
  intros [A1 A2] [B1 B2]. unfold lines_match, same_segment.
  destruct (point_match_spec (p1 a) (p1 b) A1 B1) as (m1 & -> & H1).
  destruct (point_match_spec (p2 a) (p2 b) A2 B2) as (m2 & -> & H2).
  destruct (point_match_spec (p1 a) (p2 b) A1 B2) as (m3 & -> & H3).
  destruct (point_match_spec (p2 a) (p1 b) A2 B1) as (m4 & -> & H4).
  cbn [bind]. eexists. split; [reflexivity|].
  rewrite orb_true_iff, !andb_true_iff. tauto.
Qed.

Lemma is_duplicate_spec (l : VectorLine) (u : list VectorLine) :
  well_shaped_line l -> Forall well_shaped_line u ->
  exists d, is_duplicate l u = Ok d /\ (d = true <-> Exists (same_segment l) u).
Proof.
  intros Wl Wu. induction Wu as [|x u Wx Wu IH]; cbn [is_duplicate].
  - exists false. split; [reflexivity|]. split; [discriminate|]. intros H. inversion H.
  - destruct (lines_match_spec l x Wl Wx) as (m & -> & Hm). cbn [bind].
    destruct m.
    + exists true. split; [reflexivity|]. split; [|reflexivity].
      intros _. apply Exists_cons_hd. now apply Hm.
    + destruct IH as (d & -> & Hd). exists d. split; [reflexivity|].
      rewrite Hd. split; [apply Exists_cons_tl|].
      intros H. inversion H as [? ? S | ? ? S]; subst; [|exact S].
      apply Hm in S. discriminate.
Qed.

Lemma subsequence_Forall {A : Type} (P : A -> Prop) (u l : list A) :
  subsequence u l -> Forall P l -> Forall P u.
Proof.
  induction 1 as [| a u l S IH | a u l S IH]; intros F.
  - constructor.
  - inversion F; subst; auto.
  - inversion F; subst; constructor; auto.
Qed.

Lemma dedupe_loop_total (ls acc : list VectorLine) :
  Forall well_shaped_line ls -> Forall well_shaped_line acc ->
  exists u, dedupe_loop ls acc = Ok u.
Proof.
  intros Wl. revert acc. induction Wl as [|l ls W Wl IH]; intros acc Wa; cbn [dedupe_loop].
  - eauto.
  - destruct (is_duplicate_spec l acc W Wa) as (d & -> & _). cbn [bind].
    apply IH. destruct d; [exact Wa|].
    apply Forall_app. split; [exact Wa | now constructor].
Qed.

(** C6, as amended.  Deduplication is idempotent (also in failing); its
    result is a subsequence of the input, so order is preserved, and no
    kept line duplicates an earlier kept one; the first line is always
    kept; on well-shaped lines it never fails, and a line is dropped
    exactly when its endpoint pairs agree, each coordinate differing by
    less than 1 unit, with those of an earlier line that was kept, in
    the same or in the opposite direction.  In particular a line and its
    twin collapse to the first of the two. *)
Theorem remove_duplicate_lines_spec :
  (forall ls, bind (remove_duplicate_lines ls) remove_duplicate_lines
              = remove_duplicate_lines ls)
  /\
  (forall ls u, remove_duplicate_lines ls = Ok u -> subsequence u ls /\ fresh u)
  /\
  (forall l rest u, remove_duplicate_lines (l :: rest) = Ok u -> exists u', u = l :: u')
  /\
  (forall ls, Forall well_shaped_line ls -> exists u, remove_duplicate_lines ls = Ok u)
  /\
  (forall before l kept,
      Forall well_shaped_line (before ++ [l]) ->
      remove_duplicate_lines before = Ok kept ->
      (Exists (same_segment l) kept ->
       remove_duplicate_lines (before ++ [l]) = Ok kept) /\
      (~ Exists (same_segment l) kept ->
       remove_duplicate_lines (before ++ [l]) = Ok (kept ++ [l])))
  /\
  (forall a b,
      well_shaped_line a -> well_shaped_line b -> same_segment b a ->
      remove_duplicate_lines [a; b] = Ok [a]).
Proof.
  assert (Step : forall before l kept,
      Forall well_shaped_line (before ++ [l]) ->
      remove_duplicate_lines before = Ok kept ->
      (Exists (same_segment l) kept ->
       remove_duplicate_lines (before ++ [l]) = Ok kept) /\
      (~ Exists (same_segment l) kept ->
       remove_duplicate_lines (before ++ [l]) = Ok (kept ++ [l]))).
  { intros before l kept W E. unfold remove_duplicate_lines in *.
    rewrite dedupe_loop_app, E. cbn [bind dedupe_loop].
    apply Forall_app in W as [Wb Wl]. inversion Wl as [|? ? Wl' _]; subst.
    destruct (dedupe_loop_fresh _ _ _ E fresh_nil) as (_ & k & -> & S).
    cbn [app] in *.
    pose proof (subsequence_Forall _ _ _ S Wb) as Wk.
    destruct (is_duplicate_spec l k Wl' Wk) as (d & -> & Hd). cbn [bind].
    destruct d; split; intros H; try reflexivity.
    - exfalso. apply H. now apply Hd.
    - apply Hd in H. discriminate. }
  repeat split.
  - intros ls. destruct (remove_duplicate_lines ls) as [u|err] eqn:E; [|reflexivity].
    cbn [bind]. unfold remove_duplicate_lines in *.
    destruct (dedupe_loop_fresh _ _ _ E fresh_nil) as (F & _).
    now apply (dedupe_loop_on_fresh u []).
  - unfold remove_duplicate_lines in H.
    destruct (dedupe_loop_fresh _ _ _ H fresh_nil) as (_ & k & -> & S). exact S.
  - unfold remove_duplicate_lines in H.
    now destruct (dedupe_loop_fresh _ _ _ H fresh_nil).
  - intros l rest u E. unfold remove_duplicate_lines in E. cbn in E.
    destruct (dedupe_loop_fresh rest [l] u E) as (_ & k & -> & _).
    + apply (fresh_snoc [] l fresh_nil). reflexivity.
    + now exists k.
  - intros ls W. now apply dedupe_loop_total.
  - now apply Step.
  - now apply Step.
  - intros a b Wa Wb S.
    apply (proj1 (Step [a] b [a]
             (Forall_cons a Wa (Forall_cons b Wb (Forall_nil _))) eq_refl)).
    now apply Exists_cons_hd.
Qed.

(** C6, as stated, fails: [chain_c] has the endpoints of the earlier
    [chain_b] within the tolerance, yet it is kept. *)
Lemma dedupe_keeps_match_of_dropped_line :
  same_segment chain_c chain_b /\
  lines_match chain_c chain_b = Ok true /\
  remove_duplicate_lines [chain_a; chain_b; chain_c] = Ok [chain_a; chain_c].
Proof.
  split; [|split]; [|reflexivity|reflexivity].
  left. split; split; vm_compute; reflexivity.
Qed.

Lemma remove_duplicate_lines_spec_witness :
  remove_duplicate_lines [chain_a; chain_line 0.5] = Ok [chain_a] /\
  remove_duplicate_lines ([chain_a; chain_b] ++ [chain_c]) = Ok ([chain_a] ++ [chain_c]).
Proof.
  destruct remove_duplicate_lines_spec as (_ & _ & _ & _ & Step & Twin).
  split.
  - apply Twin.
    + split; reflexivity.
    + split; reflexivity.
    + left. split; split; vm_compute; reflexivity.
  - apply (Step [chain_a; chain_b] chain_c [chain_a]).
    + repeat constructor.
    + reflexivity.
    + intros H. inversion H as [? ? S | ? ? S]; subst; [|inversion S].
      destruct S as [[[S _] _] | [[S _] _]]; vm_compute in S; discriminate S.
Defined.

(** ** The pipeline *)

Section PipelineFacts.

Context {ext : Externals}.

Lemma line_intersects_region_total (l : VectorLine) (r : VisionRegion) :
  well_shaped_line l -> well_shaped_region r ->
  exists b, line_intersects_region (p1 l) (p2 l) (coordinate_block r) = Ok b.
Proof.
  intros [L1 L2] R. unfold well_shaped_region in R.
  destruct (p1 l) as [|ax [|ay [|? ?]]]; try discriminate L1.
  destruct (p2 l) as [|bx [|bz [|? ?]]]; try discriminate L2.
  destruct (coordinate_block r) as [|x1 [|y1 [|x2 [|y2 [|? ?]]]]]; try discriminate R.
  unfold line_intersects_region. cbn [unpack4 unpack2 bind].
  unfold expand_region at 1. cbv beta iota zeta.
  destruct (in_rect _ ax ay); [eauto|].
  destruct (in_rect _ bx bz); [eauto|].
  match goal with |- exists _, (if ?c then _ else _) = _ => destruct c end; [eauto|].
  destruct (shapely_intersects _ _ _); cbn [try_except]; eauto.
Qed.

Lemma filtered_line_total (l : VectorLine) :
  well_shaped_line l -> exists fl, filtered_line l = Ok fl.
Proof.
  intros [L1 L2]. unfold filtered_line, calculate_orientation, calculate_midpoint.
  destruct (p1 l) as [|ax [|ay [|? ?]]]; try discriminate L1.
  destruct (p2 l) as [|bx [|bz [|? ?]]]; try discriminate L2.
  destruct (angle l); cbn [getitem nth_error bind]; [eauto|].
  destruct (Qabs (bx - ax) <? 1)%Q; cbn [bind]; [eauto|].
  destruct (Qabs (bz - ay) <? 1)%Q; cbn [bind]; eauto.
Qed.

Lemma region_lines_loop_spec (drawing_type : string) (r : VisionRegion)
  (unique : list VectorLine) (acc : list Out.FilteredLine) :
  Forall well_shaped_line unique -> well_shaped_region r ->
  exists fls,
    region_lines_loop drawing_type r unique acc = Ok (acc ++ fls) /\
    projects
      (filter (fun l => segment_in_region l r && step3_rule drawing_type r l) unique)
      fls.
Proof.
  intros W R. revert acc.
  induction W as [|l unique Wl W IH]; intros acc; cbn [region_lines_loop filter].
  - exists []. rewrite app_nil_r. split; [reflexivity | constructor].
  - unfold segment_in_region at 1, step3_rule at 1.
    destruct (line_intersects_region_total l r Wl R) as (b & ->).
    cbn [bind value_or]. destruct b; cbn [andb].
    + destruct (String.eqb drawing_type "bestektekening").
      * destruct (should_include_line l drawing_type (label r)).
        -- destruct (filtered_line_total l Wl) as (fl & E). rewrite E. cbn [bind].
           destruct (IH (acc ++ [fl])) as (fls & -> & P).
           exists (fl :: fls). rewrite <- app_assoc.
           split; [reflexivity | now constructor].
        -- apply IH.
      * destruct (filtered_line_total l Wl) as (fl & E). rewrite E. cbn [bind].
        destruct (IH (acc ++ [fl])) as (fls & -> & P).
        exists (fl :: fls). rewrite <- app_assoc.
        split; [reflexivity | now constructor].
    + apply IH.
Qed.

Lemma region_texts_loop_total (drawing_type : string) (r : VisionRegion)
  (page_texts : list VectorText) (acc : list Out.FilteredText) :
  Forall well_shaped_text page_texts -> well_shaped_region r ->
  exists fts, region_texts_loop drawing_type r page_texts acc = Ok fts.
Proof.
  intros W R. revert acc. unfold well_shaped_region in R.
  destruct (coordinate_block r) as [|x1 [|y1 [|x2 [|y2 [|? ?]]]]] eqn:C;
    try discriminate R.
  induction W as [|t page_texts Wt W IH]; intros acc; cbn [region_texts_loop].
  - eauto.
  - unfold text_overlaps_region, filtered_text, calculate_text_midpoint.
    rewrite C. unfold well_shaped_text in Wt.
    destruct (bounding_box t) as [|b0 [|b1 [|b2 [|b3 [|? ?]]]]]; try discriminate Wt.
    cbn [unpack4 bind]. unfold expand_region. cbv beta iota zeta. cbn [bind].
    match goal with
    | |- exists _, (if ?c then _ else _) = _ => destruct c
    end; [|apply IH].
    destruct (should_include_text t drawing_type (label r)); [|apply IH].
    cbn [getitem nth_error bind]. apply IH.
Qed.

Lemma process_region_label (drawing_type : string) (unique : list VectorLine)
  (page_texts : list VectorText) (r : VisionRegion) (o : Out.RegionData) :
  process_region drawing_type unique page_texts r = Ok o -> Out.label o = label r.
Proof.
  unfold process_region.
  destruct (region_lines_loop _ _ _ _); cbn [bind]; [|discriminate].
  destruct (region_texts_loop _ _ _ _); cbn [bind]; [|discriminate].
  now intros [= <-].
Qed.

Lemma process_region_spec (drawing_type : string) (unique : list VectorLine)
  (page_texts : list VectorText) (r : VisionRegion) :
  Forall well_shaped_line unique -> Forall well_shaped_text page_texts ->
  well_shaped_region r ->
  exists o,
    process_region drawing_type unique page_texts r = Ok o /\
    projects
      (filter (fun l => segment_in_region l r && step3_rule drawing_type r l) unique)
      (Out.lines o).
Proof.
  intros Wl Wt R. unfold process_region.
  destruct (region_lines_loop_spec drawing_type r unique [] Wl R) as (fls & -> & P).
  destruct (region_texts_loop_total drawing_type r page_texts [] Wt R) as (fts & ->).
  cbn [bind app]. eexists. split; [reflexivity | exact P].
Qed.

(** What a successful run of the loop over the regions returns: one
    entry per region, in order. *)
Lemma regions_loop_inv (drawing_type : string) (unique : list VectorLine)
  (page_texts : list VectorText) (rs : list VisionRegion)
  (acc res : list Out.RegionData) :
  regions_loop drawing_type unique page_texts rs acc = Ok res ->
  exists outs,
    res = acc ++ outs /\
    Forall2 (fun r o => process_region drawing_type unique page_texts r = Ok o) rs outs.
Proof.
  revert acc. induction rs as [|r rs IH]; intros acc E; cbn [regions_loop] in E.
  - injection E as <-. exists []. rewrite app_nil_r. split; [reflexivity | constructor].
  - destruct (process_region drawing_type unique page_texts r) as [o|err] eqn:P;
      cbn [bind] in E; [|discriminate].
    destruct (IH _ E) as (outs & -> & F).
    exists (o :: outs). rewrite <- app_assoc. split; [reflexivity | now constructor].
Qed.

Lemma regions_loop_total (drawing_type : string) (unique : list VectorLine)
  (page_texts : list VectorText) (rs : list VisionRegion)
  (acc : list Out.RegionData) :
  Forall (fun r => exists o, process_region drawing_type unique page_texts r = Ok o) rs ->
  exists res, regions_loop drawing_type unique page_texts rs acc = Ok res.
Proof.
  intros F. revert acc. induction F as [|r rs [o P] F IH]; intros acc;
    cbn [regions_loop].
  - eauto.
  - rewrite P. cbn [bind]. apply IH.
Qed.

Lemma Forall2_labels (drawing_type : string) (unique : list VectorLine)
  (page_texts : list VectorText) (rs : list VisionRegion) (outs : list Out.RegionData) :
  Forall2 (fun r o => process_region drawing_type unique page_texts r = Ok o) rs outs ->
  map Out.label outs = map label rs.
Proof.
  induction 1 as [|r o rs outs P F IH]; cbn [map]; [reflexivity|].
  now rewrite IH, (process_region_label _ _ _ _ _ P).
Qed.

Lemma step2_dedupes (filtered_lines : list VectorLine) :
  step2 filtered_lines = remove_duplicate_lines filtered_lines.
Proof. now destruct filtered_lines. Qed.

Lemma step1_subset (drawing_type : string) (page_lines : list VectorLine) :
  Forall well_shaped_line page_lines ->
  Forall well_shaped_line (step1 drawing_type page_lines).
Proof.
  intros W. unfold step1.
  destruct (String.eqb drawing_type "bestektekening");
    apply Forall_forall; intros l I; apply filter_In in I as [I _];
    revert l I; now apply Forall_forall.
Qed.

(** The run of the pipeline on well-shaped data. *)
Lemma filter_clean_run (input_data : FilterInput) (page : VectorPage)
  (rest : list VectorPage) :
  pages (vector_data input_data) = page :: rest ->
  well_shaped_page page ->
  Forall well_shaped_region (regions (vision_output input_data)) ->
  let dt := drawing_type (vision_output input_data) in
  String.eqb dt "installatietekening" = false ->
  exists unique out,
    remove_duplicate_lines (step1 dt (lines page)) = Ok unique /\
    filter_clean input_data = Ok out /\
    Out.drawing_type out = dt /\
    map Out.label (Out.regions out) = map label (regions (vision_output input_data)) /\
    Forall2
      (fun r o =>
         projects
           (filter (fun l => segment_in_region l r && step3_rule dt r l) unique)
           (Out.lines o))
      (regions (vision_output input_data)) (Out.regions out).
Proof.
  intros Pg [Wl Wt] Wr dt NI.
  pose proof (step1_subset dt (lines page) Wl) as W1.
  destruct (dedupe_loop_total _ [] W1 (Forall_nil _)) as (unique & D).
  assert (Wu : Forall well_shaped_line unique).
  { destruct (dedupe_loop_fresh _ _ _ D fresh_nil) as (_ & k & -> & S).
    exact (subsequence_Forall _ _ _ S W1). }
  assert (T : Forall (fun r => exists o,
               process_region dt unique (texts page) r = Ok o)
              (regions (vision_output input_data))).
  { apply Forall_forall. intros r I.
    destruct (process_region_spec dt unique (texts page) r Wu Wt) as (o & P & _);
      [|eauto].
    revert r I. now apply Forall_forall. }
  destruct (regions_loop_total dt unique (texts page) _ [] T) as (res & L).
  destruct (regions_loop_inv _ _ _ _ _ _ L) as (outs & -> & F). cbn [app] in L.
  exists unique, {| Out.drawing_type := dt; Out.regions := outs |}.
  fold (remove_duplicate_lines (step1 dt (lines page))) in D.
  split; [exact D|]. split.
  { unfold filter_clean, filter_clean_body. rewrite Pg. fold dt. rewrite NI.
    cbv zeta. rewrite step2_dedupes, D. cbn [bind]. rewrite L. reflexivity. }
  split; [reflexivity|]. split; [exact (Forall2_labels _ _ _ _ _ F)|].
  cbn [Out.regions].
  clear L T. induction F as [|r o rs outs P F IH]; constructor.
  - inversion Wr as [|? ? R _]; subst.
    destruct (process_region_spec dt unique (texts page) r Wu Wt R) as (o' & P' & Q).
    rewrite P in P'. injection P' as <-. exact Q.
  - apply IH. now inversion Wr.
Qed.

End PipelineFacts.

Lemma should_include_line_bestek (l : VectorLine) (region_label : string) :
  should_include_line l "bestektekening" region_label
  = spec_passes (parse_bestektekening_region_type region_label) l.
Proof.
  unfold should_include_line, spec_passes, spec_thresholds, passes.
  change (String.eqb "bestektekening" "bestektekening") with true. cbv iota zeta.
  generalize (parse_bestektekening_region_type region_label). intros t.
  cbn [str_in existsb].
  destruct (String.eqb t "plattegrond"); [reflexivity|].
  destruct (String.eqb t "gevelaanzicht"); [reflexivity|].
  destruct (String.eqb t "doorsnede"); [reflexivity|].
  destruct (String.eqb t "detailtekening");
    destruct (String.eqb t "detailtekening_kozijn");
    destruct (String.eqb t "detailtekening_plattegrond"); reflexivity.
Qed.

Lemma passes_spec (s len : Q) (l : VectorLine) :
  passes s len l = true <->
  ((stroke_width l <= s)%Q /\ (len <= length l)%Q) \/ is_dashed l = true.
Proof.
  unfold passes. now rewrite orb_true_iff, andb_true_iff, !Qleb_le.
Qed.

(** C2, as amended.  With drawing type installatietekening and at least
    one page the pipeline returns an output with an empty regions list,
    whatever the lines and texts of the pages and the regions are; without
    any page it fails, as it does for every drawing type. *)
Theorem installatietekening_short_circuit (ext : Externals) (input_data : FilterInput) :
  drawing_type (vision_output input_data) = "installatietekening" ->
  filter_clean input_data =
  match pages (vector_data input_data) with
  | [] => Raise (HTTPException 500)
  | _ :: _ => Ok {| Out.drawing_type := "installatietekening"; Out.regions := [] |}
  end.
Proof.
  intros E. unfold filter_clean, filter_clean_body.
  destruct (pages (vector_data input_data)); [reflexivity|].
  now rewrite E.
Qed.

(** C2, as stated, fails: an installatietekening request without a page
    gets the failure, not an output with an empty regions list. *)
Lemma installatietekening_without_page_fails :
  drawing_type (vision_output installatie_no_page_input) = "installatietekening" /\
  forall ext : Externals,
    filter_clean installatie_no_page_input = Raise (HTTPException 500).
Proof. split; reflexivity. Qed.

Lemma installatietekening_short_circuit_witness :
  drawing_type (vision_output installatie_input) = "installatietekening" /\
  filter_clean (ext := reference_externals) installatie_input
  = Ok {| Out.drawing_type := "installatietekening"; Out.regions := [] |}.
Proof.
  split; [reflexivity|].
  exact (installatietekening_short_circuit reference_externals installatie_input eq_refl).
Defined.

(** C1.  On a well-shaped first page and well-shaped regions.  For a
    bestektekening page a line survives STEP 1 iff (stroke width <= 1.5
    and length >= 20) or it is dashed, and the lines of a region's output
    are the projections, in order, of the deduplicated survivors for
    which the region test holds and which pass the thresholds table at
    the sub-type resolved from the region's label.  For a page that is
    neither bestektekening nor installatietekening they are the
    projections of the deduplicated survivors for which the region test
    holds. *)
Theorem region_line_inclusion
  (ext : Externals) (input_data : FilterInput) (page : VectorPage)
  (rest : list VectorPage) :
  pages (vector_data input_data) = page :: rest ->
  well_shaped_page page ->
  Forall well_shaped_region (regions (vision_output input_data)) ->
  let dt := drawing_type (vision_output input_data) in
  let rs := regions (vision_output input_data) in
  (dt = "bestektekening" ->
   (forall l, In l (step1 dt (lines page)) <->
              In l (lines page) /\
              (((stroke_width l <= 1.5)%Q /\ (20 <= length l)%Q) \/ is_dashed l = true))
   /\
   exists unique out,
     remove_duplicate_lines (step1 dt (lines page)) = Ok unique /\
     filter_clean input_data = Ok out /\
     Forall2
       (fun r o =>
          projects
            (filter (fun l => segment_in_region l r &&
                              spec_passes (parse_bestektekening_region_type (label r)) l)
               unique)
            (Out.lines o))
       rs (Out.regions out))
  /\
  (dt <> "bestektekening" -> dt <> "installatietekening" ->
   exists unique out,
     remove_duplicate_lines (step1 dt (lines page)) = Ok unique /\
     filter_clean input_data = Ok out /\
     Forall2
       (fun r o => projects (filter (fun l => segment_in_region l r) unique) (Out.lines o))
       rs (Out.regions out)).
Proof.
  intros Pg Wp Wr dt rs. split.
  - intros B. split.
    + intros l. unfold step1. rewrite B.
      change (String.eqb "bestektekening" "bestektekening") with true. cbv iota.
      now rewrite filter_In, passes_spec.
    + destruct (filter_clean_run input_data page rest Pg Wp Wr)
        as (unique & out & D & E & _ & _ & F).
      { fold dt. now rewrite B. }
      exists unique, out. split; [exact D|]. split; [exact E|].
      fold dt rs in F. revert F. apply Forall2_impl. intros r o.
      match goal with
      | |- projects (filter ?f unique) _ -> projects (filter ?g unique) _ =>
          rewrite (filter_ext f g); [auto|]
      end.
      intros l. unfold step3_rule. rewrite B.
      change (String.eqb "bestektekening" "bestektekening") with true. cbv iota.
      now rewrite should_include_line_bestek.
  - intros NB NI.
    destruct (filter_clean_run input_data page rest Pg Wp Wr)
      as (unique & out & D & E & _ & _ & F).
    { fold dt. now apply String.eqb_neq. }
    exists unique, out. split; [exact D|]. split; [exact E|].
    fold dt rs in F. revert F. apply Forall2_impl. intros r o.
    match goal with
    | |- projects (filter ?f unique) _ -> projects (filter ?g unique) _ =>
        rewrite (filter_ext f g); [auto|]
    end.
    intros l. unfold step3_rule. apply String.eqb_neq in NB. rewrite NB.
    apply andb_true_r.
Qed.

Lemma region_line_inclusion_witness :
  exists unique out,
    remove_duplicate_lines (step1 "bestektekening" (lines bestek_page)) = Ok unique /\
    filter_clean (ext := reference_externals) bestek_input = Ok out /\
    Forall2
      (fun r o =>
         projects
           (filter (fun l => segment_in_region l r &&
                             spec_passes (parse_bestektekening_region_type (label r)) l)
              unique)
           (Out.lines o))
      (regions (vision_output bestek_input)) (Out.regions out).
Proof.
  refine (proj2 (proj1
    (region_line_inclusion reference_externals bestek_input bestek_page [] eq_refl _ _)
    eq_refl)).
  - split; repeat constructor.
  - repeat constructor.
Defined.

(** * Further properties *)

(** ** The inclusion rules *)

Lemma spec_thresholds_bounds (t : string) :
  (fst (spec_thresholds t) <= 1.5)%Q /\ (20 <= snd (spec_thresholds t))%Q.
Proof.
  unfold spec_thresholds.
  repeat match goal with |- context [String.eqb ?a ?b] => destruct (String.eqb a b) end;
    cbn [fst snd]; split; discriminate.
Qed.

Lemma spec_passes_iff (t : string) (l : VectorLine) :
  spec_passes t l = true <->
  ((stroke_width l <= fst (spec_thresholds t))%Q /\
   (snd (spec_thresholds t) <= length l)%Q) \/ is_dashed l = true.
Proof.
  unfold spec_passes. destruct (spec_thresholds t) as [s len]. cbn [fst snd].
  now rewrite orb_true_iff, andb_true_iff, !Qleb_le.
Qed.

Lemma spec_passes_permissive (t : string) (l : VectorLine) :
  spec_passes t l = true -> passes 1.5 20 l = true.
Proof.
  rewrite spec_passes_iff, passes_spec. destruct (spec_thresholds_bounds t) as [S L].
  intros [[A B] | D]; [left | now right].
  split; eapply Qle_trans; eauto.
Qed.

(** The rule of a page type other than bestektekening. *)
Lemma should_include_line_page (l : VectorLine) (dt region_label : string) :
  String.eqb dt "bestektekening" = false ->
  should_include_line l dt region_label =
  if String.eqb dt "installatietekening" then false else spec_passes dt l.
Proof.
  intros NB. unfold should_include_line, spec_passes, spec_thresholds, passes.
  rewrite NB. cbn [str_in existsb].
  destruct (String.eqb dt "plattegrond") eqn:E1.
  { apply String.eqb_eq in E1. now subst. }
  destruct (String.eqb dt "gevelaanzicht") eqn:E2.
  { apply String.eqb_eq in E2. now subst. }
  destruct (String.eqb dt "doorsnede") eqn:E3.
  { apply String.eqb_eq in E3. now subst. }
  destruct (String.eqb dt "detailtekening") eqn:E4.
  { apply String.eqb_eq in E4. now subst. }
  destruct (String.eqb dt "detailtekening_kozijn") eqn:E5.
  { apply String.eqb_eq in E5. now subst. }
  destruct (String.eqb dt "detailtekening_plattegrond") eqn:E6.
  { apply String.eqb_eq in E6. now subst. }
  cbn [orb]. now destruct (String.eqb dt "installatietekening").
Qed.

(** X1.  For a page type other than bestektekening and
    installatietekening the line rule is the row of the thresholds table
    for that type, and the region label plays no part. *)
Theorem page_type_line_rule (l : VectorLine) (dt region_label : string) :
  dt <> "bestektekening" -> dt <> "installatietekening" ->
  should_include_line l dt region_label = spec_passes dt l.
Proof.
  intros NB NI. apply String.eqb_neq in NB, NI.
  now rewrite (should_include_line_page l dt region_label NB), NI.
Qed.

Lemma page_type_line_rule_witness :
  should_include_line scenario_line "gevelaanzicht" "Detail (detailtekening)"
  = spec_passes "gevelaanzicht" scenario_line.
Proof.
  apply (page_type_line_rule scenario_line "gevelaanzicht" "Detail (detailtekening)");
    discriminate.
Defined.

Lemma should_include_line_permissive (l : VectorLine) (dt region_label : string) :
  should_include_line l dt region_label = true -> passes 1.5 20 l = true.
Proof.
  destruct (String.eqb dt "bestektekening") eqn:B.
  - apply String.eqb_eq in B. subst dt. rewrite should_include_line_bestek.
    apply spec_passes_permissive.
  - rewrite (should_include_line_page l dt region_label B).
    destruct (String.eqb dt "installatietekening"); [discriminate|].
    apply spec_passes_permissive.
Qed.

(** X2.  STEP 1 of a bestektekening page never discards a line that the
    rule of some region would accept: a page line that passes a region's
    thresholds is among the STEP 1 survivors. *)
Theorem step1_keeps_region_lines
  (page_lines : list VectorLine) (l : VectorLine) (region_label : string) :
  In l page_lines ->
  should_include_line l "bestektekening" region_label = true ->
  In l (step1 "bestektekening" page_lines).
Proof.
  intros I H. unfold step1.
  change (String.eqb "bestektekening" "bestektekening") with true. cbv iota.
  apply filter_In. split; [exact I|].
  now apply (should_include_line_permissive l "bestektekening" region_label).
Qed.

Lemma step1_keeps_region_lines_witness :
  In scenario_line (step1 "bestektekening" (lines bestek_page)).
Proof.
  apply (step1_keeps_region_lines (lines bestek_page) scenario_line
           "Begane grond (plattegrond)").
  - left. reflexivity.
  - reflexivity.
Defined.

(** X3.  Whatever the drawing type and the region label: a dashed line is
    accepted unless the type is installatietekening, and a line that is not
    dashed is rejected when its stroke width exceeds 1.5 or its length is
    below 20. *)
Theorem line_rule_limits (l : VectorLine) (dt region_label : string) :
  (is_dashed l = true -> dt <> "installatietekening" ->
   should_include_line l dt region_label = true)
  /\
  (is_dashed l = false -> (1.5 < stroke_width l)%Q \/ (length l < 20)%Q ->
   should_include_line l dt region_label = false).
Proof.
  split.
  - intros D NI. destruct (String.eqb dt "bestektekening") eqn:B.
    + apply String.eqb_eq in B. subst dt. rewrite should_include_line_bestek.
      apply spec_passes_iff. now right.
    + rewrite (should_include_line_page l dt region_label B).
      apply String.eqb_neq in NI. rewrite NI.
      apply spec_passes_iff. now right.
  - intros D H. apply not_true_iff_false. intros T.
    apply should_include_line_permissive, passes_spec in T.
    destruct T as [[A B] | T]; [|congruence].
    destruct H as [H | H]; [apply (Qlt_not_le _ _ H A) | apply (Qlt_not_le _ _ H B)].
Qed.

Lemma line_rule_limits_witness :
  should_include_line
    {| p1 := [0; 20]; p2 := [150; 20]; stroke_width := 2.0; length := 150;
       color := []; is_dashed := false; angle := None |} "plattegrond" "" = false.
Proof.
  apply (proj2 (line_rule_limits _ "plattegrond" "")).
  - reflexivity.
  - left. reflexivity.
Defined.

(** ** The deduplicator *)

Lemma close_points_sym (a b : Q * Q) : close_points a b -> close_points b a.
Proof.
  unfold close_points. now rewrite (Qabs_minus_swap (fst a)), (Qabs_minus_swap (snd a)).
Qed.

Lemma same_segment_sym (a b : VectorLine) : same_segment a b -> same_segment b a.
Proof.
  unfold same_segment. intros [[H1 H2] | [H1 H2]]; [left | right];
    split; now apply close_points_sym.
Qed.



(** X4.  On well-shaped lines no two lines of the result have the same
    endpoints within the tolerance, in either direction. *)
Theorem dedupe_pairwise_distinct
  (ls u before after : list VectorLine) (a b : VectorLine) :
  Forall well_shaped_line ls ->
  remove_duplicate_lines ls = Ok u ->
  u = before ++ b :: after -> In a before ->
  ~ same_segment a b /\ ~ same_segment b a.
Proof.
  intros W E -> I. unfold remove_duplicate_lines in E.
  destruct (dedupe_loop_fresh _ _ _ E fresh_nil) as (F & k & K & S).
  cbn [app] in K. subst k.
  pose proof (subsequence_Forall _ _ _ S W) as Wu.
  apply Forall_app in Wu as [Wb Wa]. inversion Wa as [|? ? Wb' _]; subst.
  replace (before ++ b :: after) with ((before ++ [b]) ++ after) in F
    by (now rewrite <- app_assoc).
  pose proof (fresh_last _ _ (fresh_prefix _ _ F)) as D.
  destruct (is_duplicate_spec b before Wb' Wb) as (d & D' & Hd).
  rewrite D in D'. injection D' as <-.
  assert (N : ~ same_segment b a).
  { intros H. assert (X : Exists (same_segment b) before).
    { apply Exists_exists. eauto. }
    apply Hd in X. discriminate. }
  split; [|exact N]. intros H. apply N. now apply same_segment_sym.
Qed.

Lemma dedupe_pairwise_distinct_witness :
  ~ same_segment chain_a chain_c /\ ~ same_segment chain_c chain_a.
Proof.
  apply (dedupe_pairwise_distinct [chain_a; chain_b; chain_c] [chain_a; chain_c]
           [chain_a] [] chain_a chain_c).
  - repeat constructor.
  - reflexivity.
  - reflexivity.
  - left. reflexivity.
Defined.

Lemma dedupe_loop_extends (ls acc u : list VectorLine) :
  dedupe_loop ls acc = Ok u -> exists k, u = acc ++ k.
Proof.
  revert acc; induction ls as [|l ls IH]; intros acc E; cbn [dedupe_loop] in E.
  - injection E as <-. exists []. now rewrite app_nil_r.
  - destruct (is_duplicate l acc) as [[|]|err]; cbn [bind] in E; [| |discriminate].
    + now apply IH.
    + destruct (IH _ E) as (k & ->). exists (l :: k). now rewrite <- app_assoc.
Qed.

Lemma dedupe_loop_covers (ls acc u : list VectorLine) :
  Forall well_shaped_line ls -> Forall well_shaped_line acc ->
  dedupe_loop ls acc = Ok u ->
  forall l, In l ls -> In l u \/ Exists (same_segment l) u.
Proof.
  intros W. revert acc. induction W as [|x ls Wx W IH]; intros acc Wa E l I.
  - destruct I.
  - cbn [dedupe_loop] in E.
    destruct (is_duplicate_spec x acc Wx Wa) as (d & D & Hd).
    rewrite D in E. cbn [bind] in E.
    destruct I as [<- | I].
    + destruct (dedupe_loop_extends _ _ _ E) as (k & ->). destruct d.
      * right. apply Exists_app. left. now apply Hd.
      * left. apply in_or_app. left. apply in_or_app. right. now left.
    + destruct d; [exact (IH acc Wa E l I)|].
      apply (IH (acc ++ [x])); auto.
      apply Forall_app. split; [exact Wa | now constructor].
Qed.

(** X5.  On well-shaped lines every input line is kept or has the same
    endpoints, within the tolerance, as a line that is kept: nothing is
    dropped without a representative. *)
Theorem dedupe_covers_input (ls u : list VectorLine) (l : VectorLine) :
  Forall well_shaped_line ls ->
  remove_duplicate_lines ls = Ok u ->
  In l ls -> In l u \/ Exists (same_segment l) u.
Proof.
  intros W E I. exact (dedupe_loop_covers ls [] u W (Forall_nil _) E l I).
Qed.

Lemma dedupe_covers_input_witness :
  In chain_b [chain_a; chain_c] \/ Exists (same_segment chain_b) [chain_a; chain_c].
Proof.
  apply (dedupe_covers_input [chain_a; chain_b; chain_c] [chain_a; chain_c] chain_b).
  - repeat constructor.
  - reflexivity.
  - right. left. reflexivity.
Defined.




(** ** The projection of a line *)

Lemma calculate_orientation_swap
  (ext : Externals) (a b : list Q) (ang : option Q) :
  calculate_orientation a b ang = calculate_orientation b a ang.
Proof.
  destruct ang as [x|]; [reflexivity|].
  unfold calculate_orientation.
  destruct (getitem b 0) as [b0|e1] eqn:E1;
    destruct (getitem a 0) as [a0|e2] eqn:E2;
    destruct (getitem b 1) as [b1|e3] eqn:E3;
    destruct (getitem a 1) as [a1|e4] eqn:E4;
    cbn [bind];
    repeat match goal with
           | H : getitem _ _ = Raise _ |- _ => apply getitem_raises in H; subst
           end;
    try reflexivity.
  now rewrite (Qabs_minus_swap b0 a0), (Qabs_minus_swap b1 a1).
Qed.

(** X7.  The projection of a line does not depend on the direction in
    which it is drawn: the line and its reverse give the same length and
    orientation and equal midpoints, or fail alike. *)
Theorem filtered_line_undirected (ext : Externals) (l : VectorLine) :
  match filtered_line l, filtered_line (reverse_line l) with
  | Ok a, Ok b => same_projection a b
  | Raise e, Raise e' => e = e'
  | _, _ => False
  end.
Proof.
  unfold filtered_line, reverse_line. cbn [p1 p2 angle length].
  rewrite (calculate_orientation_swap ext (p2 l) (p1 l)).
  destruct (calculate_orientation (p1 l) (p2 l) (angle l)) as [o|e]; cbn [bind];
    [|reflexivity].
  unfold calculate_midpoint.
  destruct (getitem (p1 l) 0) as [a0|e1] eqn:E1;
    destruct (getitem (p2 l) 0) as [b0|e2] eqn:E2;
    destruct (getitem (p1 l) 1) as [a1|e3] eqn:E3;
    destruct (getitem (p2 l) 1) as [b1|e4] eqn:E4;
    cbn [bind];
    repeat match goal with
           | H : getitem _ _ = Raise _ |- _ => apply getitem_raises in H; subst
           end;
    try reflexivity.
  unfold same_projection. cbn. repeat split; field.
Qed.

(** ** The dimension parser, further *)

Lemma scan_decimal_nonneg (s : string) (after_dot : bool) (mant : Z) (scale : positive) :
  (0 <= mant)%Z -> (0 <= fst (scan_decimal s after_dot mant scale))%Z.
Proof.
  revert after_dot mant scale. induction s as [|c s IH]; intros b m d H; cbn [scan_decimal].
  - exact H.
  - destruct (Ascii.eqb c "."); apply IH; [exact H|].
    unfold digit_value. lia.
Qed.

Lemma float_of_str_nonneg (s : string) : (0 <= float_of_str s)%Q.
Proof.
  unfold float_of_str. pose proof (scan_decimal_nonneg s false 0 1 (Z.le_refl 0)) as H.
  destruct (scan_decimal s false 0 1) as [m d]. cbn [fst] in H.
  unfold Qle. cbn. lia.
Qed.

Lemma try_patterns_rejects (c : ascii) (s : string) :
  is_digit c = false -> is_plus c = false ->
  try_patterns patterns (String c s) = None.
Proof.
  intros D P. unfold patterns, try_patterns, re_match, re_number, Plus.
  cbn [rmatch]. now rewrite D, P.
Qed.

(** X8.  The parser never gives a negative value, and it gives no value
    at all for a text that, once stripped, is empty or starts with anything
    but a digit or a plus sign (a minus sign, a letter, a dot). *)
Theorem extract_dimension_value_domain :
  (forall t v, extract_dimension_value t = Some v -> (0 <= v)%Q)
  /\
  (forall t, strip t = "" -> extract_dimension_value t = None)
  /\
  (forall t c s, strip t = String c s -> is_digit c = false -> is_plus c = false ->
                 extract_dimension_value t = None).
Proof.
  split; [|split].
  - intros t v H. unfold extract_dimension_value in H.
    destruct (try_patterns_value patterns (strip t) v (fun p I => I) H) as (n & _ & V).
    pose proof (float_of_str_nonneg (replace_comma n)) as P.
    fold (numeral_value n) in P.
    destruct V as [-> | [-> | ->]]; [exact P | |];
      apply Qmult_le_0_compat; (exact P || discriminate).
  - apply extract_blank.
  - intros t c s E D P. unfold extract_dimension_value. rewrite E.
    now apply try_patterns_rejects.
Qed.

Lemma extract_dimension_value_domain_witness :
  (0 <= 3500)%Q /\ extract_dimension_value " -2400 mm" = None.
Proof.
  destruct extract_dimension_value_domain as (Pos & _ & Rej). split.
  - apply (Pos "3500" 3500%Q). reflexivity.
  - apply (Rej " -2400 mm" "-"%char "2400 mm"); reflexivity.
Defined.

(** *** Blanks around the text *)

Lemma lstrip_spaces (a s : string) :
  all_class is_space a = true -> lstrip (a ++ s) = lstrip s.
Proof.
  induction a as [|c a IH]; cbn; [reflexivity|].
  intros H. apply andb_true_iff in H as [H1 H2]. rewrite H1. now apply IH.
Qed.

Lemma rstrip_all_spaces (b : string) : all_class is_space b = true -> rstrip b = "".
Proof.
  induction b as [|c b IH]; [reflexivity|].
  cbn [all_class]. intros H. apply andb_true_iff in H as [H1 H2].
  now rewrite rstrip_cons, (IH H2), H1.
Qed.

Lemma rstrip_spaces (s b : string) :
  all_class is_space b = true -> rstrip (s ++ b) = rstrip s.
Proof.
  intros H. induction s as [|c s IH]; cbn [append].
  - now rewrite rstrip_all_spaces.
  - now rewrite !rstrip_cons, IH.
Qed.

Lemma strip_append_spaces (t b : string) :
  all_class is_space b = true -> strip (t ++ b) = strip t.
Proof.
  intros H. unfold strip. induction t as [|c t IH]; cbn [append lstrip].
  - rewrite <- (append_nil_r b), (lstrip_spaces b "" H). reflexivity.
  - destruct (is_space c); [exact IH|].
    change (String c (t ++ b)) with (String c t ++ b)%string. now apply rstrip_spaces.
Qed.

Lemma strip_padded (a t b : string) :
  all_class is_space a = true -> all_class is_space b = true ->
  strip (a ++ t ++ b) = strip t.
Proof.
  intros A B. rewrite <- (strip_append_spaces t b B).
  unfold strip. now rewrite lstrip_spaces.
Qed.

(** X9.  Blanks around a text change neither the parsed value nor the
    validity: the parser and the validator see the stripped text only. *)
Theorem dimension_ignores_padding (a t b drawing_type : string) :
  all_class is_space a = true -> all_class is_space b = true ->
  extract_dimension_value (a ++ t ++ b) = extract_dimension_value t /\
  is_valid_dimension (a ++ t ++ b) drawing_type = is_valid_dimension t drawing_type.
Proof.
  intros A B. pose proof (strip_padded a t b A B) as S. split.
  - unfold extract_dimension_value. now rewrite S.
  - unfold is_valid_dimension. rewrite S.
    destruct (strip t) as [|c r] eqn:E.
    + cbn [is_empty]. now rewrite !orb_true_r.
    + cbn [is_empty]. rewrite !orb_false_r.
      assert (N1 : is_empty t = false) by (destruct t; [discriminate E | reflexivity]).
      assert (N2 : is_empty (a ++ t ++ b) = false).
      { destruct (a ++ t ++ b)%string; [discriminate S | reflexivity]. }
      now rewrite N1, N2.
Qed.

Lemma dimension_ignores_padding_witness :
  extract_dimension_value ("  " ++ "3.5m" ++ " ") = extract_dimension_value "3.5m" /\
  is_valid_dimension ("  " ++ "3.5m" ++ " ") "plattegrond"
  = is_valid_dimension "3.5m" "plattegrond".
Proof.
  apply (dimension_ignores_padding "  " "3.5m" " " "plattegrond"); reflexivity.
Defined.

(** X10.  A text that is a valid dimension for plattegrond is a valid
    dimension for every drawing type: the other types only lower the
    minimum. *)
Theorem plattegrond_validity_is_strictest (t drawing_type : string) :
  is_valid_dimension t "plattegrond" = true ->
  is_valid_dimension t drawing_type = true.
Proof.
  unfold is_valid_dimension.
  destruct (is_empty t || is_empty (strip t))%bool; [discriminate|].
  destruct (extract_dimension_value (strip t)) as [v|]; [|discriminate].
  change (String.eqb "plattegrond" "plattegrond") with true. cbv iota zeta.
  destruct (v <? 500)%Q eqn:A; [discriminate|]. apply Qltb_ge in A.
  intros H. destruct (String.eqb drawing_type "plattegrond").
  - exact H.
  - assert (B : (v <? 100)%Q = false) by (apply Qltb_ge; lra).
    rewrite B. exact H.
Qed.

Lemma plattegrond_validity_is_strictest_witness :
  is_valid_dimension "2400mm" "detailtekening_kozijn" = true.
Proof.
  apply (plattegrond_validity_is_strictest "2400mm" "detailtekening_kozijn").
  reflexivity.
Defined.

(** *** Letter case *)

Lemma lower_ascii_idempotent (c : ascii) : lower_ascii (lower_ascii c) = lower_ascii c.
Proof. destruct c as [[] [] [] [] [] [] [] []]; reflexivity. Qed.

Lemma lower_idempotent (s : string) : lower (lower s) = lower s.
Proof.
  induction s as [|c s IH]; cbn; [reflexivity|].
  now rewrite lower_ascii_idempotent, IH.
Qed.

Lemma is_space_lower (c : ascii) : is_space (lower_ascii c) = is_space c.
Proof. destruct c as [[] [] [] [] [] [] [] []]; reflexivity. Qed.

Lemma is_digit_lower (c : ascii) : is_digit (lower_ascii c) = is_digit c.
Proof. destruct c as [[] [] [] [] [] [] [] []]; reflexivity. Qed.

Lemma is_sep_lower (c : ascii) : is_sep (lower_ascii c) = is_sep c.
Proof. destruct c as [[] [] [] [] [] [] [] []]; reflexivity. Qed.

Lemma is_plus_lower (c : ascii) : is_plus (lower_ascii c) = is_plus c.
Proof. destruct c as [[] [] [] [] [] [] [] []]; reflexivity. Qed.

Lemma is_p_lower (c : ascii) : is_p (lower_ascii c) = is_p c.
Proof. unfold is_p. now rewrite lower_ascii_idempotent. Qed.

Lemma is_v_lower (c : ascii) : is_v (lower_ascii c) = is_v c.
Proof. unfold is_v. now rewrite lower_ascii_idempotent. Qed.

Lemma is_pv_lower (c : ascii) : is_pv (lower_ascii c) = is_pv c.
Proof. unfold is_pv. now rewrite is_p_lower, is_v_lower. Qed.

Lemma newline_lower (c : ascii) : Ascii.eqb (lower_ascii c) newline = Ascii.eqb c newline.
Proof. destruct c as [[] [] [] [] [] [] [] []]; reflexivity. Qed.

Lemma digit_lower (c : ascii) : is_digit c = true -> lower_ascii c = c.
Proof. destruct c as [[] [] [] [] [] [] [] []]; vm_compute; congruence. Qed.

Lemma sep_lower (c : ascii) : is_sep c = true -> lower_ascii c = c.
Proof. destruct c as [[] [] [] [] [] [] [] []]; vm_compute; congruence. Qed.

Lemma digits_lower (ds : string) : all_digits ds = true -> lower ds = ds.
Proof.
  induction ds as [|c ds IH]; cbn; [reflexivity|].
  intros H. apply andb_true_iff in H as [H1 H2].
  now rewrite (digit_lower c H1), (IH H2).
Qed.

Lemma lower_append (a b : string) : lower (a ++ b) = (lower a ++ lower b)%string.
Proof. induction a as [|c a IH]; cbn; [reflexivity | now rewrite IH]. Qed.

Lemma numeral_lower (n : string) : numeral n -> lower n = n.
Proof.
  intros [ds [_ D] | ds fs c [_ D] S [_ F]].
  - now apply digits_lower.
  - rewrite lower_append. cbn.
    now rewrite (digits_lower ds D), (digits_lower fs F), (sep_lower c S).
Qed.

Lemma length_lower (s : string) : String.length (lower s) = String.length s.
Proof. induction s as [|c s IH]; cbn; [reflexivity | now rewrite IH]. Qed.

Lemma substring_lower (n m : nat) (s : string) :
  substring n m (lower s) = lower (substring n m s).
Proof.
  revert n m. induction s as [|c s IH]; intros [|n] [|m]; cbn; try reflexivity.
  - now rewrite IH.
  - apply IH.
  - apply IH.
Qed.

Lemma consumed_lower (s s' : string) : consumed (lower s) (lower s') = lower (consumed s s').
Proof. unfold consumed. now rewrite !length_lower, substring_lower. Qed.

Lemma lstrip_lower (s : string) : lstrip (lower s) = lower (lstrip s).
Proof.
  induction s as [|c s IH]; cbn; [reflexivity|].
  rewrite is_space_lower. now destruct (is_space c).
Qed.

Lemma rstrip_lower (s : string) : rstrip (lower s) = lower (rstrip s).
Proof.
  induction s as [|c s IH]; [reflexivity|].
  cbn [lower]. rewrite !rstrip_cons, IH, is_space_lower.
  destruct (rstrip s); cbn; [now destruct (is_space c) | reflexivity].
Qed.

Lemma strip_lower (s : string) : strip (lower s) = lower (strip s).
Proof. unfold strip. now rewrite lstrip_lower, rstrip_lower. Qed.

Lemma match_lit_lower (l s : string) :
  match_lit l (lower s) = option_map lower (match_lit l s).
Proof.
  revert s. induction l as [|a l IH]; intros s; cbn [match_lit]; [reflexivity|].
  destruct s as [|c s]; cbn [lower]; [reflexivity|].
  rewrite lower_ascii_idempotent. destruct (Ascii.eqb _ _); [apply IH | reflexivity].
Qed.

Lemma alike_refl_none : alike None None.
Proof. exact I. Qed.

Lemma match_star_lower (p : ascii -> bool) (k1 k2 : string -> option captures) (s : string) :
  (forall c, p (lower_ascii c) = p c) ->
  (forall s', alike (k1 (lower s')) (k2 s')) ->
  alike (match_star p k1 (lower s)) (match_star p k2 s).
Proof.
  intros P K. induction s as [|c s IH]; cbn [lower match_star].
  - apply (K "").
  - rewrite P. destruct (p c); [|apply (K (String c s))].
    destruct (match_star p k1 (lower s)) as [m1|], (match_star p k2 s) as [m2|];
      cbn in IH; try contradiction; [exact IH|].
    apply (K (String c s)).
Qed.

(** The matcher runs alike on a text and on its lower-cased form. *)
Lemma rmatch_lower (r : regex) :
  ignores_case r ->
  forall s c1 c2 k1 k2,
    lowered c1 c2 ->
    (forall s' c1' c2', lowered c1' c2' -> alike (k1 (lower s') c1') (k2 s' c2')) ->
    alike (rmatch r (lower s) c1 k1) (rmatch r s c2 k2).
Proof.
  induction r as [| p | l | p | r1 IH1 r2 IH2 | r1 IH1 r2 IH2 | n r1 IH1 |];
    intros CI s c1 c2 k1 k2 L K; cbn [rmatch].
  - now apply K.
  - destruct s as [|c s]; cbn [lower]; [exact I|].
    cbn in CI. rewrite CI. destruct (p c); [now apply K | exact I].
  - rewrite match_lit_lower. destruct (match_lit l s) as [s'|]; cbn; [now apply K | exact I].
  - apply match_star_lower; [exact CI|]. intros s'. now apply K.
  - destruct CI as [CI1 CI2]. apply IH1; [exact CI1 | exact L|].
    intros s' c1' c2' L'. now apply IH2.
  - destruct CI as [CI1 CI2].
    pose proof (IH1 CI1 s c1 c2 k1 k2 L K) as A.
    destruct (rmatch r1 (lower s) c1 k1) as [m1|], (rmatch r1 s c2 k2) as [m2|];
      cbn in A; try contradiction; [exact A|].
    now apply IH2.
  - apply IH1; [exact CI | exact L|].
    intros s' c1' c2' L'. apply K. rewrite consumed_lower.
    intros g. unfold set_group. destruct (Nat.eqb g n); [reflexivity | apply L'].
  - destruct s as [|c [|d s]]; cbn [lower].
    + exact (K "" c1 c2 L).
    + rewrite newline_lower. destruct (Ascii.eqb c newline); [|exact I].
      exact (K (String c "") c1 c2 L).
    + exact I.
Qed.

Lemma patterns_ignore_case : Forall ignores_case patterns.
Proof.
  unfold patterns, re_number, re_unit, re_unit_pv, ws, Opt, Plus.
  repeat (apply Forall_cons;
          [cbn [ignores_case]; repeat split;
           first [ apply is_digit_lower | apply is_sep_lower | apply is_space_lower
                 | apply is_plus_lower | apply is_p_lower | apply is_v_lower
                 | apply is_pv_lower ] |]).
  apply Forall_nil.
Qed.

Lemma re_match_lower (pattern : regex) (s : string) :
  ignores_case pattern -> alike (re_match pattern (lower s)) (re_match pattern s).
Proof.
  intros CI. unfold re_match. apply (rmatch_lower pattern CI).
  - intros g. reflexivity.
  - intros s' c1' c2' L. exact L.
Qed.

Lemma convert_match_lowered (m1 m2 : captures) (n : string) :
  lowered m1 m2 -> m2 1%nat = Some n -> numeral n ->
  convert_match m1 = convert_match m2.
Proof.
  intros L G N. unfold convert_match, group.
  rewrite (L 1%nat), (L 2%nat), G. cbn [option_map]. rewrite (numeral_lower n N).
  destruct (m2 2%nat) as [[|c u]|]; cbn [option_map lower]; try reflexivity.
  rewrite !lower_ascii_idempotent, !lower_idempotent. reflexivity.
Qed.

Lemma try_patterns_lower (ps : list regex) (s : string) :
  (forall p, In p ps -> In p patterns) ->
  try_patterns ps (lower s) = try_patterns ps s.
Proof.
  induction ps as [|p ps IH]; intros Sub; cbn [try_patterns]; [reflexivity|].
  assert (I : In p patterns) by (apply Sub; now left).
  assert (CI : ignores_case p).
  { pose proof patterns_ignore_case as F. rewrite Forall_forall in F. now apply F. }
  pose proof (re_match_lower p s CI) as A.
  destruct (re_match p (lower s)) as [m1|], (re_match p s) as [m2|] eqn:E;
    cbn in A; try contradiction.
  - destruct (re_match_captures_numeral p s m2 I E) as (n & N & G).
    now rewrite (convert_match_lowered m1 m2 n A G N).
  - apply IH. intros q Iq. apply Sub. now right.
Qed.

(** X11.  The parser ignores letter case: two texts that differ only in
    the case of their letters (12CM and 12cm, 7555P and 7555p) parse to
    the same value, and are valid or not alike. *)
Theorem dimension_ignores_case (t1 t2 drawing_type : string) :
  lower t1 = lower t2 ->
  extract_dimension_value t1 = extract_dimension_value t2 /\
  is_valid_dimension t1 drawing_type = is_valid_dimension t2 drawing_type.
Proof.
  intros E.
  assert (X : forall t, extract_dimension_value (lower t) = extract_dimension_value t).
  { intros t. unfold extract_dimension_value. rewrite strip_lower.
    now apply try_patterns_lower. }
  assert (V : forall t, is_valid_dimension (lower t) drawing_type
                        = is_valid_dimension t drawing_type).
  { intros t. unfold is_valid_dimension.
    rewrite extract_strip, X, strip_lower, <- (extract_strip t).
    assert (Em : forall s, is_empty (lower s) = is_empty s) by (now intros [|c s]).
    now rewrite !Em. }
  split.
  - now rewrite <- (X t1), <- (X t2), E.
  - now rewrite <- (V t1), <- (V t2), E.
Qed.

Lemma dimension_ignores_case_witness :
  extract_dimension_value "12,5 CM" = extract_dimension_value "12,5 cm" /\
  is_valid_dimension "12,5 CM" "doorsnede" = is_valid_dimension "12,5 cm" "doorsnede".
Proof.
  apply (dimension_ignores_case "12,5 CM" "12,5 cm" "doorsnede"). reflexivity.
Defined.

(** ** The classifier, further *)

Lemma keyword_region_type_range (l : string) : In (keyword_region_type l) region_types.
Proof.
  unfold keyword_region_type, region_types, valid_types.
  repeat match goal with |- context [if ?c then _ else _] => destruct c end;
    cbn; tauto.
Qed.

Lemma parse_region_type_range (region_label : string) :
  In (parse_bestektekening_region_type region_label) region_types.
Proof.
  unfold parse_bestektekening_region_type.
  destruct (contains "(" region_label && contains ")" region_label)%bool;
    [|apply keyword_region_type_range].
  cbv zeta. destruct (str_in _ valid_types) eqn:V; [|apply keyword_region_type_range].
  apply str_in_spec in V. unfold region_types. apply in_or_app. now left.
Qed.

Lemma parse_region_type_not_excluded (region_label : string) :
  parse_bestektekening_region_type region_label <> "bestektekening" /\
  parse_bestektekening_region_type region_label <> "installatietekening".
Proof.
  pose proof (parse_region_type_range region_label) as R.
  split; intros E; rewrite E in R; cbn in R; intuition discriminate.
Qed.

(** X12.  The classifier returns one of the six sub-types or "unknown",
    never a composite or excluded type; so on a bestektekening page a text
    is kept exactly when it is a valid dimension for the sub-type resolved
    from the region's label. *)
Theorem region_type_range (region_label : string) (t : VectorText) :
  In (parse_bestektekening_region_type region_label) region_types /\
  parse_bestektekening_region_type region_label <> "bestektekening" /\
  parse_bestektekening_region_type region_label <> "installatietekening" /\
  should_include_text t "bestektekening" region_label
  = is_valid_dimension (text t) (parse_bestektekening_region_type region_label).
Proof.
  destruct (parse_region_type_not_excluded region_label) as [NB NI].
  split; [apply parse_region_type_range|]. split; [exact NB|]. split; [exact NI|].
  unfold should_include_text.
  change (String.eqb "bestektekening" "bestektekening") with true. cbv iota zeta.
  apply String.eqb_neq in NI. now rewrite NI.
Qed.

(** *** Blanks and letter case, as the statements describe them *)
















(** ** Geometry, further *)

(** X13.  For a text box and an expanded region that are both proper
    rectangles, the overlap test never fails and holds exactly when the
    two rectangles share a point; touching edges count. *)
Theorem text_overlap_shares_point
  (t : VectorText) (x1 y1 x2 y2 b0 b1 b2 b3 : Q) :
  bounding_box t = [b0; b1; b2; b3] ->
  (b0 <= b2)%Q -> (b1 <= b3)%Q ->
  (x1 - 25 <= x2 + 25)%Q -> (y1 - 25 <= y2 + 25)%Q ->
  exists b,
    text_overlaps_region t [x1; y1; x2; y2] = Ok b /\
    (b = true <->
     exists x y, in_rect (expand_region x1 y1 x2 y2) x y = true /\
                 in_rect (b0, b1, b2, b3) x y = true).
Proof.
  intros B Wx Wy Rx Ry. unfold text_overlaps_region. rewrite B.
  cbn [unpack4 bind]. unfold expand_region. cbv beta iota zeta.
  eexists. split; [reflexivity|].
  rewrite negb_true_iff, !orb_false_iff, !Qltb_ge. split.
  - intros [[[A1 A2] A3] A4].
    exists (if Qlt_le_dec b0 (x1 - 25) then (x1 - 25)%Q else b0),
           (if Qlt_le_dec b1 (y1 - 25) then (y1 - 25)%Q else b1).
    rewrite !in_rect_spec.
    destruct (Qlt_le_dec b0 (x1 - 25)), (Qlt_le_dec b1 (y1 - 25)); lra.
  - intros (x & y & I1 & I2). rewrite in_rect_spec in I1, I2. lra.
Qed.

Lemma text_overlap_shares_point_witness :
  exists b,
    text_overlaps_region
      {| text := "2400"; position := []; font_size := None;
         bounding_box := [125; 0; 180; 20] |} [0; 0; 100; 100] = Ok b /\
    (b = true <->
     exists x y, in_rect (expand_region 0 0 100 100) x y = true /\
                 in_rect (125, 0, 180, 20) x y = true).
Proof.
  apply (text_overlap_shares_point _ 0 0 100 100 125 0 180 20);
    (reflexivity || discriminate).
Defined.

(** X14.  How the region test of a line fails: a coordinate block that
    does not have four numbers, or a first endpoint that does not have two,
    raises ValueError; when the first endpoint lies in the expanded
    rectangle the answer is true and the second endpoint is not inspected;
    otherwise a second endpoint that does not have two numbers raises. *)
Theorem line_intersects_region_errors (ext : Externals) :
  (forall p q region,
      List.length region <> 4%nat ->
      line_intersects_region p q region = Raise ValueError)
  /\
  (forall p q region,
      List.length region = 4%nat -> List.length p <> 2%nat ->
      line_intersects_region p q region = Raise ValueError)
  /\
  (forall q x1 y1 x2 y2 ax ay,
      in_rect (expand_region x1 y1 x2 y2) ax ay = true ->
      line_intersects_region [ax; ay] q [x1; y1; x2; y2] = Ok true)
  /\
  (forall q x1 y1 x2 y2 ax ay,
      in_rect (expand_region x1 y1 x2 y2) ax ay = false ->
      List.length q <> 2%nat ->
      line_intersects_region [ax; ay] q [x1; y1; x2; y2] = Raise ValueError).
Proof.
  repeat split.
  - intros p q region H. unfold line_intersects_region.
    destruct region as [|a [|b [|c [|d [|? ?]]]]]; try reflexivity.
    exfalso. now apply H.
  - intros p q region R H. unfold line_intersects_region.
    destruct region as [|a [|b [|c [|d [|? ?]]]]]; try discriminate R.
    cbn [unpack4 bind]. unfold expand_region at 1. cbv beta iota zeta.
    destruct p as [|a' [|b' [|? ?]]]; try reflexivity.
    exfalso. now apply H.
  - intros q x1 y1 x2 y2 ax ay H. unfold line_intersects_region.
    cbn [unpack4 unpack2 bind]. unfold expand_region at 1. cbv beta iota zeta.
    now rewrite H.
  - intros q x1 y1 x2 y2 ax ay H Lq. unfold line_intersects_region.
    cbn [unpack4 unpack2 bind]. unfold expand_region at 1. cbv beta iota zeta.
    rewrite H.
    destruct q as [|a' [|b' [|? ?]]]; try reflexivity.
    exfalso. now apply Lq.
Qed.

Lemma line_intersects_region_errors_witness :
  line_intersects_region [10; 10] [7] [0; 0; 100; 100] = Ok true /\
  line_intersects_region [500; 10] [7] [0; 0; 100; 100] = Raise ValueError /\
  line_intersects_region [10; 10] [20; 20] [0; 0; 100] = Raise ValueError.
Proof.
  destruct (line_intersects_region_errors reference_externals) as (A & _ & C & D).
  split; [|split].
  - apply C. reflexivity.
  - apply D; [reflexivity | discriminate].
  - apply A. discriminate.
Defined.

(** ** The pipeline, further *)

Lemma subsequence_refl {A : Type} (l : list A) : subsequence l l.
Proof. induction l; [constructor | now apply subseq_keep]. Qed.

Lemma subsequence_trans {A : Type} (a b c : list A) :
  subsequence a b -> subsequence b c -> subsequence a c.
Proof.
  intros H1 H2. revert a H1.
  induction H2 as [| x u l S IH | x u l S IH]; intros a H1.
  - exact H1.
  - apply subseq_skip. now apply IH.
  - inversion H1; subst; [apply subseq_skip | apply subseq_keep]; now apply IH.
Qed.

Lemma subsequence_filter {A : Type} (f : A -> bool) (l : list A) :
  subsequence (filter f l) l.
Proof.
  induction l as [|a l IH]; cbn; [constructor|].
  destruct (f a); [apply subseq_keep | apply subseq_skip]; exact IH.
Qed.

Lemma subsequence_length {A : Type} (u l : list A) :
  subsequence u l -> (List.length u <= List.length l)%nat.
Proof. induction 1; cbn; lia. Qed.

Lemma subsequence_In {A : Type} (u l : list A) (a : A) :
  subsequence u l -> In a u -> In a l.
Proof.
  induction 1 as [| x u l S IH | x u l S IH]; cbn; intros I; auto.
  destruct I as [-> | I]; auto.
Qed.

Lemma step1_subsequence (dt : string) (page_lines : list VectorLine) :
  subsequence (step1 dt page_lines) page_lines.
Proof. unfold step1. destruct (String.eqb dt "bestektekening"); apply subsequence_filter. Qed.

Lemma step1_permissive (dt : string) (page_lines : list VectorLine) (l : VectorLine) :
  In l (step1 dt page_lines) -> passes 1.5 20 l = true.
Proof.
  unfold step1. destruct (String.eqb dt "bestektekening"); intros I;
    apply filter_In in I as [_ H]; [exact H|].
  now apply (should_include_line_permissive l dt "").
Qed.

Lemma valid_dimension_plausible (t drawing_type : string) :
  is_valid_dimension t drawing_type = true ->
  exists v, extract_dimension_value t = Some v /\ (100 <= v)%Q /\ (v <= 100000)%Q.
Proof.
  unfold is_valid_dimension.
  destruct (is_empty t || is_empty (strip t))%bool; [discriminate|].
  rewrite extract_strip.
  destruct (extract_dimension_value t) as [v|]; [|discriminate]. cbv zeta.
  intros H. exists v. split; [reflexivity|].
  destruct (100000 <? v)%Q eqn:B.
  { destruct (if String.eqb drawing_type "plattegrond" then _ else _); discriminate. }
  apply Qltb_ge in B. split; [|exact B].
  destruct (String.eqb drawing_type "plattegrond").
  - destruct (v <? 500)%Q eqn:A; [discriminate|]. apply Qltb_ge in A. lra.
  - destruct (v <? 100)%Q eqn:A; [discriminate|]. now apply Qltb_ge in A.
Qed.

Lemma should_include_text_effective (t : VectorText) (dt region_label : string) :
  dt <> "installatietekening" ->
  should_include_text t dt region_label
  = is_valid_dimension (text t) (effective_type dt region_label).
Proof.
  intros NI. unfold should_include_text, effective_type.
  destruct (String.eqb dt "bestektekening").
  - destruct (parse_region_type_not_excluded region_label) as [_ N].
    apply String.eqb_neq in N. now rewrite N.
  - apply String.eqb_neq in NI. now rewrite NI.
Qed.

Lemma region_lines_loop_inv (ext : Externals) (dt : string) (r : VisionRegion)
  (u : list VectorLine) (acc res : list Out.FilteredLine) :
  region_lines_loop dt r u acc = Ok res ->
  exists kept fls,
    res = acc ++ fls /\ subsequence kept u /\ projects kept fls /\
    Forall (fun l => exists b,
              line_intersects_region (p1 l) (p2 l) (coordinate_block r) = Ok b) u.
Proof.
  revert acc. induction u as [|l u IH]; intros acc E; cbn [region_lines_loop] in E.
  - injection E as <-. exists [], []. rewrite app_nil_r.
    repeat split; constructor.
  - destruct (line_intersects_region _ _ _) as [hit|err] eqn:H; cbn [bind] in E;
      [|discriminate].
    assert (Keep : forall fl,
      filtered_line l = Ok fl ->
      region_lines_loop dt r u (acc ++ [fl]) = Ok res ->
      exists kept fls,
        res = acc ++ fls /\ subsequence kept (l :: u) /\ projects kept fls /\
        Forall (fun l => exists b,
                  line_intersects_region (p1 l) (p2 l) (coordinate_block r) = Ok b)
          (l :: u)).
    { intros fl F E'. destruct (IH _ E') as (kept & fls & -> & S & P & T).
      exists (l :: kept), (fl :: fls). rewrite <- app_assoc.
      repeat split; [now apply subseq_keep | now constructor | constructor; eauto]. }
    assert (Skip :
      region_lines_loop dt r u acc = Ok res ->
      exists kept fls,
        res = acc ++ fls /\ subsequence kept (l :: u) /\ projects kept fls /\
        Forall (fun l => exists b,
                  line_intersects_region (p1 l) (p2 l) (coordinate_block r) = Ok b)
          (l :: u)).
    { intros E'. destruct (IH _ E') as (kept & fls & -> & S & P & T).
      exists kept, fls.
      repeat split; [now apply subseq_skip | exact P | constructor; eauto]. }
    destruct hit; [|now apply Skip].
    destruct (String.eqb dt "bestektekening").
    + destruct (should_include_line l dt (label r)); [|now apply Skip].
      destruct (filtered_line l) as [fl|err] eqn:F; cbn [bind] in E; [|discriminate].
      now apply (Keep fl).
    + destruct (filtered_line l) as [fl|err] eqn:F; cbn [bind] in E; [|discriminate].
      now apply (Keep fl).
Qed.

Lemma region_texts_loop_inv (ext : Externals) (dt : string) (r : VisionRegion)
  (ts : list VectorText) (acc res : list Out.FilteredText) :
  region_texts_loop dt r ts acc = Ok res ->
  exists kept fts,
    res = acc ++ fts /\ subsequence kept ts /\ text_projects kept fts /\
    Forall (fun t => should_include_text t dt (label r) = true) kept /\
    Forall (fun t => exists b, text_overlaps_region t (coordinate_block r) = Ok b) ts.
Proof.
  revert acc. induction ts as [|t ts IH]; intros acc E; cbn [region_texts_loop] in E.
  - injection E as <-. exists [], []. rewrite app_nil_r.
    repeat split; constructor.
  - destruct (text_overlaps_region _ _) as [hit|err] eqn:H; cbn [bind] in E;
      [|discriminate].
    assert (Skip :
      region_texts_loop dt r ts acc = Ok res ->
      exists kept fts,
        res = acc ++ fts /\ subsequence kept (t :: ts) /\ text_projects kept fts /\
        Forall (fun t => should_include_text t dt (label r) = true) kept /\
        Forall (fun t => exists b, text_overlaps_region t (coordinate_block r) = Ok b)
          (t :: ts)).
    { intros E'. destruct (IH _ E') as (kept & fts & -> & S & P & V & T).
      exists kept, fts.
      repeat split; [now apply subseq_skip | exact P | exact V | constructor; eauto]. }
    destruct hit; [|now apply Skip].
    destruct (should_include_text t dt (label r)) eqn:V; [|now apply Skip].
    destruct (filtered_text t) as [ft|err] eqn:F; cbn [bind] in E; [|discriminate].
    destruct (IH _ E) as (kept & fts & -> & S & P & V' & T).
    exists (t :: kept), (ft :: fts). rewrite <- app_assoc.
    repeat split;
      [now apply subseq_keep | now constructor | now constructor | constructor; eauto].
Qed.

Lemma text_overlaps_region_shapes (t : VectorText) (block : list Q) (b : bool) :
  text_overlaps_region t block = Ok b ->
  List.length block = 4%nat /\ well_shaped_text t.
Proof.
  unfold text_overlaps_region, well_shaped_text.
  destruct block as [|x1 [|y1 [|x2 [|y2 [|? ?]]]]]; try discriminate.
  cbn [unpack4 bind]. unfold expand_region. cbv beta iota zeta.
  destruct (bounding_box t) as [|b0 [|b1 [|b2 [|b3 [|? ?]]]]]; try discriminate.
  auto.
Qed.

Lemma line_intersects_region_shape (ext : Externals) (p q block : list Q) (b : bool) :
  line_intersects_region p q block = Ok b -> List.length block = 4%nat.
Proof.
  unfold line_intersects_region.
  destruct block as [|x1 [|y1 [|x2 [|y2 [|? ?]]]]]; try discriminate. auto.
Qed.

Lemma process_region_inv (ext : Externals) (dt : string) (u : list VectorLine)
  (ts : list VectorText) (r : VisionRegion) (o : Out.RegionData) :
  process_region dt u ts r = Ok o ->
  region_lines_loop dt r u [] = Ok (Out.lines o) /\
  region_texts_loop dt r ts [] = Ok (Out.texts o) /\
  Out.label o = label r /\
  Out.parsed_drawing_type o =
    (if String.eqb dt "bestektekening"
     then Some (parse_bestektekening_region_type (label r)) else None).
Proof.
  unfold process_region.
  destruct (region_lines_loop _ _ _ _) as [ls|?]; cbn [bind]; [|discriminate].
  destruct (region_texts_loop _ _ _ _) as [fts|?]; cbn [bind]; [|discriminate].
  intros [= <-]. cbn. auto.
Qed.

(** What a successful run went through. *)
Lemma filter_clean_inv (ext : Externals) (input_data : FilterInput) (out : Out.CleanOutput) :
  filter_clean input_data = Ok out ->
  let dt := drawing_type (vision_output input_data) in
  exists page rest,
    pages (vector_data input_data) = page :: rest /\
    Out.drawing_type out = dt /\
    ((dt = "installatietekening" /\ Out.regions out = []) \/
     (dt <> "installatietekening" /\
      exists unique,
        remove_duplicate_lines (step1 dt (lines page)) = Ok unique /\
        Forall2 (fun r o => process_region dt unique (texts page) r = Ok o)
          (regions (vision_output input_data)) (Out.regions out))).
Proof.
  intros E dt. unfold filter_clean, filter_clean_body in E. fold dt in E.
  destruct (pages (vector_data input_data)) as [|page rest]; [discriminate|].
  exists page, rest. split; [reflexivity|].
  destruct (String.eqb dt "installatietekening") eqn:I.
  - apply String.eqb_eq in I. injection E as <-. cbn. auto.
  - apply String.eqb_neq in I. cbv zeta in E. rewrite step2_dedupes in E.
    destruct (remove_duplicate_lines _) as [unique|?] eqn:D; cbn [bind] in E;
      [|discriminate].
    destruct (regions_loop _ _ _ _ _) as [res|?] eqn:L; cbn [bind try_except] in E;
      [|discriminate].
    injection E as <-. cbn. split; [reflexivity|]. right. split; [exact I|].
    exists unique. split; [reflexivity|].
    destruct (regions_loop_inv _ _ _ _ _ _ L) as (outs & -> & F). exact F.
Qed.

(** X16.  Every line a region's output holds is the projection of a page
    line, in page order, that passes the permissive rule (stroke width at
    most 1.5 and length at least 20, or dashed); every text it holds is the
    projection of a page text, in page order, that parses to a value
    between 100 and 100000.  Nothing is invented, and never more items
    than the page has. *)
Theorem outputs_are_traceable
  (ext : Externals) (input_data : FilterInput) (out : Out.CleanOutput)
  (page : VectorPage) (rest : list VectorPage) (o : Out.RegionData) :
  filter_clean input_data = Ok out ->
  pages (vector_data input_data) = page :: rest ->
  In o (Out.regions out) ->
  (exists kept,
      subsequence kept (lines page) /\ projects kept (Out.lines o) /\
      Forall (fun l => passes 1.5 20 l = true) kept /\
      (List.length (Out.lines o) <= List.length (lines page))%nat)
  /\
  (exists kept,
      subsequence kept (texts page) /\ text_projects kept (Out.texts o) /\
      Forall plausible_dimension kept /\
      (List.length (Out.texts o) <= List.length (texts page))%nat).
Proof.
  intros E Pg I. destruct (filter_clean_inv ext _ _ E) as (page' & rest' & Pg' & _ & C).
  rewrite Pg in Pg'. injection Pg' as <- <-.
  destruct C as [[_ R] | (NI & unique & D & F)]; [rewrite R in I; destruct I|].
  set (dt := drawing_type (vision_output input_data)) in *.
  assert (P : exists r, process_region dt unique (texts page) r = Ok o).
  { clear -F I. induction F as [|r o' rs outs P F IH]; [destruct I|].
    destruct I as [<- | I]; eauto. }
  destruct P as (r & P).
  destruct (process_region_inv ext _ _ _ _ _ P) as (Ll & Lt & _).
  destruct (region_lines_loop_inv ext _ _ _ _ _ Ll) as (kl & fls & El & Sl & Pl & _).
  destruct (region_texts_loop_inv ext _ _ _ _ _ Lt) as (kt & fts & Et & St & Pt & Vt & _).
  cbn [app] in El, Et. rewrite El, Et.
  assert (Su : subsequence unique (lines page)).
  { unfold remove_duplicate_lines in D.
    destruct (dedupe_loop_fresh _ _ _ D fresh_nil) as (_ & k & K & S).
    cbn [app] in K. subst k.
    exact (subsequence_trans _ _ _ S (step1_subsequence dt (lines page))). }
  split.
  - exists kl. split; [exact (subsequence_trans _ _ _ Sl Su)|]. split; [exact Pl|]. split.
    + apply Forall_forall. intros l Il.
      apply (step1_permissive dt (lines page)).
      unfold remove_duplicate_lines in D.
      destruct (dedupe_loop_fresh _ _ _ D fresh_nil) as (_ & k & K & S).
      cbn [app] in K. subst k.
      apply (subsequence_In _ _ _ S). exact (subsequence_In _ _ _ Sl Il).
    + rewrite <- (Forall2_length Pl).
      exact (subsequence_length _ _ (subsequence_trans _ _ _ Sl Su)).
  - exists kt. split; [exact St|]. split; [exact Pt|]. split.
    + revert Vt. apply Forall_impl. intros t V. unfold plausible_dimension.
      unfold should_include_text in V.
      destruct (String.eqb (if String.eqb dt "bestektekening" then _ else _) _);
        [discriminate|].
      exact (valid_dimension_plausible _ _ V).
    + rewrite <- (Forall2_length Pt). exact (subsequence_length _ _ St).
Qed.

Lemma outputs_are_traceable_witness :
  exists o,
    In o (Out.regions bestek_output) /\
    (exists kept,
        subsequence kept (lines bestek_page) /\ projects kept (Out.lines o) /\
        Forall (fun l => passes 1.5 20 l = true) kept /\
        (List.length (Out.lines o) <= List.length (lines bestek_page))%nat).
Proof.
  destruct (Out.regions bestek_output) as [|o os] eqn:R; [discriminate R|].
  exists o. split; [now left|].
  refine (proj1 (outputs_are_traceable reference_externals bestek_input bestek_output
                   bestek_page [] o _ eq_refl _)).
  - vm_compute. reflexivity.
  - rewrite R. now left.
Defined.

Lemma text_overlaps_region_total (t : VectorText) (r : VisionRegion) :
  well_shaped_text t -> well_shaped_region r ->
  exists b, text_overlaps_region t (coordinate_block r) = Ok b.
Proof.
  unfold well_shaped_text, well_shaped_region, text_overlaps_region. intros Wt R.
  destruct (coordinate_block r) as [|x1 [|y1 [|x2 [|y2 [|? ?]]]]]; try discriminate R.
  destruct (bounding_box t) as [|b0 [|b1 [|b2 [|b3 [|? ?]]]]]; try discriminate Wt.
  cbn [unpack4 bind]. unfold expand_region. cbv beta iota zeta. eauto.
Qed.

Lemma filtered_text_total (t : VectorText) :
  well_shaped_text t -> exists ft, filtered_text t = Ok ft.
Proof.
  unfold well_shaped_text, filtered_text, calculate_text_midpoint. intros Wt.
  destruct (bounding_box t) as [|b0 [|b1 [|b2 [|b3 [|? ?]]]]]; try discriminate Wt.
  cbn [getitem nth_error bind]. eauto.
Qed.

Lemma region_texts_loop_spec (dt : string) (r : VisionRegion)
  (ts : list VectorText) (acc : list Out.FilteredText) :
  Forall well_shaped_text ts -> well_shaped_region r ->
  exists fts,
    region_texts_loop dt r ts acc = Ok (acc ++ fts) /\
    text_projects
      (filter (fun t => text_in_region t r && should_include_text t dt (label r)) ts)
      fts.
Proof.
  intros W R. revert acc.
  induction W as [|t ts Wt W IH]; intros acc; cbn [region_texts_loop filter].
  - exists []. rewrite app_nil_r. split; [reflexivity | constructor].
  - unfold text_in_region at 1.
    destruct (text_overlaps_region_total t r Wt R) as (b & ->).
    cbn [bind value_or]. destruct b; cbn [andb]; [|apply IH].
    destruct (should_include_text t dt (label r)); [|apply IH].
    destruct (filtered_text_total t Wt) as (ft & E). rewrite E. cbn [bind].
    destruct (IH (acc ++ [ft])) as (fts & -> & P).
    exists (ft :: fts). rewrite <- app_assoc.
    split; [reflexivity | now constructor].
Qed.

(** X17.  On a well-shaped first page and well-shaped regions, for a type
    other than installatietekening, the texts of a region's output are the
    projections, in page order, of the page texts whose box overlaps the
    expanded region and which are valid dimensions for the region's
    effective type; a projected text keeps its string and gets the centre
    of its box. *)
Theorem region_text_inclusion
  (ext : Externals) (input_data : FilterInput) (page : VectorPage)
  (rest : list VectorPage) :
  pages (vector_data input_data) = page :: rest ->
  well_shaped_page page ->
  Forall well_shaped_region (regions (vision_output input_data)) ->
  let dt := drawing_type (vision_output input_data) in
  dt <> "installatietekening" ->
  (exists out,
      filter_clean input_data = Ok out /\
      Forall2
        (fun r o =>
           text_projects
             (filter (fun t => text_in_region t r &&
                               is_valid_dimension (text t) (effective_type dt (label r)))
                (texts page))
             (Out.texts o))
        (regions (vision_output input_data)) (Out.regions out))
  /\
  (forall t b0 b1 b2 b3,
      bounding_box t = [b0; b1; b2; b3] ->
      filtered_text t =
      Ok {| Out.text := text t;
            Out.midpoint_xy := {| Out.x := (b0 + b2) / 2; Out.y := (b1 + b3) / 2 |} |}).
Proof.
  intros Pg Wp Wr dt NI. split.
  - destruct (filter_clean_run input_data page rest Pg Wp Wr) as (u & out & _ & E & _).
    { now apply String.eqb_neq. }
    exists out. split; [exact E|].
    destruct (filter_clean_inv ext _ _ E) as (page' & rest' & Pg' & _ & C).
    rewrite Pg in Pg'. injection Pg' as <- <-.
    destruct C as [[I _] | (_ & unique & _ & F)]; [contradiction|].
    fold dt in F. destruct Wp as [_ Wt].
    induction F as [|r o rs outs P F IH]; constructor.
    + inversion Wr as [|? ? R _]; subst.
      destruct (process_region_inv ext _ _ _ _ _ P) as (_ & Lt & _).
      destruct (region_texts_loop_spec dt r (texts page) [] Wt R) as (fts & L' & Q).
      rewrite Lt in L'. injection L' as ->. cbn [app].
      match goal with
      | Q : text_projects (filter ?f _) _ |- text_projects (filter ?g _) _ =>
          rewrite (filter_ext g f); [exact Q|]
      end.
      intros t. now rewrite (should_include_text_effective t dt (label r) NI).
    + apply IH. now inversion Wr.
  - intros t b0 b1 b2 b3 B. unfold filtered_text, calculate_text_midpoint.
    rewrite B. reflexivity.
Qed.

Lemma region_text_inclusion_witness :
  exists out,
    filter_clean bestek_input = Ok out /\
    Forall2
      (fun r o =>
         text_projects
           (filter (fun t => text_in_region t r &&
                             is_valid_dimension (text t)
                               (effective_type "bestektekening" (label r)))
              (texts bestek_page))
           (Out.texts o))
      (regions (vision_output bestek_input)) (Out.regions out).
Proof.
  refine (proj1 (region_text_inclusion reference_externals bestek_input bestek_page []
                   eq_refl _ _ _)).
  - split; repeat constructor.
  - repeat constructor.
  - discriminate.
Defined.

(** X18.  In a successful run every region entry carries its region's
    label, and its parsed drawing type is the sub-type read from that label
    when the page is a bestektekening and is absent for every other page
    type. *)
Theorem parsed_drawing_type_rule
  (ext : Externals) (input_data : FilterInput) (out : Out.CleanOutput) :
  filter_clean input_data = Ok out ->
  let dt := drawing_type (vision_output input_data) in
  dt <> "installatietekening" ->
  Forall2
    (fun r o =>
       Out.label o = label r /\
       (dt = "bestektekening" ->
        Out.parsed_drawing_type o = Some (parse_bestektekening_region_type (label r))) /\
       (dt <> "bestektekening" -> Out.parsed_drawing_type o = None))
    (regions (vision_output input_data)) (Out.regions out).
Proof.
  intros E dt NI. destruct (filter_clean_inv ext _ _ E) as (page & rest & _ & _ & C).
  destruct C as [[I _] | (_ & unique & _ & F)]; [contradiction|]. fold dt in F.
  induction F as [|r o rs outs P F IH]; constructor; [|exact IH].
  destruct (process_region_inv ext _ _ _ _ _ P) as (_ & _ & Lb & Pd).
  split; [exact Lb|]. rewrite Pd. split; intros H.
  - rewrite H. reflexivity.
  - apply String.eqb_neq in H. now rewrite H.
Qed.

Lemma parsed_drawing_type_rule_witness :
  Forall2
    (fun r o =>
       Out.label o = label r /\
       ("bestektekening" = "bestektekening" ->
        Out.parsed_drawing_type o = Some (parse_bestektekening_region_type (label r))) /\
       ("bestektekening" <> "bestektekening" -> Out.parsed_drawing_type o = None))
    (regions (vision_output bestek_input)) (Out.regions bestek_output).
Proof.
  refine (parsed_drawing_type_rule reference_externals bestek_input bestek_output _ _).
  - vm_compute. reflexivity.
  - discriminate.
Defined.

(** X19.  A run can only succeed on data it could read: when it succeeds
    with at least one region, every text of the first page has a box of
    four numbers, and when there is moreover a text or a STEP 1 survivor,
    every region has a coordinate block of four numbers. *)
Theorem success_needs_shapes
  (ext : Externals) (input_data : FilterInput) (out : Out.CleanOutput)
  (page : VectorPage) (rest : list VectorPage) :
  filter_clean input_data = Ok out ->
  pages (vector_data input_data) = page :: rest ->
  let dt := drawing_type (vision_output input_data) in
  dt <> "installatietekening" ->
  regions (vision_output input_data) <> [] ->
  Forall well_shaped_text (texts page) /\
  (texts page <> [] \/ step1 dt (lines page) <> [] ->
   Forall well_shaped_region (regions (vision_output input_data))).
Proof.
  intros E Pg dt NI NE.
  destruct (filter_clean_inv ext _ _ E) as (page' & rest' & Pg' & _ & C).
  rewrite Pg in Pg'. injection Pg' as <- <-.
  destruct C as [[I _] | (_ & unique & D & F)]; [contradiction|]. fold dt in F, D.
  split.
  - destruct F as [|r o rs outs P F]; [contradiction|].
    destruct (process_region_inv ext _ _ _ _ _ P) as (_ & Lt & _).
    destruct (region_texts_loop_inv ext _ _ _ _ _ Lt) as (_ & _ & _ & _ & _ & _ & T).
    revert T. apply Forall_impl. intros t [b B].
    exact (proj2 (text_overlaps_region_shapes _ _ _ B)).
  - intros Some. clear NE.
    induction F as [|r o rs outs P F IH]; constructor; [|exact IH].
    destruct (process_region_inv ext _ _ _ _ _ P) as (Ll & Lt & _).
    destruct (region_texts_loop_inv ext _ _ _ _ _ Lt) as (_ & _ & _ & _ & _ & _ & T).
    destruct (region_lines_loop_inv ext _ _ _ _ _ Ll) as (_ & _ & _ & _ & _ & T').
    unfold well_shaped_region.
    destruct (texts page) as [|t ts].
    + destruct Some as [X | X]; [contradiction|].
      destruct (step1 dt (lines page)) as [|l ls] eqn:S1; [contradiction|].
      unfold remove_duplicate_lines in D. cbn [dedupe_loop is_duplicate bind app] in D.
      destruct (dedupe_loop_extends _ _ _ D) as (k & ->). cbn [app] in T'.
      inversion T' as [|? ? [b B] _]; subst.
      exact (line_intersects_region_shape ext _ _ _ _ B).
    + inversion T as [|? ? [b B] _]; subst.
      exact (proj1 (text_overlaps_region_shapes _ _ _ B)).
Qed.

Lemma success_needs_shapes_witness :
  Forall well_shaped_text (texts bestek_page) /\
  (texts bestek_page <> [] \/ step1 "bestektekening" (lines bestek_page) <> [] ->
   Forall well_shaped_region (regions (vision_output bestek_input))).
Proof.
  refine (success_needs_shapes reference_externals bestek_input bestek_output
            bestek_page [] _ eq_refl _ _).
  - vm_compute. reflexivity.
  - discriminate.
  - discriminate.
Defined.

Lemma regions_loop_empty_page (ext : Externals) (dt : string)
  (rs : list VisionRegion) (acc : list Out.RegionData) :
  regions_loop dt [] [] rs acc = Ok (acc ++ map (empty_entry dt) rs).
Proof.
  revert acc. induction rs as [|r rs IH]; intros acc; cbn [regions_loop map].
  - now rewrite app_nil_r.
  - unfold process_region. cbn [region_lines_loop region_texts_loop bind].
    rewrite IH, <- app_assoc. reflexivity.
Qed.

(** X20.  When the first page has no text and no line survives STEP 1,
    the run succeeds whatever the regions' coordinate blocks are, with one
    empty entry per region: a region is only read when there is something
    to test against it. *)
Theorem nothing_to_test_succeeds
  (ext : Externals) (input_data : FilterInput) (page : VectorPage)
  (rest : list VectorPage) :
  pages (vector_data input_data) = page :: rest ->
  let dt := drawing_type (vision_output input_data) in
  dt <> "installatietekening" ->
  step1 dt (lines page) = [] -> texts page = [] ->
  filter_clean input_data =
  Ok {| Out.drawing_type := dt;
        Out.regions := map (empty_entry dt) (regions (vision_output input_data)) |}.
Proof.
  intros Pg dt NI S T. unfold filter_clean, filter_clean_body.
  rewrite Pg. fold dt. apply String.eqb_neq in NI. rewrite NI. cbv zeta.
  rewrite S, T. cbn [step2 bind]. rewrite regions_loop_empty_page. reflexivity.
Qed.

Lemma nothing_to_test_succeeds_witness :
  filter_clean unread_input
  = Ok {| Out.drawing_type := "doorsnede";
          Out.regions := [ {| Out.label := "A"; Out.lines := []; Out.texts := [];
                              Out.parsed_drawing_type := None |} ] |}.
Proof.
  refine (nothing_to_test_succeeds reference_externals unread_input unread_page []
            eq_refl _ _ _).
  - discriminate.
  - reflexivity.
  - reflexivity.
Defined.

Lemma regions_loop_app (ext : Externals) (dt : string) (u : list VectorLine)
  (ts : list VectorText) (a b : list VisionRegion) (acc : list Out.RegionData) :
  regions_loop dt u ts (a ++ b) acc
  = bind (regions_loop dt u ts a acc) (regions_loop dt u ts b).
Proof.
  revert acc. induction a as [|r a IH]; intros acc; cbn [regions_loop app].
  - reflexivity.
  - destruct (process_region dt u ts r); cbn [bind]; [apply IH | reflexivity].
Qed.

Lemma regions_loop_shift (ext : Externals) (dt : string) (u : list VectorLine)
  (ts : list VectorText) (rs : list VisionRegion) (acc : list Out.RegionData) :
  regions_loop dt u ts rs acc
  = bind (regions_loop dt u ts rs []) (fun outs => Ok (acc ++ outs)).
Proof.
  revert acc. induction rs as [|r rs IH]; intros acc; cbn [regions_loop].
  - cbn. now rewrite app_nil_r.
  - destruct (process_region dt u ts r) as [o|?]; cbn [bind]; [|reflexivity].
    rewrite (IH (acc ++ [o])), (IH ([] ++ [o])).
    destruct (regions_loop dt u ts rs []); cbn [bind]; [|reflexivity].
    now rewrite <- app_assoc.
Qed.

(** X21.  Regions are processed independently and in order: the run on
    two lists of regions put together equals the two runs, one after the
    other, with their entries concatenated (and fails when either run
    fails). *)
Theorem regions_compose
  (ext : Externals) (input_data : FilterInput) (rs1 rs2 : list VisionRegion) :
  filter_clean (with_regions input_data (rs1 ++ rs2)) =
  (o1 <- filter_clean (with_regions input_data rs1) ;;
   o2 <- filter_clean (with_regions input_data rs2) ;;
   Ok {| Out.drawing_type := drawing_type (vision_output input_data);
         Out.regions := Out.regions o1 ++ Out.regions o2 |}).
Proof.
  unfold filter_clean, filter_clean_body, with_regions.
  cbn [vector_data vision_output drawing_type regions].
  destruct (pages (vector_data input_data)) as [|page rest]; [reflexivity|].
  destruct (String.eqb (drawing_type (vision_output input_data)) "installatietekening");
    [reflexivity|].
  cbv zeta. destruct (step2 _) as [u|?]; cbn [bind try_except]; [|reflexivity].
  rewrite regions_loop_app.
  destruct (regions_loop _ u (texts page) rs1 []) as [o1|?]; cbn [bind try_except];
    [|reflexivity].
  rewrite regions_loop_shift.
  destruct (regions_loop _ u (texts page) rs2 []) as [o2|?]; cbn [bind try_except];
    reflexivity.
Qed.

(** *** Failing and succeeding as a whole *)

Lemma Forall2_In_l {A B : Type} (R : A -> B -> Prop) (l : list A) (l' : list B) (a : A) :
  Forall2 R l l' -> In a l -> exists b, In b l' /\ R a b.
Proof.
  induction 1 as [|x y l l' Rxy F IH]; intros I; [destruct I|].
  destruct I as [<- | I].
  - exists y. split; [now left | exact Rxy].
  - destruct (IH I) as (b & Ib & Rb). exists b. split; [now right | exact Rb].
Qed.

Lemma filter_clean_outcome (ext : Externals) (input_data : FilterInput) :
  filter_clean input_data = Raise (HTTPException 500) \/
  exists out, filter_clean input_data = Ok out.
Proof.
  unfold filter_clean. destruct (filter_clean_body input_data) as [out|e];
    [right; now exists out | now left].
Qed.

(** C10, as amended.  The pipeline fails as a whole or succeeds as a
    whole: every failure is the one structured failure and carries no
    output, every success has, for a drawing type other than
    installatietekening, exactly one entry per input region, in input
    order, with that region's label.  An empty pages list is a failure, and
    not the only one: with a page and a drawing type other than
    installatietekening the run also fails when a region's coordinate block
    does not have four numbers while the first page has a text or a line
    that survives STEP 1, and when a text of the first page has a box
    without four numbers while there is a region.  Success is certain when
    the first page and the regions are well-shaped (two coordinates per
    endpoint, four numbers per box and per block). *)
Theorem filter_clean_all_or_nothing (ext : Externals) :
  (forall input_data,
      pages (vector_data input_data) = [] ->
      filter_clean input_data = Raise (HTTPException 500))
  /\
  (forall input_data,
      let dt := drawing_type (vision_output input_data) in
      filter_clean input_data = Raise (HTTPException 500) \/
      exists out,
        filter_clean input_data = Ok out /\
        Out.drawing_type out = dt /\
        (dt = "installatietekening" -> Out.regions out = []) /\
        (dt <> "installatietekening" ->
         map Out.label (Out.regions out) = map label (regions (vision_output input_data))))
  /\
  (forall input_data page rest,
      pages (vector_data input_data) = page :: rest ->
      well_shaped_page page ->
      Forall well_shaped_region (regions (vision_output input_data)) ->
      drawing_type (vision_output input_data) <> "installatietekening" ->
      exists out,
        filter_clean input_data = Ok out /\
        map Out.label (Out.regions out) = map label (regions (vision_output input_data)))
  /\
  (forall input_data page rest,
      pages (vector_data input_data) = page :: rest ->
      let dt := drawing_type (vision_output input_data) in
      dt <> "installatietekening" ->
      Exists (fun r => ~ well_shaped_region r) (regions (vision_output input_data)) ->
      texts page <> [] \/ step1 dt (lines page) <> [] ->
      filter_clean input_data = Raise (HTTPException 500))
  /\
  (forall input_data page rest,
      pages (vector_data input_data) = page :: rest ->
      drawing_type (vision_output input_data) <> "installatietekening" ->
      regions (vision_output input_data) <> [] ->
      Exists (fun t => ~ well_shaped_text t) (texts page) ->
      filter_clean input_data = Raise (HTTPException 500)).
Proof.
  split; [|split; [|split; [|split]]].
  - intros input_data E. unfold filter_clean, filter_clean_body. now rewrite E.
  - intros input_data dt. unfold filter_clean, filter_clean_body. fold dt.
    destruct (pages (vector_data input_data)) as [|page rest]; [now left|].
    destruct (String.eqb dt "installatietekening") eqn:I.
    + right. eexists. split; [reflexivity|]. cbn. apply String.eqb_eq in I.
      repeat split; congruence.
    + cbv zeta. destruct (step2 _) as [unique|err]; cbn [bind try_except]; [|now left].
      destruct (regions_loop _ _ _ _ _) as [res|err] eqn:L;
        cbn [bind try_except]; [|now left].
      right. eexists. split; [reflexivity|]. cbn.
      destruct (regions_loop_inv _ _ _ _ _ _ L) as (outs & -> & F). cbn [app].
      apply String.eqb_neq in I.
      repeat split; try congruence. intros _. exact (Forall2_labels _ _ _ _ _ F).
  - intros input_data page rest Pg Wp Wr NI.
    destruct (filter_clean_run input_data page rest Pg Wp Wr)
      as (unique & out & _ & E & _ & Lb & _).
    { now apply String.eqb_neq. }
    eauto.
  - intros input_data page rest Pg dt NI Bad Some.
    destruct (filter_clean_outcome ext input_data) as [F | (out & E)]; [exact F|].
    exfalso.
    destruct (filter_clean_inv ext _ _ E) as (page' & rest' & Pg' & _ & C).
    rewrite Pg in Pg'. injection Pg' as <- <-.
    destruct C as [[I _] | (_ & unique & D & F)]; [contradiction|]. fold dt in F, D.
    apply Exists_exists in Bad as (r & In_r & N).
    destruct (Forall2_In_l _ _ _ _ F In_r) as (o & _ & P).
    apply N. unfold well_shaped_region.
    destruct (process_region_inv ext _ _ _ _ _ P) as (Ll & Lt & _).
    destruct (region_texts_loop_inv ext _ _ _ _ _ Lt) as (_ & _ & _ & _ & _ & _ & T).
    destruct (region_lines_loop_inv ext _ _ _ _ _ Ll) as (_ & _ & _ & _ & _ & T').
    destruct (texts page) as [|t ts].
    + destruct Some as [X | X]; [contradiction|].
      destruct (step1 dt (lines page)) as [|l ls] eqn:S1; [contradiction|].
      unfold remove_duplicate_lines in D. cbn [dedupe_loop is_duplicate bind app] in D.
      destruct (dedupe_loop_extends _ _ _ D) as (k & ->). cbn [app] in T'.
      inversion T' as [|? ? [b B] _]; subst.
      exact (line_intersects_region_shape ext _ _ _ _ B).
    + inversion T as [|? ? [b B] _]; subst.
      exact (proj1 (text_overlaps_region_shapes _ _ _ B)).
  - intros input_data page rest Pg NI NE Bad.
    destruct (filter_clean_outcome ext input_data) as [F | (out & E)]; [exact F|].
    exfalso.
    destruct (filter_clean_inv ext _ _ E) as (page' & rest' & Pg' & _ & C).
    rewrite Pg in Pg'. injection Pg' as <- <-.
    destruct C as [[I _] | (_ & unique & D & F)]; [contradiction|].
    destruct F as [|r o rs outs P F]; [contradiction|].
    destruct (process_region_inv ext _ _ _ _ _ P) as (_ & Lt & _).
    destruct (region_texts_loop_inv ext _ _ _ _ _ Lt) as (_ & _ & _ & _ & _ & _ & T).
    apply Exists_exists in Bad as (t & In_t & N). apply N.
    destruct (proj1 (Forall_forall _ _) T t In_t) as [b B].
    exact (proj2 (text_overlaps_region_shapes _ _ _ B)).
Qed.

(** C10, as stated, fails: an input with a page and a drawing type other
    than installatietekening that yields the failure, not one entry per
    region. *)
Lemma short_coordinate_block_fails :
  pages (vector_data short_block_input) <> [] /\
  drawing_type (vision_output short_block_input) <> "installatietekening" /\
  filter_clean (ext := reference_externals) short_block_input
  = Raise (HTTPException 500).
Proof.
  split; [discriminate|]. split; [discriminate|]. reflexivity.
Qed.

Lemma filter_clean_all_or_nothing_witness :
  filter_clean (ext := reference_externals) no_page_input
  = Raise (HTTPException 500)
  /\
  (exists out,
     filter_clean (ext := reference_externals) bestek_input = Ok out /\
     map Out.label (Out.regions out) = map label (regions (vision_output bestek_input)))
  /\
  filter_clean (ext := reference_externals) short_block_input
  = Raise (HTTPException 500)
  /\
  filter_clean (ext := reference_externals) short_box_input
  = Raise (HTTPException 500).
Proof.
  pose proof (filter_clean_all_or_nothing reference_externals) as (T1 & _ & T3 & T4 & T5).
  split; [|split; [|split]].
  - exact (T1 no_page_input eq_refl).
  - refine (T3 bestek_input bestek_page [] eq_refl _ _ _).
    + split; repeat constructor.
    + repeat constructor.
    + discriminate.
  - refine (T4 short_block_input _ [] eq_refl _ _ _).
    + discriminate.
    + apply Exists_cons_hd. unfold well_shaped_region. cbn. intros H. discriminate H.
    + right. intros H. vm_compute in H. discriminate H.
  - refine (T5 short_box_input _ [] eq_refl _ _ _).
    + discriminate.
    + discriminate.
    + apply Exists_cons_hd. unfold well_shaped_text. cbn. intros H. discriminate H.
Defined.

(** ** The ingestion endpoint *)

Ltac obind_inv H :=
  repeat match type of H with
         | obind ?m _ = Some _ =>
             let E := fresh "E" in
             destruct m eqn:E; cbn [obind] in H; [|discriminate H]
         end.

Section IngestionFacts.

Context {lib : PyLibrary}.

Lemma dict_get_is_dict (d : json) (k : string) (default v : json) :
  dict_get d k default = Some v -> is_dict d = true.
Proof. destruct d; (discriminate || reflexivity). Qed.

Lemma floats_length (items : list json) (qs : list Q) :
  floats items = Some qs -> List.length qs = List.length items.
Proof.
  revert qs. induction items as [|x items IH]; intros qs H; cbn [floats] in H.
  - now injection H as <-.
  - obind_inv H. injection H as <-. cbn. f_equal. now apply IH.
Qed.

Lemma point_list_length (p : json) (l : list Q) :
  point_list p = Some l -> List.length l = 2%nat.
Proof.
  unfold point_list. destruct (is_dict p); intros H; obind_inv H;
    now injection H as <-.
Qed.

Lemma bbox_list_length (bbox : json) (l : list Q) :
  bbox_list bbox = Some l -> List.length l = 4%nat.
Proof.
  unfold bbox_list. destruct (is_dict bbox); intros H.
  - obind_inv H. now injection H as <-.
  - obind_inv H. destruct (Nat.leb_spec 4 n) as [Le|Lt].
    + obind_inv H. apply floats_length in H. rewrite H.
      unfold py_len in E. rewrite E0 in E. cbn in E. injection E as <-.
      rewrite length_firstn. lia.
    + now injection H as <-.
Qed.

Lemma convert_text_shape (text_data : json) (t : VectorText) :
  convert_text text_data = Some t ->
  well_shaped_text t /\ List.length (position t) = 2%nat.
Proof.
  unfold convert_text, well_shaped_text. intros H. obind_inv H.
  injection H as <-. cbn. split.
  - eapply bbox_list_length; eauto.
  - eapply point_list_length; eauto.
Qed.

Lemma texts_loop_shape (P : VectorText -> Prop) (items : list json)
  (acc ts : list VectorText) :
  (forall d t, convert_text d = Some t -> P t) ->
  texts_loop items acc = Some ts -> Forall P acc -> Forall P ts.
Proof.
  intros C. revert acc. induction items as [|d items IH]; intros acc H F;
    cbn [texts_loop] in H.
  - now injection H as <-.
  - obind_inv H. apply (IH _ H). apply Forall_app. split; [exact F|].
    constructor; [eauto | constructor].
Qed.

Lemma convert_line_shape (line_data : json) (l : VectorLine) :
  convert_line line_data = Some l -> well_shaped_line l.
Proof.
  unfold convert_line, well_shaped_line. intros H. obind_inv H.
  injection H as <-. cbn. split; eapply point_list_length; eauto.
Qed.

Lemma lines_loop_shape (items : list json) (acc ls : list VectorLine) :
  lines_loop items acc = Some ls ->
  Forall well_shaped_line acc -> Forall well_shaped_line ls.
Proof.
  revert acc. induction items as [|d items IH]; intros acc H F;
    cbn [lines_loop] in H.
  - now injection H as <-.
  - destruct (is_line_entry d); [|now apply (IH _ H)].
    obind_inv H. apply (IH _ H). apply Forall_app. split; [exact F|].
    constructor; [now apply (convert_line_shape d) | constructor].
Qed.

Lemma locations_loop_shape (locations : list json) (ls : list VectorLine) :
  locations_loop locations [] = Some ls -> Forall well_shaped_line ls.
Proof.
  induction locations as [|loc locations IH]; intros H; cbn [locations_loop] in H.
  - injection H as <-. constructor.
  - destruct (truthy loc); [|now apply IH].
    obind_inv H. apply (lines_loop_shape _ _ _ H). constructor.
Qed.

Lemma convert_page_shape (page_data : json) (page : VectorPage) :
  convert_page page_data = Some page ->
  is_dict page_data = true /\ well_shaped_page page /\
  Forall (fun t => List.length (position t) = 2%nat) (texts page).
Proof.
  unfold convert_page, well_shaped_page. intros H. obind_inv H.
  injection H as <-. cbn [lines texts]. split; [|split; [split|]].
  - eapply dict_get_is_dict; eauto.
  - eapply locations_loop_shape; eauto.
  - apply (texts_loop_shape well_shaped_text _ [] _
             (fun d t C => proj1 (convert_text_shape d t C)) E3). constructor.
  - apply (texts_loop_shape (fun t => List.length (position t) = 2%nat) _ [] _
             (fun d t C => proj2 (convert_text_shape d t C)) E3). constructor.
Qed.

Lemma pages_loop_inv (items : list json) (acc ps : list VectorPage) :
  pages_loop items acc = Some ps ->
  exists converted,
    ps = acc ++ converted /\
    Forall2 (fun d p => convert_page d = Some p) items converted.
Proof.
  revert acc. induction items as [|d items IH]; intros acc H; cbn [pages_loop] in H.
  - injection H as <-. exists []. rewrite app_nil_r. split; [reflexivity | constructor].
  - obind_inv H. destruct (IH _ H) as (c & -> & F).
    exists (v :: c). rewrite <- app_assoc. split; [reflexivity | now constructor].
Qed.

(** What a successful conversion went through. *)
Lemma convert_inv (raw : list (string * json)) (vd : VectorData) :
  convert_vector_drawing_api_format raw = Ok vd ->
  exists items,
    lookup "pages" raw = Some (JList items) /\ items <> [] /\
    page_number vd = 1%Z /\
    Forall2 (fun d p => convert_page d = Some p) items (pages vd).
Proof.
  unfold convert_vector_drawing_api_format, convert_body. cbn [dict_get].
  destruct (lookup "pages" raw) as [v|]; cbn [obind truthy negb]; [|discriminate].
  destruct (truthy v) eqn:T; cbn [negb]; [|discriminate].
  destruct (py_len v) as [n|] eqn:L; cbn [obind]; [|discriminate].
  destruct (py_iter v) as [items|] eqn:I; cbn [obind]; [|discriminate].
  destruct (pages_loop items []) as [ps|] eqn:P; cbn [obind]; [|discriminate].
  intros [= <-]. destruct (pages_loop_inv _ _ _ P) as (c & -> & F). cbn [app] in *.
  destruct v as [| | | | s | l | fields]; try discriminate I; cbn in I;
    injection I as <-.
  - (* a string: its characters are not dicts *)
    destruct s as [|ch s]; [discriminate T|]. cbn in F.
    inversion F as [|? ? ? ? C _]; subst. discriminate C.
  - exists l. repeat split; auto. intros ->. discriminate T.
  - (* a dict: its keys are not dicts *)
    destruct fields as [|[k x] fields]; [discriminate T|]. cbn in F.
    inversion F as [|? ? ? ? C _]; subst. discriminate C.
Qed.

Lemma locations_loop_first (locations : list json) (acc ls : list VectorLine) :
  locations_loop locations acc = Some ls ->
  match List.find truthy locations with
  | Some loc => exists items, py_iter loc = Some items /\ lines_loop items acc = Some ls
  | None => ls = acc
  end.
Proof.
  induction locations as [|loc locations IH]; intros H;
    cbn [locations_loop List.find] in *.
  - now injection H as <-.
  - destruct (truthy loc); [|now apply IH].
    obind_inv H. now exists l.
Qed.

Lemma lines_loop_inv (items : list json) (acc ls : list VectorLine) :
  lines_loop items acc = Some ls <->
  exists converted,
    Forall2 (fun d l => convert_line d = Some l) (filter is_line_entry items) converted /\
    ls = acc ++ converted.
Proof.
  revert acc. induction items as [|d items IH]; intros acc;
    cbn [lines_loop filter].
  - split.
    + intros [= <-]. exists []. rewrite app_nil_r. split; [constructor | reflexivity].
    + intros (c & F & ->). inversion F; subst. now rewrite app_nil_r.
  - destruct (is_line_entry d); [|apply IH].
    split.
    + intros H. obind_inv H. apply IH in H. destruct H as (c & F & ->).
      exists (v :: c). rewrite <- app_assoc. split; [now constructor | reflexivity].
    + intros (c & F & ->). inversion F as [|? l ? c' C F']; subst.
      rewrite C. cbn [obind]. apply IH. exists c'. rewrite <- app_assoc.
      split; [exact F' | reflexivity].
Qed.

Lemma convert_page_drawings (fields : list (string * json)) (page : VectorPage) :
  convert_page (JDict fields) = Some page ->
  exists d, dict_get (JDict fields) "drawings" (JDict []) = Some (JDict d).
Proof.
  unfold convert_page. intros H. obind_inv H.
  match goal with
  | E : dict_get ?d "lines" (JList []) = Some _ |- exists _, Some ?d = _ =>
      destruct d; try discriminate E
  end.
  now eexists.
Qed.

Lemma convert_raises (raw : list (string * json)) (e : exn) :
  convert_vector_drawing_api_format raw = Raise e -> e = ValueError.
Proof.
  unfold convert_vector_drawing_api_format.
  destruct (convert_body raw); [discriminate | now intros [= <-]].
Qed.

Lemma convert_first_page (raw : list (string * json)) (vd : VectorData) :
  convert_vector_drawing_api_format raw = Ok vd ->
  exists page rest, pages vd = page :: rest /\ well_shaped_page page.
Proof.
  intros H. destruct (convert_inv raw vd H) as (items & _ & N & _ & F).
  destruct F as [|d p items ps C F]; [now destruct N|].
  exists p, ps. split; [reflexivity|]. now apply (convert_page_shape d p).
Qed.

(** X22.  A conversion succeeds only on a request whose ["pages"] value is
    a non-empty list of dicts (a missing key, [null], an empty list, a
    number, a string or a dict are all refused); it then gives one
    converted page per entry and the page number 1. *)
Theorem conversion_needs_page_dicts (raw : list (string * json)) (vd : VectorData) :
  convert_vector_drawing_api_format raw = Ok vd ->
  exists items,
    lookup "pages" raw = Some (JList items) /\
    items <> [] /\
    Forall (fun p => is_dict p = true) items /\
    List.length (pages vd) = List.length items /\
    page_number vd = 1%Z.
Proof.
  intros H. destruct (convert_inv raw vd H) as (items & L & N & P & F).
  exists items. repeat split; auto.
  - clear -F. induction F as [|d p items ps C F IH]; constructor; auto.
    now apply (convert_page_shape d p).
  - symmetry. eapply Forall2_length; eauto.
Qed.

(** X23.  Whatever the request holds, the data a successful conversion
    returns is well shaped: every line has two coordinates per end point,
    every text a position of two coordinates and a bounding box of four
    numbers. *)
Theorem converted_data_is_well_shaped (raw : list (string * json)) (vd : VectorData) :
  convert_vector_drawing_api_format raw = Ok vd ->
  Forall well_shaped_page (pages vd) /\
  Forall (fun p => Forall (fun t => List.length (position t) = 2%nat) (texts p))
    (pages vd).
Proof.
  intros H. destruct (convert_inv raw vd H) as (items & _ & _ & _ & F).
  clear H. induction F as [|d p items ps C F IH].
  - split; constructor.
  - destruct IH as [IH1 IH2].
    destruct (convert_page_shape d p C) as (_ & W & T).
    split; constructor; auto.
Qed.

(** X24.  A page whose ["drawings"] value is present but not a dict (a
    list of entries, [null], a string) makes the whole conversion fail: the
    lines under [drawings] are looked up with [get] before the branch for a
    list of drawings is reached. *)
Theorem drawings_must_be_a_dict (raw : list (string * json)) (items : list json)
  (fields : list (string * json)) (d : json) :
  lookup "pages" raw = Some (JList items) ->
  In (JDict fields) items ->
  lookup "drawings" fields = Some d ->
  is_dict d = false ->
  convert_vector_drawing_api_format raw = Raise ValueError.
Proof.
  intros L I D N. destruct (convert_vector_drawing_api_format raw) as [vd|e] eqn:C.
  - exfalso. destruct (convert_inv _ _ C) as (items' & L' & _ & _ & F).
    rewrite L in L'. injection L' as <-.
    destruct (Forall2_In_l _ _ _ _ F I) as (p & _ & Cp).
    destruct (convert_page_drawings _ _ Cp) as (d' & G).
    cbn [dict_get] in G. rewrite D in G. injection G as ->. discriminate N.
  - f_equal. now apply (convert_raises raw).
Qed.

(** X25.  The lines of a converted page come from one place only: the
    first of [drawings.lines], [lines], [paths] and [elements] that is not
    empty.  Its entries that are line entries (a dict with ["type"] equal to
    ["line"] or with a key ["p1"]) give the lines of the page, one each and in
    order; its other entries and the later places add nothing.  When all
    four are empty the page has no lines. *)
Theorem page_lines_from_first_location (fields : list (string * json))
  (page : VectorPage) :
  convert_page (JDict fields) = Some page ->
  exists d loc0 loc1 loc2 loc3,
    dict_get (JDict fields) "drawings" (JDict []) = Some (JDict d) /\
    dict_get (JDict d) "lines" (JList []) = Some loc0 /\
    dict_get (JDict fields) "lines" (JList []) = Some loc1 /\
    dict_get (JDict fields) "paths" (JList []) = Some loc2 /\
    dict_get (JDict fields) "elements" (JList []) = Some loc3 /\
    match List.find truthy [loc0; loc1; loc2; loc3] with
    | Some loc =>
        exists items,
          py_iter loc = Some items /\
          Forall2 (fun e l => convert_line e = Some l)
            (filter is_line_entry items) (lines page)
    | None => lines page = []
    end.
Proof.
  unfold convert_page. intros H. obind_inv H. injection H as <-. cbn [lines].
  match goal with
  | E : dict_get ?d "lines" (JList []) = Some _ |- exists _ _ _ _ _, Some ?d = _ /\ _ =>
      destruct d as [| | | | | |d]; try discriminate E
  end.
  cbn [is_list] in *. rewrite app_nil_r in *.
  do 5 eexists. repeat (split; [first [eassumption | reflexivity]|]).
  match goal with
  | E : locations_loop _ [] = Some _ |- _ => apply locations_loop_first in E; revert E
  end.
  destruct (List.find truthy _) as [loc|]; [|auto].
  intros (items & I & L). exists items. split; [exact I|].
  apply lines_loop_inv in L. destruct L as (c & F & ->). exact F.
Qed.

Lemma bbox_list_short (items : list json) :
  (List.length items < 4)%nat ->
  bbox_list (JList items) = bbox_list (JDict []).
Proof.
  intros Short. unfold bbox_list. cbn [is_dict py_len py_iter obind].
  destruct (Nat.leb_spec 4 (List.length items)); [lia | reflexivity].
Qed.

(** X26.  A text whose ["bbox"] is missing, or is a list of fewer than
    four items, is converted as if its ["bbox"] were the empty dict: the
    items of a short list are not read, and the bounding box is
    [[0, 0, 100, 20]]. *)
Theorem short_bbox_is_replaced (fields : list (string * json)) :
  lookup "bbox" fields = None \/
  (exists items,
     lookup "bbox" fields = Some (JList items) /\ (List.length items < 4)%nat) ->
  convert_text (JDict fields) = convert_text (JDict (("bbox", JDict []) :: fields)) /\
  forall t,
    convert_text (JDict fields) = Some t -> bounding_box t = [0; 0; 100; 20]%Q.
Proof.
  intros B.
  assert (E : convert_text (JDict fields)
              = convert_text (JDict (("bbox", JDict []) :: fields))).
  { unfold convert_text. cbn [dict_get lookup String.eqb Ascii.eqb Bool.eqb obind].
    destruct B as [B | (items & B & Short)]; rewrite B; [reflexivity|].
    now rewrite (bbox_list_short items Short). }
  split; [exact E|].
  intros t. rewrite E. unfold convert_text.
  cbn [dict_get lookup String.eqb Ascii.eqb Bool.eqb obind]. intros H.
  obind_inv H. injection H as <-. cbn [bounding_box].
  match goal with G : bbox_list (JDict []) = Some _ |- _ =>
    cbn in G; now injection G as <- end.
Qed.

End IngestionFacts.

Section IngestionEndpoint.

Context {lib : PyLibrary} {ext : Externals}.

(** X27.  Converted data cannot make the pipeline fail: when the
    conversion succeeds and the vision output validates with regions of
    four coordinates, the endpoint answers, with the drawing type of the
    vision output and, unless that is ["installatietekening"], one entry per
    region under the same label and in the same order. *)
Theorem ingestion_answers_on_shaped_regions
  (raw_vector raw_vision : list (string * json))
  (vd : VectorData) (vision_obj : VisionOutput) :
  convert_vector_drawing_api_format raw_vector = Ok vd ->
  validate_vision_output raw_vision = Some vision_obj ->
  Forall well_shaped_region (regions vision_obj) ->
  exists out,
    filter_from_vector_api raw_vector raw_vision = Ok out /\
    Out.drawing_type out = drawing_type vision_obj /\
    (String.eqb (drawing_type vision_obj) "installatietekening" = false ->
     map Out.label (Out.regions out) = map label (regions vision_obj)).
Proof.
  intros C V W. unfold filter_from_vector_api. rewrite C, V. cbn [bind].
  destruct (convert_first_page _ _ C) as (page & rest & P & Wp).
  destruct (String.eqb (drawing_type vision_obj) "installatietekening") eqn:I.
  - exists {| Out.drawing_type := drawing_type vision_obj; Out.regions := [] |}.
    unfold filter_clean, filter_clean_body. cbn [vector_data vision_output].
    rewrite P, I. cbn. repeat split. discriminate.
  - destruct (filter_clean_run {| vector_data := vd; vision_output := vision_obj |}
                page rest P Wp W I) as (unique & out & _ & R & D & L & _).
    exists out. rewrite R. cbn [try_except]. repeat split; auto.
Qed.

End IngestionEndpoint.

(** *** The examples, run *)

Lemma conversion_needs_page_dicts_witness :
  convert_vector_drawing_api_format (lib := sample_library) sample_vector_data
  = Ok sample_converted /\
  exists items,
    lookup "pages" sample_vector_data = Some (JList items) /\
    items <> [] /\
    Forall (fun p => is_dict p = true) items /\
    List.length (pages sample_converted) = List.length items /\
    page_number sample_converted = 1%Z.
Proof.
  split; [vm_compute; reflexivity|].
  apply (conversion_needs_page_dicts (lib := sample_library) sample_vector_data).
  vm_compute. reflexivity.
Defined.

Lemma converted_data_is_well_shaped_witness :
  convert_vector_drawing_api_format (lib := sample_library) sample_vector_data
  = Ok sample_converted /\
  Forall well_shaped_page (pages sample_converted) /\
  Forall (fun p => Forall (fun t => List.length (position t) = 2%nat) (texts p))
    (pages sample_converted).
Proof.
  split; [vm_compute; reflexivity|].
  apply (converted_data_is_well_shaped (lib := sample_library) sample_vector_data).
  vm_compute. reflexivity.
Defined.

Lemma ingestion_answers_on_shaped_regions_witness :
  convert_vector_drawing_api_format (lib := sample_library) sample_vector_data
  = Ok sample_converted /\
  validate_vision_output (PyLibrary := sample_library) sample_vision
  = Some sample_vision_obj /\
  Forall well_shaped_region (regions sample_vision_obj) /\
  exists out,
    filter_from_vector_api (lib := sample_library) (ext := reference_externals)
      sample_vector_data sample_vision = Ok out /\
    Out.drawing_type out = "plattegrond" /\
    (String.eqb "plattegrond" "installatietekening" = false ->
     map Out.label (Out.regions out) = ["A"]).
Proof.
  assert (W : Forall well_shaped_region (regions sample_vision_obj))
    by (apply Forall_cons; [reflexivity | apply Forall_nil]).
  split; [vm_compute; reflexivity|].
  split; [vm_compute; reflexivity|].
  split; [exact W|].
  apply (ingestion_answers_on_shaped_regions (lib := sample_library)
           (ext := reference_externals) sample_vector_data sample_vision
           sample_converted sample_vision_obj);
    [vm_compute; reflexivity | vm_compute; reflexivity | exact W].
Defined.

Lemma drawings_must_be_a_dict_witness :
  lookup "pages" listed_vector_data = Some (JList [JDict listed_page]) /\
  In (JDict listed_page) [JDict listed_page] /\
  lookup "drawings" listed_page = Some (JList [JDict sample_line_entry]) /\
  is_dict (JList [JDict sample_line_entry]) = false /\
  convert_vector_drawing_api_format (lib := sample_library) listed_vector_data
  = Raise ValueError.
Proof.
  repeat (split; [first [reflexivity | now left]|]).
  apply (drawings_must_be_a_dict (lib := sample_library) listed_vector_data
           [JDict listed_page] listed_page (JList [JDict sample_line_entry]));
    first [reflexivity | now left].
Defined.

Lemma page_lines_from_first_location_witness :
  convert_page (lib := sample_library) (JDict sample_page) = Some sample_converted_page /\
  exists d loc0 loc1 loc2 loc3,
    dict_get (JDict sample_page) "drawings" (JDict []) = Some (JDict d) /\
    dict_get (JDict d) "lines" (JList []) = Some loc0 /\
    dict_get (JDict sample_page) "lines" (JList []) = Some loc1 /\
    dict_get (JDict sample_page) "paths" (JList []) = Some loc2 /\
    dict_get (JDict sample_page) "elements" (JList []) = Some loc3 /\
    match List.find truthy [loc0; loc1; loc2; loc3] with
    | Some loc =>
        exists items,
          py_iter loc = Some items /\
          Forall2 (fun e l => convert_line (lib := sample_library) e = Some l)
            (filter is_line_entry items) (lines sample_converted_page)
    | None => lines sample_converted_page = []
    end.
Proof.
  split; [vm_compute; reflexivity|].
  apply (page_lines_from_first_location (lib := sample_library) sample_page).
  vm_compute. reflexivity.
Defined.

Lemma short_bbox_is_replaced_witness :
  (lookup "bbox" sample_text_entry = None \/
   exists items,
     lookup "bbox" sample_text_entry = Some (JList items) /\
     (List.length items < 4)%nat) /\
  convert_text (lib := sample_library) (JDict sample_text_entry)
  = convert_text (lib := sample_library) (JDict (("bbox", JDict []) :: sample_text_entry)) /\
  forall t,
    convert_text (lib := sample_library) (JDict sample_text_entry) = Some t ->
    bounding_box t = [0; 0; 100; 20]%Q.
Proof.
  assert (B : lookup "bbox" sample_text_entry = None \/
              exists items,
                lookup "bbox" sample_text_entry = Some (JList items) /\
                (List.length items < 4)%nat).
  { right. exists [JStr "?"; JInt 2]. split; [reflexivity | cbn; lia]. }
  split; [exact B|].
  apply (short_bbox_is_replaced (lib := sample_library) sample_text_entry B).
Defined.
